(** * shulkers-cli: plugin lookup, disambiguation and the read-through cache

    A shallow embedding of the decision logic of the [info] and [search]
    commands ([getPluginByName], [processSearchResults], [searchPlugins]),
    of the [fuzzySearch] helper, and of the [withCache] / [ensureValidLimit]
    helpers of the two source adapters, followed by the properties the
    specification states about them.

    Conventions of the embedding
    - JavaScript strings are [string]s of 8-bit code units.
    - [String.prototype.toLowerCase] is the Unicode lower-casing of the
      runtime, which the program calls and does not define: it is a
      parameter ([JS.LowerCase]).  Every definition that calls it and every
      statement about them is made for an arbitrary mapping, so it holds
      for the one the runtime applies.  The sample data supplies
      [Utf8.lowerCase], which lower-cases text written in UTF-8 by the
      mappings of the Unicode Character Database.
    - A field that may be [undefined] is an [option]; truthiness ([name && ...],
      [limit ? limit : 10]) is written out.
    - Numbers that hold counts, limits and millisecond timestamps are [Z] or
      [nat]; the Fuse.js score is a binary64 [float].
    - Console and spinner output is a list of [Event]s, in program order.
    - A promise that may reject is a value of [Exc]; [try]/[catch] is
      [try_catch].
    - Fuse.js itself is an external library: its [search] is a parameter. *)

From stdpp Require Import gmap strings.
From Stdlib Require Import ZArith List Ascii String Bool Lia PrimFloat Permutation.
From Stdlib Require Import DecimalString.
Import ListNotations.

Local Open Scope Z_scope.
Local Open Scope list_scope.

(* ===================================================================== *)
(** ** JavaScript built-ins used by the program *)
(* ===================================================================== *)

Module JS.

(** [String.prototype.toLowerCase]: the lower-casing the runtime applies,
    over the whole of Unicode (capital letters with accents, Greek,
    Cyrillic and so on, not only A-Z).  It is a built-in, so it is a
    parameter here: nothing is assumed about it. *)
Class LowerCase : Type := toLowerCase : string -> string.

(** [s.startsWith(t)]. *)
Fixpoint startsWith (s t : string) {struct t} : bool :=
  match t, s with
  | EmptyString, _ => true
  | String _ _, EmptyString => false
  | String b t', String a s' => (Ascii.eqb a b && startsWith s' t')%bool
  end.

(** [s.includes(t)]: [t] occurs in [s] at some position. *)
Fixpoint includes (s t : string) : bool :=
  (startsWith s t ||
   match s with
   | EmptyString => false
   | String _ s' => includes s' t
   end)%bool.

(** Truthiness of a value that is a string or [undefined]: the empty
    string and [undefined] are falsy. *)
Definition truthy (v : option string) : bool :=
  match v with
  | Some (String _ _) => true
  | _ => false
  end.

(** [Array.prototype.sort(cmp)]: the sort is stable (ECMAScript 2019), and
    [cmp a b > 0] means [a] goes after [b].  Insertion from the right end
    keeps equal elements in their original order. *)
Section Sort.
Context {A : Type} (cmp : A -> A -> Z).

Fixpoint insert_sorted (x : A) (l : list A) : list A :=
  match l with
  | [] => [x]
  | y :: l' => if 0 <? cmp x y then y :: insert_sorted x l' else x :: l
  end.

Definition sort (l : list A) : list A := fold_right insert_sorted [] l.
End Sort.

(** A computation that returns or throws (a settled promise). *)
Inductive Exc (E A : Type) : Type :=
| Ok (a : A)
| Throw (e : E).
Arguments Ok {E A} a.
Arguments Throw {E A} e.

Definition bindE {E A B} (m : Exc E A) (k : A -> Exc E B) : Exc E B :=
  match m with
  | Ok a => k a
  | Throw e => Throw e
  end.

(** [try { body } catch (error) { handler }]. *)
Definition try_catch {E A} (body : Exc E A) (handler : E -> Exc E A) : Exc E A :=
  match body with
  | Ok a => Ok a
  | Throw e => handler e
  end.

End JS.

(* ===================================================================== *)
(** ** Records returned by the two catalogs, and the merged list *)
(* ===================================================================== *)

(** Provenance tag: the [source] field, ["Spigot"] or ["Modrinth"]. *)
Inductive Source : Type := Spigot | Modrinth.

Definition Source_eqb (a b : Source) : bool :=
  match a, b with
  | Spigot, Spigot | Modrinth, Modrinth => true
  | _, _ => false
  end.

(** A raw search result as an adapter returns it.  Spigot resources carry
    [name]; Modrinth hits carry [title]; the code reads either field from an
    untyped object, so both are optional here. *)
Record Resource : Type := mkResource {
  ident : string;
  name : option string;
  title : option string;
  author : option string;
  description : option string
}.

(** A merged result: [{ ...result, source }]. *)
Record Plugin : Type := mkPlugin {
  result : Resource;
  source : Source
}.

(** [result.source === "Modrinth" ? result.title : result.name]. *)
Definition pluginName (p : Plugin) : option string :=
  match source p with
  | Modrinth => title (result p)
  | Spigot => name (result p)
  end.

(** The merged list of both commands:
    [[...spigotResults.map(r => ({...r, source: "Spigot"})),
      ...modrinthResults.map(r => ({...r, source: "Modrinth"}))]]. *)
Definition combinedResults (spigotResults modrinthResults : list Resource) : list Plugin :=
  List.map (fun r => mkPlugin r Spigot) spigotResults ++
  List.map (fun r => mkPlugin r Modrinth) modrinthResults.

(** [name && test(name)], for the display name of a merged result: a
    missing or empty name never matches. *)
Definition name_and (p : Plugin) (test : string -> bool) : bool :=
  match pluginName p with
  | Some (String c s) => test (String c s)
  | _ => false
  end.

(* ===================================================================== *)
(** ** helpers/search: [fuzzySearch] *)
(* ===================================================================== *)

Module Search.
Import JS.

(** One entry of [fuse.search(query)] with [includeScore: true]. *)
Record FuseResult : Type := mkFuseResult {
  item : Plugin;
  score : option float
}.

Record FuzzySearchResult : Type := mkFuzzySearchResult {
  results : list Plugin;
  bestMatch : option Plugin;
  hasGoodMatch : bool;
  allResults : list Plugin
}.

Record FuzzySearchOptions : Type := mkFuzzySearchOptions {
  threshold : option float;
  includeAllOnNoMatch : option bool
}.

(** The binary64 number written [0.2] in the source. *)
Definition zero_point_two : float := 0x1.999999999999ap-3%float.

(** [options.threshold || 0.2]: [undefined], [0] and [NaN] are falsy. *)
Definition threshold_or_default (t : option float) : float :=
  match t with
  | Some x => if (PrimFloat.is_zero x || PrimFloat.is_nan x)%bool then zero_point_two else x
  | None => zero_point_two
  end.

(** [options.includeAllOnNoMatch !== false]. *)
Definition includeAll_or_default (b : option bool) : bool :=
  match b with
  | Some false => false
  | _ => true
  end.

(** [result.score !== undefined && result.score < threshold]. *)
Definition below (thr : float) (r : FuseResult) : bool :=
  match score r with
  | Some x => PrimFloat.ltb x thr
  | None => false
  end.

(** The comparator of the final sort: Spigot first, then Modrinth. *)
Definition bySource (a b : Plugin) : Z :=
  if (Source_eqb (source a) Spigot && Source_eqb (source b) Modrinth)%bool then -1
  else if (Source_eqb (source a) Modrinth && Source_eqb (source b) Spigot)%bool then 1
  else 0.

(** The test of [items.find] and of the [exactMatches] filter. *)
Definition isExactMatch {lowerCase : LowerCase} (query : string) (p : Plugin) : bool :=
  name_and p (fun n => String.eqb (toLowerCase n) (toLowerCase query)).

Section WithFuse.
Context {lowerCase : LowerCase}.
(** [new Fuse(items, fuseOptions).search(query)], with the fixed
    [fuseOptions] of the source (keys name/title/author/description,
    Fuse's own threshold 0.3, sorted by score). *)
Variable fuse_search : list Plugin -> string -> list FuseResult.

(** [fuseResults.filter(...).map(r => r.item)]. *)
Definition filteredResults (thr : float) (query : string) (items : list Plugin) : list Plugin :=
  List.map item (List.filter (below thr) (fuse_search items query)).

(** [[...filteredResults].sort(bySource)]: the fuzzy-kept set. *)
Definition sortedResults (thr : float) (query : string) (items : list Plugin) : list Plugin :=
  sort bySource (filteredResults thr query items).

Definition fuzzySearch (query : string) (items : list Plugin)
    (options : FuzzySearchOptions) : FuzzySearchResult :=
  let thr := threshold_or_default (threshold options) in
  let includeAll := includeAll_or_default (includeAllOnNoMatch options) in
  match List.find (isExactMatch query) items with
  | Some exactMatch =>
      mkFuzzySearchResult [exactMatch] (Some exactMatch) true items
  | None =>
      if (List.length items =? 1)%nat then
        mkFuzzySearchResult items (List.hd_error items) true items
      else
        let fuseResults := fuse_search items query in
        let sorted := sortedResults thr query items in
        let best :=
          match fuseResults with
          | r :: _ => if below thr r then Some (item r) else None
          | [] => None
          end in
        let good := (0 <? List.length sorted)%nat in
        mkFuzzySearchResult
          (if good then sorted else if includeAll then items else [])
          best good items
  end.
End WithFuse.

End Search.

(* ===================================================================== *)
(** ** commands/info: [getPluginByName] and [processSearchResults] *)
(* ===================================================================== *)

Module Info.
Import JS Search.

(** What the command prints or renders, one constructor per call site. *)
Inductive Event : Type :=
| SpinnerFail_NoPlugins
    (* spinner.fail("No plugins found matching your query") *)
| SpinnerSucceed_Found (total : nat)
    (* spinner.succeed(`Found ${total} plugins matching your query`) *)
| Log_ExactAndPartial (exact partial : Z)
    (* `Found ${exact} exact matches and ${partial} partial matches for ...` *)
| Log_ChooseOrUseId
    (* "Please choose one specifically or use --id <id> --source <source> ..." *)
| Log_FoundExcluded (found excluded : Z)
    (* `${found} results found, ${excluded} excluded.` *)
| Log_BestMatch (bestMatchName : option string)
    (* `Found a best match: "${bestMatchName}"` *)
| Log_MultipleMatches
    (* "Multiple matches found. Please choose one specifically or use ..." *)
| Log_NoCloseMatches (total : nat)
    (* `No close matches found. Showing all ${total} results.` *)
| Log_BeMoreSpecific
    (* "Please be more specific or use --id <id> --source <source> ..." *)
| DisplaySearchResults (rows : list Plugin)
    (* displaySearchResults(rows) *)
| DisplayPluginDetails (plugin : Plugin) (src : Source).
    (* displayPluginDetails(plugin, plugin.source) *)

(** One step of the [forEach] that fills [nameMap]:
    [if (name) nameMap.set(lower, (nameMap.get(lower) || 0) + 1)]. *)
Definition nameMap_step {lowerCase : LowerCase}
    (nameMap : gmap string nat) (p : Plugin) : gmap string nat :=
  match pluginName p with
  | Some (String c s) =>
      let lowerName := toLowerCase (String c s) in
      <[lowerName := (default 0%nat (nameMap !! lowerName) + 1)%nat]> nameMap
  | _ => nameMap
  end.

Definition buildNameMap {lowerCase : LowerCase} (allResults : list Plugin)
    : gmap string nat :=
  fold_left nameMap_step allResults ∅.

(** The filter of [containingMatches]. *)
Definition containsQuery {lowerCase : LowerCase} (query : string) (p : Plugin) : bool :=
  name_and p (fun n => includes (toLowerCase n) (toLowerCase query)).

(** [bestMatchName ? (nameMap.get(bestMatchName.toLowerCase()) || 0) > 1 : false]. *)
Definition hasDuplicates {lowerCase : LowerCase}
    (nameMap : gmap string nat) (bestMatchName : option string) : bool :=
  match bestMatchName with
  | Some (String c s) =>
      (1 <? default 0%nat (nameMap !! toLowerCase (String c s)))%nat
  | _ => false
  end.

Section WithFuse.
Context {lowerCase : LowerCase}.
Variable fuse_search : list Plugin -> string -> list FuseResult.

Definition processSearchResults (query : string) (allResults : list Plugin) : list Event :=
  let totalResultsCount := List.length allResults in
  if (totalResultsCount =? 0)%nat then [SpinnerFail_NoPlugins]
  else
    SpinnerSucceed_Found totalResultsCount ::
    (* Check for duplicate names first *)
    let nameMap := buildNameMap allResults in
    (* Check for exact name match *)
    let exactMatches := List.filter (isExactMatch query) allResults in
    if (1 <=? List.length exactMatches)%nat then
      let containingMatches := List.filter (containsQuery query) allResults in
      [ Log_ExactAndPartial (Z.of_nat (List.length exactMatches))
          (Z.of_nat (List.length containingMatches) - Z.of_nat (List.length exactMatches));
        Log_ChooseOrUseId;
        DisplaySearchResults containingMatches ]
    else
      (* If only one result and no duplicates, show its details *)
      match allResults with
      | [only] => [ DisplayPluginDetails only (source only) ]
      | _ =>
        let searchResults :=
          fuzzySearch fuse_search query allResults
            (mkFuzzySearchOptions (Some zero_point_two) None) in
        let filteredResults := results searchResults in
        Log_FoundExcluded (Z.of_nat (List.length filteredResults))
          (Z.of_nat (List.length allResults) - Z.of_nat (List.length filteredResults)) ::
        match filteredResults with
        | bestMatch :: _ =>
            (* filteredResults.length > 0 *)
            let bestMatchName := pluginName bestMatch in
            if ((List.length filteredResults =? 1)%nat
                && negb (hasDuplicates nameMap bestMatchName))%bool then
              [ Log_BestMatch bestMatchName;
                DisplayPluginDetails bestMatch (source bestMatch) ]
            else
              [ Log_MultipleMatches; DisplaySearchResults filteredResults ]
        | [] =>
            (* No good matches found, show all results in table *)
            [ Log_NoCloseMatches (List.length allResults);
              Log_BeMoreSpecific;
              DisplaySearchResults allResults ]
        end
      end.
End WithFuse.

(** *** Collecting the two adapters' results *)

Section WithAdapters.
Context {E : Type}.
Context {lowerCase : LowerCase}.
(** [SpigotAPI(query, limit)] and [ModrinthAPI(query, limit, fetchVersions)],
    as the settled promise of each call: a list, [null], or a rejection. *)
Variable SpigotAPI : string -> Z -> Exc E (option (list Resource)).
Variable ModrinthAPI : string -> Z -> bool -> Exc E (option (list Resource)).
Variable fuse_search : list Plugin -> string -> list FuseResult.

(** One search task:
    [try { const results = await call; if (results) xs = results; } catch (error) {}],
    read as the value [xs] holds afterwards ([current] is its initial value). *)
Definition searchTask (current : list Resource)
    (call : Exc E (option (list Resource))) : Exc E (list Resource) :=
  try_catch
    (bindE call (fun results =>
       match results with
       | Some rs => Ok rs
       | None => Ok current
       end))
    (fun _ => Ok current).

(** Lines 169-221 of [getPluginByName]: run the selected searches, wait for
    all of them, and combine the results with their source. *)
Definition collectResults (query source : string) : Exc E (list Plugin) :=
  bindE (if (String.eqb source "all" || String.eqb source "spigot")%bool
         then searchTask [] (SpigotAPI query 5)
         else Ok [])
    (fun spigotResults =>
  bindE (if (String.eqb source "all" || String.eqb source "modrinth")%bool
         then searchTask [] (ModrinthAPI query 5 false)
         else Ok [])
    (fun modrinthResults =>
  Ok (combinedResults spigotResults modrinthResults))).

Definition getPluginByName (query source : string) : Exc E (list Event) :=
  bindE (collectResults query source)
    (fun allResults => Ok (processSearchResults fuse_search query allResults)).
End WithAdapters.

(** *** The outcome an event trace stands for *)

Inductive Reason : Type := ExactNameCollision | FuzzyMultipleGood | NoGoodMatch.

Inductive Outcome : Type :=
| Empty
| SingleMatch (record : Plugin)
| CandidateSet (records : list Plugin) (reason : Reason).

(** The first thing rendered: one plugin's details, or a table. *)
Fixpoint rendered (trace : list Event) : option (Plugin + list Plugin) :=
  match trace with
  | [] => None
  | DisplayPluginDetails p _ :: _ => Some (inl p)
  | DisplaySearchResults rows :: _ => Some (inr rows)
  | _ :: rest => rendered rest
  end.

(** Whether an event renders something: a table, or one plugin's details. *)
Definition isRendering (e : Event) : bool :=
  match e with
  | DisplaySearchResults _ | DisplayPluginDetails _ _ => true
  | _ => false
  end.

(** The message that says why a table is shown. *)
Fixpoint explained (trace : list Event) : option Reason :=
  match trace with
  | [] => None
  | Log_ExactAndPartial _ _ :: _ => Some ExactNameCollision
  | Log_MultipleMatches :: _ => Some FuzzyMultipleGood
  | Log_NoCloseMatches _ :: _ => Some NoGoodMatch
  | _ :: rest => explained rest
  end.

Definition outcome (trace : list Event) : option Outcome :=
  match trace with
  | SpinnerFail_NoPlugins :: _ => Some Empty
  | _ =>
      match rendered trace with
      | Some (inl p) => Some (SingleMatch p)
      | Some (inr rows) => option_map (CandidateSet rows) (explained trace)
      | None => None
      end
  end.

(** [resolve(query, records)] of the specification: the outcome of
    [processSearchResults]. *)
Definition resolve {lowerCase : LowerCase}
    (fuse_search : list Plugin -> string -> list FuseResult)
    (query : string) (records : list Plugin) : option Outcome :=
  outcome (processSearchResults fuse_search query records).

End Info.

(* ===================================================================== *)
(** ** commands/search: [searchPlugins] *)
(* ===================================================================== *)

Module SearchCommand.
Import JS.

Inductive Event : Type :=
| ConsoleError_Spigot
    (* console.error(`Error searching Spigot: ${error}`) *)
| ConsoleError_Modrinth
    (* console.error(`Error searching Modrinth: ${error}`) *)
| SpinnerFail_NoPlugins
    (* spinner.fail("No plugins found matching your query.") *)
| SpinnerSucceed_Found (total : nat)
    (* spinner.succeed(`Found ${total} plugins matching "${query}"`) *)
| Log_UseInfo
    (* "Use shulkers info <name> or shulkers info --id <id> --source <source> ..." *)
| DisplaySearchResults (rows : list Plugin).

Section WithAdapters.
Context {E : Type}.
Variable SpigotAPI : string -> Z -> Exc E (option (list Resource)).
Variable ModrinthAPI : string -> Z -> bool -> Exc E (option (list Resource)).

(** [call.then(results => { if (results) xs = results }).catch(error => console.error(...))]:
    what is logged, and the value [xs] holds afterwards. *)
Definition thenCatch (onError : Event) (call : Exc E (option (list Resource)))
    : list Event * list Resource :=
  match call with
  | Ok (Some rs) => ([], rs)
  | Ok None => ([], [])
  | Throw _ => ([onError], [])
  end.

Definition searchPlugins (query : string) (limit : Z) (source : string) : list Event :=
  let '(logS, spigotResults) :=
    if (String.eqb source "all" || String.eqb source "spigot")%bool
    then thenCatch ConsoleError_Spigot (SpigotAPI query limit)
    else ([], []) in
  let '(logM, modrinthResults) :=
    if (String.eqb source "all" || String.eqb source "modrinth")%bool
    then thenCatch ConsoleError_Modrinth (ModrinthAPI query limit false)
    else ([], []) in
  let allResults := combinedResults spigotResults modrinthResults in
  logS ++ logM ++
  if (List.length allResults =? 0)%nat then [SpinnerFail_NoPlugins]
  else [SpinnerSucceed_Found (List.length allResults); Log_UseInfo;
        DisplaySearchResults allResults].
End WithAdapters.

End SearchCommand.

(* ===================================================================== *)
(** ** handlers/Sources: [withCache] and [ensureValidLimit] *)
(* ===================================================================== *)

Module Sources.
Import JS.

(** [const CACHE_TTL = 5 * 60 * 1000], in milliseconds. *)
Definition CACHE_TTL : Z := 5 * 60 * 1000.

Section WithCache.
(** [V]: what is cached ([data: any]); [E]: what a fetch may throw;
    [W]: everything else a fetch can read or change (the network). *)
Context {V E W : Type}.

Record CacheEntry : Type := mkCacheEntry {
  timestamp : Z;
  data : V
}.

(** The module-level [cache] object together with the outside world. *)
Record State : Type := mkState {
  cache : gmap string CacheEntry;
  world : W
}.

(** An awaited call: it returns or throws, and leaves a new state. *)
Definition Task (A : Type) : Type := State -> Exc E A * State.

(** [cache[key] && now - cache[key].timestamp < CACHE_TTL], giving the
    cached [data] when the test holds. *)
Definition cachedData (c : gmap string CacheEntry) (key : string) (now : Z) : option V :=
  match c !! key with
  | Some entry => if now - timestamp entry <? CACHE_TTL then Some (data entry) else None
  | None => None
  end.

(** [withCache(key, fetchData)]; [now] is the value of [Date.now()] read
    on entry. *)
Definition withCache (key : string) (fetchData : Task V) (now : Z) : Task V :=
  fun st =>
    match cachedData (cache st) key now with
    | Some d => (Ok d, st)
    | None =>
        match fetchData st with
        | (Ok d, st') =>
            (Ok d, mkState (<[key := mkCacheEntry now d]> (cache st')) (world st'))
        | (Throw e, st') => (Throw e, st')
        end
    end.
End WithCache.

Arguments CacheEntry : clear implicits.
Arguments State : clear implicits.
Arguments Task : clear implicits.

(** [Math.max(1, Math.min(100, value))]. *)
Definition ensureValidLimit (value : Z) : Z := Z.max 1 (Z.min 100 value).

(** [limit ? limit : 10] of [ModrinthAPI]: a missing limit and [0] are falsy. *)
Definition maxResults (limit : option Z) : Z :=
  match limit with
  | Some l => if l =? 0 then 10 else l
  | None => 10
  end.

(** [validLimit] of [ModrinthAPI]: the [limit] passed to [modrinth.search]
    (and written into the cache key). *)
Definition validLimit (limit : option Z) : Z := ensureValidLimit (maxResults limit).

End Sources.

(* ===================================================================== *)
(** ** Lower-casing for the sample data *)
(* ===================================================================== *)

(** The sample data below is written as string literals, which hold their
    text in UTF-8.  [Utf8.lowerCase] lower-cases such a text as the
    runtime lower-cases the string it encodes: code point by code point,
    by the lower-case mappings of the Unicode Character Database (version
    14.0), a capital sigma at the end of a word becoming a final sigma. *)
Module Utf8.

Definition valueOf (c : ascii) : Z := Z.of_N (N_of_ascii c).

Definition byteOf (z : Z) : ascii := ascii_of_N (Z.to_N z).

(** A byte of the form 10xxxxxx. *)
Definition continuation (c : ascii) : bool :=
  ((128 <=? valueOf c) && (valueOf c <? 192))%bool.

(** The code points of a text; a byte that begins no well-formed sequence
    is kept as it is. *)
Fixpoint decode (s : string) : list (Z + ascii) :=
  match s with
  | EmptyString => []
  | String a s1 =>
      if valueOf a <? 128 then inl (valueOf a) :: decode s1
      else
        match s1 with
        | String b s2 =>
            if (continuation b && (192 <=? valueOf a) && (valueOf a <? 224))%bool then
              inl ((valueOf a - 192) * 64 + (valueOf b - 128)) :: decode s2
            else
              match s2 with
              | String c s3 =>
                  if (continuation b && continuation c
                      && (224 <=? valueOf a) && (valueOf a <? 240))%bool then
                    inl (((valueOf a - 224) * 64 + (valueOf b - 128)) * 64 + (valueOf c - 128))
                      :: decode s3
                  else
                    match s3 with
                    | String d s4 =>
                        if (continuation b && continuation c && continuation d
                            && (240 <=? valueOf a) && (valueOf a <? 248))%bool then
                          inl ((((valueOf a - 240) * 64 + (valueOf b - 128)) * 64
                                + (valueOf c - 128)) * 64 + (valueOf d - 128))
                            :: decode s4
                        else inr a :: decode s1
                    | EmptyString => inr a :: decode s1
                    end
              | EmptyString => inr a :: decode s1
              end
        | EmptyString => inr a :: decode s1
        end
  end.

Definition encode (cp : Z) : string :=
  if cp <? 128 then String (byteOf cp) EmptyString
  else if cp <? 2048 then
    String (byteOf (192 + cp / 64)) (String (byteOf (128 + cp mod 64)) EmptyString)
  else if cp <? 65536 then
    String (byteOf (224 + cp / 4096))
      (String (byteOf (128 + (cp / 64) mod 64))
         (String (byteOf (128 + cp mod 64)) EmptyString))
  else
    String (byteOf (240 + cp / 262144))
      (String (byteOf (128 + (cp / 4096) mod 64))
         (String (byteOf (128 + (cp / 64) mod 64))
            (String (byteOf (128 + cp mod 64)) EmptyString))).

(** The lower-case mappings of the Unicode Character Database, as
    [(first, last, step, offset)]: every [step]-th code point from [first]
    to [last] has its lower case [offset] further on. *)
Definition lowerCaseMappings : list (Z * Z * Z * Z) :=
  [ (0x41, 0x5A, 1, 32); (0xC0, 0xD6, 1, 32); (0xD8, 0xDE, 1, 32);
    (0x100, 0x12E, 2, 1); (0x132, 0x136, 2, 1); (0x139, 0x147, 2, 1);
    (0x14A, 0x176, 2, 1); (0x178, 0x178, 1, (-121)); (0x179, 0x17D, 2, 1);
    (0x181, 0x181, 1, 210); (0x182, 0x184, 2, 1); (0x186, 0x186, 1, 206);
    (0x187, 0x187, 1, 1); (0x189, 0x18A, 1, 205); (0x18B, 0x18B, 1, 1);
    (0x18E, 0x18E, 1, 79); (0x18F, 0x18F, 1, 202); (0x190, 0x190, 1, 203);
    (0x191, 0x191, 1, 1); (0x193, 0x193, 1, 205); (0x194, 0x194, 1, 207);
    (0x196, 0x196, 1, 211); (0x197, 0x197, 1, 209); (0x198, 0x198, 1, 1);
    (0x19C, 0x19C, 1, 211); (0x19D, 0x19D, 1, 213); (0x19F, 0x19F, 1, 214);
    (0x1A0, 0x1A4, 2, 1); (0x1A6, 0x1A6, 1, 218); (0x1A7, 0x1A7, 1, 1);
    (0x1A9, 0x1A9, 1, 218); (0x1AC, 0x1AC, 1, 1); (0x1AE, 0x1AE, 1, 218);
    (0x1AF, 0x1AF, 1, 1); (0x1B1, 0x1B2, 1, 217); (0x1B3, 0x1B5, 2, 1);
    (0x1B7, 0x1B7, 1, 219); (0x1B8, 0x1B8, 1, 1); (0x1BC, 0x1BC, 1, 1);
    (0x1C4, 0x1C4, 1, 2); (0x1C5, 0x1C5, 1, 1); (0x1C7, 0x1C7, 1, 2);
    (0x1C8, 0x1C8, 1, 1); (0x1CA, 0x1CA, 1, 2); (0x1CB, 0x1DB, 2, 1);
    (0x1DE, 0x1EE, 2, 1); (0x1F1, 0x1F1, 1, 2); (0x1F2, 0x1F4, 2, 1);
    (0x1F6, 0x1F6, 1, (-97)); (0x1F7, 0x1F7, 1, (-56)); (0x1F8, 0x21E, 2, 1);
    (0x220, 0x220, 1, (-130)); (0x222, 0x232, 2, 1); (0x23A, 0x23A, 1, 10795);
    (0x23B, 0x23B, 1, 1); (0x23D, 0x23D, 1, (-163)); (0x23E, 0x23E, 1, 10792);
    (0x241, 0x241, 1, 1); (0x243, 0x243, 1, (-195)); (0x244, 0x244, 1, 69);
    (0x245, 0x245, 1, 71); (0x246, 0x24E, 2, 1); (0x370, 0x372, 2, 1);
    (0x376, 0x376, 1, 1); (0x37F, 0x37F, 1, 116); (0x386, 0x386, 1, 38);
    (0x388, 0x38A, 1, 37); (0x38C, 0x38C, 1, 64); (0x38E, 0x38F, 1, 63);
    (0x391, 0x3A1, 1, 32); (0x3A3, 0x3AB, 1, 32); (0x3CF, 0x3CF, 1, 8);
    (0x3D8, 0x3EE, 2, 1); (0x3F4, 0x3F4, 1, (-60)); (0x3F7, 0x3F7, 1, 1);
    (0x3F9, 0x3F9, 1, (-7)); (0x3FA, 0x3FA, 1, 1); (0x3FD, 0x3FF, 1, (-130));
    (0x400, 0x40F, 1, 80); (0x410, 0x42F, 1, 32); (0x460, 0x480, 2, 1);
    (0x48A, 0x4BE, 2, 1); (0x4C0, 0x4C0, 1, 15); (0x4C1, 0x4CD, 2, 1);
    (0x4D0, 0x52E, 2, 1); (0x531, 0x556, 1, 48); (0x10A0, 0x10C5, 1, 7264);
    (0x10C7, 0x10C7, 1, 7264); (0x10CD, 0x10CD, 1, 7264); (0x13A0, 0x13EF, 1, 38864);
    (0x13F0, 0x13F5, 1, 8); (0x1C90, 0x1CBA, 1, (-3008)); (0x1CBD, 0x1CBF, 1, (-3008));
    (0x1E00, 0x1E94, 2, 1); (0x1E9E, 0x1E9E, 1, (-7615)); (0x1EA0, 0x1EFE, 2, 1);
    (0x1F08, 0x1F0F, 1, (-8)); (0x1F18, 0x1F1D, 1, (-8)); (0x1F28, 0x1F2F, 1, (-8));
    (0x1F38, 0x1F3F, 1, (-8)); (0x1F48, 0x1F4D, 1, (-8)); (0x1F59, 0x1F5F, 2, (-8));
    (0x1F68, 0x1F6F, 1, (-8)); (0x1F88, 0x1F8F, 1, (-8)); (0x1F98, 0x1F9F, 1, (-8));
    (0x1FA8, 0x1FAF, 1, (-8)); (0x1FB8, 0x1FB9, 1, (-8)); (0x1FBA, 0x1FBB, 1, (-74));
    (0x1FBC, 0x1FBC, 1, (-9)); (0x1FC8, 0x1FCB, 1, (-86)); (0x1FCC, 0x1FCC, 1, (-9));
    (0x1FD8, 0x1FD9, 1, (-8)); (0x1FDA, 0x1FDB, 1, (-100)); (0x1FE8, 0x1FE9, 1, (-8));
    (0x1FEA, 0x1FEB, 1, (-112)); (0x1FEC, 0x1FEC, 1, (-7));
    (0x1FF8, 0x1FF9, 1, (-128)); (0x1FFA, 0x1FFB, 1, (-126));
    (0x1FFC, 0x1FFC, 1, (-9)); (0x2126, 0x2126, 1, (-7517));
    (0x212A, 0x212A, 1, (-8383)); (0x212B, 0x212B, 1, (-8262));
    (0x2132, 0x2132, 1, 28); (0x2160, 0x216F, 1, 16); (0x2183, 0x2183, 1, 1);
    (0x24B6, 0x24CF, 1, 26); (0x2C00, 0x2C2F, 1, 48); (0x2C60, 0x2C60, 1, 1);
    (0x2C62, 0x2C62, 1, (-10743)); (0x2C63, 0x2C63, 1, (-3814));
    (0x2C64, 0x2C64, 1, (-10727)); (0x2C67, 0x2C6B, 2, 1);
    (0x2C6D, 0x2C6D, 1, (-10780)); (0x2C6E, 0x2C6E, 1, (-10749));
    (0x2C6F, 0x2C6F, 1, (-10783)); (0x2C70, 0x2C70, 1, (-10782));
    (0x2C72, 0x2C72, 1, 1); (0x2C75, 0x2C75, 1, 1); (0x2C7E, 0x2C7F, 1, (-10815));
    (0x2C80, 0x2CE2, 2, 1); (0x2CEB, 0x2CED, 2, 1); (0x2CF2, 0x2CF2, 1, 1);
    (0xA640, 0xA66C, 2, 1); (0xA680, 0xA69A, 2, 1); (0xA722, 0xA72E, 2, 1);
    (0xA732, 0xA76E, 2, 1); (0xA779, 0xA77B, 2, 1); (0xA77D, 0xA77D, 1, (-35332));
    (0xA77E, 0xA786, 2, 1); (0xA78B, 0xA78B, 1, 1); (0xA78D, 0xA78D, 1, (-42280));
    (0xA790, 0xA792, 2, 1); (0xA796, 0xA7A8, 2, 1); (0xA7AA, 0xA7AA, 1, (-42308));
    (0xA7AB, 0xA7AB, 1, (-42319)); (0xA7AC, 0xA7AC, 1, (-42315));
    (0xA7AD, 0xA7AD, 1, (-42305)); (0xA7AE, 0xA7AE, 1, (-42308));
    (0xA7B0, 0xA7B0, 1, (-42258)); (0xA7B1, 0xA7B1, 1, (-42282));
    (0xA7B2, 0xA7B2, 1, (-42261)); (0xA7B3, 0xA7B3, 1, 928); (0xA7B4, 0xA7C2, 2, 1);
    (0xA7C4, 0xA7C4, 1, (-48)); (0xA7C5, 0xA7C5, 1, (-42307));
    (0xA7C6, 0xA7C6, 1, (-35384)); (0xA7C7, 0xA7C9, 2, 1); (0xA7D0, 0xA7D0, 1, 1);
    (0xA7D6, 0xA7D8, 2, 1); (0xA7F5, 0xA7F5, 1, 1); (0xFF21, 0xFF3A, 1, 32);
    (0x10400, 0x10427, 1, 40); (0x104B0, 0x104D3, 1, 40); (0x10570, 0x10594, 2, 39);
    (0x10571, 0x10579, 2, 39); (0x1057D, 0x10589, 2, 39); (0x1058D, 0x10591, 2, 39);
    (0x10595, 0x10595, 1, 39); (0x10C80, 0x10CB2, 1, 64); (0x118A0, 0x118BF, 1, 32);
    (0x16E40, 0x16E5F, 1, 32); (0x1E900, 0x1E921, 1, 34) ].

Definition mapsFrom (cp : Z) (mapping : Z * Z * Z * Z) : bool :=
  let '(first, last, step, _) := mapping in
  ((first <=? cp) && (cp <=? last) && ((cp - first) mod step =? 0))%bool.

(** The lower case of one code point.  U+0130, the capital I with a dot
    above, is the one code point whose lower case is two code points. *)
Definition lowerCodePoint (cp : Z) : list Z :=
  if cp <? 128 then [if ((65 <=? cp) && (cp <=? 90))%bool then cp + 32 else cp]
  else if cp =? 304 then [105; 775]
  else
    match List.find (mapsFrom cp) lowerCaseMappings with
    | Some (_, _, _, offset) => [cp + offset]
    | None => [cp]
    end.

Definition within (ranges : list (Z * Z)) (cp : Z) : bool :=
  existsb (fun '(first, last) => ((first <=? cp) && (cp <=? last))%bool) ranges.

(** The case-ignorable characters of the Latin, Greek and Cyrillic blocks
    and of the general punctuation (apostrophes, accents, modifier
    letters), as [(first, last)]: they do not count when the place of a
    sigma in its word is looked at. *)
Definition caseIgnorable : list (Z * Z) :=
  [ (0x27, 0x27); (0x2E, 0x2E); (0x3A, 0x3A); (0x5E, 0x5E); (0x60, 0x60); (0xA8, 0xA8);
    (0xAD, 0xAD); (0xAF, 0xAF); (0xB4, 0xB4); (0xB7, 0xB8); (0x2B0, 0x36F);
    (0x374, 0x375); (0x37A, 0x37A); (0x384, 0x385); (0x387, 0x387); (0x483, 0x489);
    (0x1D2C, 0x1D6A); (0x1D78, 0x1D78); (0x1D9B, 0x1DFF); (0x1FBD, 0x1FBD);
    (0x1FBF, 0x1FC1); (0x1FCD, 0x1FCF); (0x1FDD, 0x1FDF); (0x1FED, 0x1FEF);
    (0x1FFD, 0x1FFE); (0x200B, 0x200F); (0x2018, 0x2019); (0x2024, 0x2024);
    (0x2027, 0x2027); (0x202A, 0x202E); (0x2060, 0x2064); (0x2066, 0x206F) ].

(** The cased letters of the same blocks that are not case-ignorable. *)
Definition cased : list (Z * Z) :=
  [ (0x41, 0x5A); (0x61, 0x7A); (0xAA, 0xAA); (0xB5, 0xB5); (0xBA, 0xBA); (0xC0, 0xD6);
    (0xD8, 0xF6); (0xF8, 0x1BA); (0x1BC, 0x1BF); (0x1C4, 0x293); (0x295, 0x2AF);
    (0x370, 0x373); (0x376, 0x377); (0x37B, 0x37D); (0x37F, 0x37F); (0x386, 0x386);
    (0x388, 0x38A); (0x38C, 0x38C); (0x38E, 0x3A1); (0x3A3, 0x3F5); (0x3F7, 0x481);
    (0x48A, 0x52F); (0x1D00, 0x1D2B); (0x1D6B, 0x1D77); (0x1D79, 0x1D9A);
    (0x1E00, 0x1F15); (0x1F18, 0x1F1D); (0x1F20, 0x1F45); (0x1F48, 0x1F4D);
    (0x1F50, 0x1F57); (0x1F59, 0x1F59); (0x1F5B, 0x1F5B); (0x1F5D, 0x1F5D);
    (0x1F5F, 0x1F7D); (0x1F80, 0x1FB4); (0x1FB6, 0x1FBC); (0x1FBE, 0x1FBE);
    (0x1FC2, 0x1FC4); (0x1FC6, 0x1FCC); (0x1FD0, 0x1FD3); (0x1FD6, 0x1FDB);
    (0x1FE0, 0x1FEC); (0x1FF2, 0x1FF4); (0x1FF6, 0x1FFC) ].

(** Whether a cased letter comes next, case-ignorable characters apart. *)
Fixpoint casedFollows (units : list (Z + ascii)) : bool :=
  match units with
  | inl cp :: rest => if within caseIgnorable cp then casedFollows rest else within cased cp
  | _ => false
  end.

(** The units lower-cased from left to right; [inWord] tells whether a
    cased letter came last, case-ignorable characters apart.  A capital
    sigma (U+03A3) with a cased letter before it and none after it becomes
    the final sigma (U+03C2). *)
Fixpoint lowerUnits (inWord : bool) (units : list (Z + ascii)) : string :=
  match units with
  | [] => EmptyString
  | inr b :: rest => String b (lowerUnits false rest)
  | inl cp :: rest =>
      let lowered :=
        if ((cp =? 931) && inWord && negb (casedFollows rest))%bool then [962]
        else lowerCodePoint cp in
      fold_right (fun c text => String.append (encode c) text)
        (lowerUnits (if within caseIgnorable cp then inWord else within cased cp) rest)
        lowered
  end.

Definition lowerCase (s : string) : string := lowerUnits false (decode s).

End Utf8.

(* ===================================================================== *)
(** ** Sample data *)
(* ===================================================================== *)

Module Samples.
Import JS Search Info Sources.

(** The lower-casing the samples are run with. *)
#[export] Instance unicode : LowerCase := Utf8.lowerCase.

Definition spigotResource (i n : string) : Resource :=
  mkResource i (Some n) None None None.

Definition modrinthHit (i t : string) : Resource :=
  mkResource i None (Some t) None None.

Definition worldEdit : Plugin := mkPlugin (spigotResource "13932" "WorldEdit") Spigot.
Definition vaultA : Plugin := mkPlugin (spigotResource "34315" "Vault") Spigot.
Definition vaultB : Plugin := mkPlugin (modrinthHit "vault-m" "Vault") Modrinth.
Definition vaultChat : Plugin := mkPlugin (spigotResource "40011" "VaultChatFormatter") Spigot.
Definition essentialsX : Plugin := mkPlugin (spigotResource "9089" "EssentialsX") Spigot.
Definition worldGuard : Plugin := mkPlugin (modrinthHit "worldguard" "WorldGuard") Modrinth.
Definition foo : Plugin := mkPlugin (spigotResource "1" "Foo") Spigot.
Definition bar : Plugin := mkPlugin (modrinthHit "bar" "Bar") Modrinth.

(** Names whose capital letters lie outside A-Z. *)
Definition elan : Plugin := mkPlugin (spigotResource "501" "Élan") Spigot.
Definition superElan : Plugin := mkPlugin (modrinthHit "super-elan" "SUPER ÉLAN") Modrinth.
Definition elanX : Plugin := mkPlugin (spigotResource "502" "ÉLANX") Spigot.
Definition elanx : Plugin := mkPlugin (modrinthHit "elanx" "élanx") Modrinth.

(** A Modrinth hit that carries no title; its author field is the word
    that is searched for. *)
Definition untitled : Plugin :=
  mkPlugin (mkResource "ess-addon" None None (Some "essential") None) Modrinth.

(** Four records and the scores a Fuse search gave them, best first. *)
Definition chestShop : Plugin := mkPlugin (modrinthHit "chestshop" "ChestShop") Modrinth.
Definition chestSort : Plugin := mkPlugin (spigotResource "101" "ChestSort") Spigot.
Definition chestCleaner : Plugin := mkPlugin (spigotResource "102" "ChestCleaner") Spigot.
Definition angelChest : Plugin := mkPlugin (modrinthHit "angelchest" "AngelChest") Modrinth.

Definition chests : list Plugin := [chestShop; chestSort; chestCleaner; angelChest].

Definition chestScores : list float :=
  [0x1p-5%float; 0x1p-4%float; 0x1p-3%float; 0x1p-1%float].

(** A stand-in for Fuse.js: every record one of whose searched keys
    contains the query (ignoring case) is returned, with a score close to
    0; the others are dropped. *)
Definition keyHas (query : string) (field : option string) : bool :=
  match field with
  | Some s => includes (Utf8.lowerCase s) (Utf8.lowerCase query)
  | None => false
  end.

Definition toyFuse (items : list Plugin) (query : string) : list FuseResult :=
  List.map (fun p => mkFuseResult p (Some 0x1p-10%float))
    (List.filter
       (fun p => (keyHas query (name (result p)) || keyHas query (title (result p))
                  || keyHas query (author (result p))
                  || keyHas query (description (result p)))%bool)
       items).

(** A stand-in that scores every record, from a table of scores. *)
Definition scoredFuse (scores : list float) (items : list Plugin) (query : string)
    : list FuseResult :=
  List.map (fun '(p, x) => mkFuseResult p (Some x)) (List.combine items scores).

(** A fetch that counts its invocations in the world and returns [v]. *)
Definition countingFetch (v : string) : Task string unit nat string :=
  fun st => (Ok v, mkState (cache st) (S (world st))).

(** A fetch that counts its invocation and then throws. *)
Definition failingFetch : Task string unit nat string :=
  fun st => (Throw tt, mkState (cache st) (S (world st))).

Definition emptyState : State string nat := mkState ∅ 0%nat.

(** A cache that holds one entry, written at time 0. *)
Definition oldState : State string nat :=
  mkState {[ "search:vault:5"%string := mkCacheEntry 0 "old"%string ]} 0%nat.

(** Adapter outcomes for one query. *)
Definition threeFromSpigot (query : string) (limit : Z)
    : Exc unit (option (list Resource)) :=
  Ok (Some [spigotResource "1" "Alpha"; spigotResource "2" "Beta";
            spigotResource "3" "Gamma"]).

Definition modrinthThrows (query : string) (limit : Z) (fetchVersions : bool)
    : Exc unit (option (list Resource)) :=
  Throw tt.

Definition spigotNull (query : string) (limit : Z)
    : Exc unit (option (list Resource)) :=
  Ok None.

Definition twoFromModrinth (query : string) (limit : Z) (fetchVersions : bool)
    : Exc unit (option (list Resource)) :=
  Ok (Some [modrinthHit "a" "Alpha"; modrinthHit "b" "Beta"]).

End Samples.

(* ===================================================================== *)
(** ** More built-ins: numbers as text, padding, suffixes *)
(* ===================================================================== *)

Module JSText.
Import JS.

(** [Number.prototype.toString()] of an integer: its decimal digits, with
    a leading minus sign for a negative one. *)
Definition toString (z : Z) : string := NilZero.string_of_int (Z.to_int z).

(** [n.toFixed(2)] of an integer [n]. *)
Definition toFixed2 (z : Z) : string := String.append (toString z) ".00".

Fixpoint repeatChar (c : ascii) (n : nat) : string :=
  match n with
  | O => EmptyString
  | S n' => String c (repeatChar c n')
  end.

(** [s.padStart(targetLength, c)] for a one-character pad string. *)
Definition padStart (targetLength : nat) (c : ascii) (s : string) : string :=
  String.append (repeatChar c (targetLength - String.length s)) s.

(** [s.substring(0, n)]. *)
Definition substring0 (n : nat) (s : string) : string := String.substring 0 n s.

(** [s.endsWith(t)]. *)
Fixpoint endsWith (s t : string) : bool :=
  (String.eqb s t ||
   match s with
   | EmptyString => false
   | String _ s' => endsWith s' t
   end)%bool.

Definition isDigit (c : ascii) : bool :=
  let n := nat_of_ascii c in ((48 <=? n)%nat && (n <=? 57)%nat)%bool.

Fixpoint allDigits (s : string) : bool :=
  match s with
  | EmptyString => true
  | String c s' => (isDigit c && allDigits s')%bool
  end.

(** [/^\d+$/.test(s)]: one digit or more and nothing else. *)
Definition digitsOnly (s : string) : bool :=
  match s with
  | EmptyString => false
  | String _ _ => allDigits s
  end.

(** [v || fallback] for a value that is a string or [undefined]. *)
Definition orElse (v : option string) (fallback : string) : string :=
  match v with
  | Some (String c s) => String c s
  | _ => fallback
  end.

(** [a || b] where both are strings or [undefined]. *)
Definition orValue (a b : option string) : option string :=
  if truthy a then a else b.

End JSText.

(* ===================================================================== *)
(** ** handlers/Views/timer *)
(* ===================================================================== *)

Module Timer.
Import JSText.

(** [Math.floor(nanoseconds / 1000000)].  For the integers that
    [process.hrtime] returns the binary64 quotient has the same floor as
    the exact one. *)
Definition floorMilliseconds (nanoseconds : Z) : Z := nanoseconds / 1000000.

(** [Math.round(nanoseconds / 1000000)]: to the nearest integer, a half
    going up. *)
Definition roundMilliseconds (nanoseconds : Z) : Z := (nanoseconds + 500000) / 1000000.

(** [formatHrTime(hrtime)], with [hrtime = [seconds, nanoseconds]]. *)
Definition formatHrTime (hrtime : Z * Z) : string :=
  let seconds := fst hrtime in
  let nanoseconds := snd hrtime in
  if 60 <? seconds then
    let minutes := seconds / 60 in
    let remainingSeconds := Z.rem seconds 60 in
    String.append (toString minutes)
      (String.append "m " (String.append (toFixed2 remainingSeconds) "s"))
  else if 0 <? seconds then
    String.append (toString seconds)
      (String.append "."
         (String.append (padStart 3 "0" (toString (floorMilliseconds nanoseconds))) "s"))
  else
    String.append (toString (roundMilliseconds nanoseconds)) "ms".

(** [displayProcessTime(hrtime)]: the text logged after "Done in", which
    is also the value returned. *)
Definition displayProcessTime (hrtime : Z * Z) : list string * string :=
  let seconds := fst hrtime in
  let nanoseconds := snd hrtime in
  let timeDisplay :=
    if 60 <? seconds then
      let minutes := seconds / 60 in
      let remainingSeconds := Z.rem seconds 60 in
      String.append (toString minutes)
        (String.append "m " (String.append (toFixed2 remainingSeconds) "s"))
    else if 0 <? seconds then
      String.append (toString seconds)
        (String.append "."
           (String.append (padStart 3 "0" (toString (floorMilliseconds nanoseconds))) "s"))
    else
      String.append (toString (roundMilliseconds nanoseconds)) "ms" in
  ([timeDisplay], timeDisplay).

(** The timer object of [createTimer()], at a moment when
    [process.hrtime(startTime)] reads [elapsed]: what [elapsed()] returns,
    and what [end(showLog)] logs and returns. *)
Definition timer_elapsed (elapsed : Z * Z) : string := formatHrTime elapsed.

Definition timer_end (elapsed : Z * Z) (showLog : bool) : list string * (Z * Z) :=
  if showLog then (fst (displayProcessTime elapsed), elapsed) else ([], elapsed).

End Timer.

(* ===================================================================== *)
(** ** handlers/Views/table, and the author line of [displayPluginDetails] *)
(* ===================================================================== *)

Module Table.
Import JS JSText.

(** The [author] object of a Spigot resource. *)
Record Author : Type := mkAuthor {
  author_name : option string;
  author_id : option Z
}.

(** [author] is a string on Modrinth and an object on Spigot. *)
Inductive AuthorValue : Type :=
| AuthorText (s : string)
| AuthorObject (a : Author).

(** [id] is a string on Modrinth and a number on Spigot. *)
Inductive IdValue : Type :=
| IdText (s : string)
| IdNumber (n : Z).

(** The [version] reference of a Spigot resource. *)
Record VersionRef : Type := mkVersionRef {
  version_id : option Z
}.

(** A search result as the views read it: every field either source may
    carry, each possibly missing. *)
Record Result : Type := mkResult {
  source : option string;
  name : option string;
  title : option string;
  author : option AuthorValue;
  id : option IdValue;
  project_id : option string;
  version_raw : option string;
  latest_version : option string;
  version : option VersionRef;
  downloads : option Z
}.

(** What a table cell holds. *)
Inductive Cell : Type :=
| Text (s : string)
| Number (n : Z)
| Object (a : Author).

Record Row : Type := mkRow {
  Name : Cell;
  AuthorCell : Cell;
  ID : Cell;
  Version : Cell;
  Downloads : Cell;
  Source : Cell
}.

(** Truthiness of a number that may be missing: [0] is falsy. *)
Definition truthyNumber (n : option Z) : bool :=
  match n with
  | Some z => negb (z =? 0)
  | None => false
  end.

(** Truthiness of an [id]: a missing id, the empty string and [0] are
    falsy. *)
Definition truthyId (v : option IdValue) : bool :=
  match v with
  | Some (IdText s) => truthy (Some s)
  | Some (IdNumber n) => negb (n =? 0)
  | None => false
  end.

(** Truthiness of an [author]: an object is truthy, the empty string is
    not. *)
Definition truthyAuthor (v : option AuthorValue) : bool :=
  match v with
  | Some (AuthorText s) => truthy (Some s)
  | Some (AuthorObject _) => true
  | None => false
  end.

(** Truthiness of [result.version && result.version.id]. *)
Definition truthyVersionId (v : option VersionRef) : bool :=
  match v with
  | Some ref => truthyNumber (version_id ref)
  | None => false
  end.

(** [truncateName(name, maxLength)]. *)
Definition truncateName (name : option string) (maxLength : nat) : string :=
  match name with
  | Some (String c s) =>
      let name := String c s in
      if (maxLength <? String.length name)%nat
      then String.append (substring0 maxLength name) "..."
      else name
  | _ => "Unknown"
  end.

(** [formatAuthor(author)]: a string has no [name] and no [id]. *)
Definition formatAuthor (author : option AuthorValue) : string :=
  match author with
  | None | Some (AuthorText _) => "Unknown"
  | Some (AuthorObject a) =>
      match author_name a with
      | Some (String c s) => String c s
      | _ =>
          match author_id a with
          | Some n => if n =? 0 then "Unknown" else String.append "ID: " (toString n)
          | None => "Unknown"
          end
      end
  end.

(** [formatVersion(result, versionRaw)]. *)
Definition formatVersion (result : Result) (versionRaw : option string) : string :=
  match versionRaw with
  | Some (String c s) => String c s
  | _ =>
      match version result with
      | Some v =>
          match version_id v with
          | Some n => if n =? 0 then "Unknown" else toString n
          | None => "Unknown"
          end
      | None => "Unknown"
      end
  end.

Section WithNumberFormat.
(** [(a / b).toFixed(1)], the one-decimal rendering of a binary64
    quotient. *)
Variable toFixed1 : Z -> Z -> string.

(** [formatDownloads(downloads)]. *)
Definition formatDownloads (downloads : option Z) : string :=
  match downloads with
  | None => "Unknown"
  | Some d =>
      if 1000000 <=? d then String.append (toFixed1 d 1000000) "M"
      else if 1000 <=? d then String.append (toFixed1 d 1000) "K"
      else toString d
  end.

(** [formatResultRow(result, options)]; [maxNameLength] is
    [options.maxNameLength], possibly missing. *)
Definition formatResultRow (result : Result) (maxNameLength : option nat) : Row :=
  let source := orElse (source result) "Unknown" in
  let maxNameLength :=
    match maxNameLength with
    | Some (S n) => S n
    | _ => 35%nat
    end in
  if String.eqb source "Modrinth" then
    mkRow
      (Text (truncateName (title result) maxNameLength))
      (match author result with
       | Some (AuthorText (String c s)) => Text (String c s)
       | Some (AuthorObject a) => Object a
       | _ => Text "Unknown"
       end)
      (match id result with
       | Some (IdText (String c s)) => Text (String c s)
       | Some (IdNumber n) =>
           if n =? 0 then Text (orElse (project_id result) "Unknown") else Number n
       | _ => Text (orElse (project_id result) "Unknown")
       end)
      (Text (orElse (orValue (version_raw result) (latest_version result)) "Unknown"))
      (Text (formatDownloads (downloads result)))
      (Text source)
  else
    mkRow
      (Text (truncateName (name result) maxNameLength))
      (Text (formatAuthor (author result)))
      (match id result with
       | Some (IdText (String c s)) => Text (String c s)
       | Some (IdNumber n) => if n =? 0 then Text "Unknown" else Number n
       | _ => Text "Unknown"
       end)
      (Text (formatVersion result (version_raw result)))
      (Text (formatDownloads (downloads result)))
      (Text source).

(** [displaySearchResults(results, options)]: the message for an empty
    list, or the rows of the printed table. *)
Definition displaySearchResults (results : list Result) (maxNameLength : option nat)
    : string + list Row :=
  match results with
  | [] => inl "No results to display."%string
  | _ => inr (List.map (fun result => formatResultRow result maxNameLength) results)
  end.
End WithNumberFormat.

(** The author line of [displayPluginDetails] for a Spigot plugin. *)
Definition detailsAuthor (author : option AuthorValue) : string :=
  match author with
  | None | Some (AuthorText EmptyString) => "Unknown"
  | Some (AuthorText _) => "Unknown Author"
  | Some (AuthorObject a) =>
      match author_name a with
      | Some (String c s) => String c s
      | _ =>
          match author_id a with
          | Some n => if n =? 0 then "Unknown Author" else String.append "ID: " (toString n)
          | None => "Unknown Author"
          end
      end
  end.

(** The author check of [SpigotAPI] and [Spigot_IDtoResource]:
    [if (author && typeof author === "object")] fill in a missing name with
    "Unknown" and a missing id with 0. *)
Definition normalizeAuthor (author : option AuthorValue) : option AuthorValue :=
  match author with
  | Some (AuthorObject a) =>
      Some (AuthorObject
              (mkAuthor
                 (if truthy (author_name a) then author_name a else Some "Unknown"%string)
                 (if truthyNumber (author_id a) then author_id a else Some 0)))
  | other => other
  end.

End Table.

(* ===================================================================== *)
(** ** commands/info: validation and dispatch *)
(* ===================================================================== *)

Module InfoCommand.
Import JS JSText Search Info.

(** The options of the [info] command. *)
Record Options : Type := mkOptions {
  option_id : option string;
  option_source : string
}.

(** What the command prints, besides the trace of the name lookup.  The
    version banner and the start of the spinner, which every accepted run
    begins with, are left out. *)
Inductive Output (R : Type) : Type :=
| Error_NameOrIdRequired
    (* "Error: Plugin name or ID is required. Run shulkers info --help ..." *)
| Error_InvalidSource (given : string)
    (* `Error: Invalid source '${options.source}'. Valid sources are: ...` *)
| Error_IdNeedsSource
    (* "Error: When using --id, you must specify --source (spigot or modrinth)." *)
| ByName (e : Info.Event)
| SpinnerSucceed_Retrieved
    (* spinner.succeed("Successfully retrieved plugin information") *)
| PluginDetails (resource : R) (label : Source)
    (* displayPluginDetails(resource, "Spigot" | "Modrinth") *)
| SpinnerFail_NoSuchId (given : string) (label : Source)
    (* spinner.fail(`No plugin found with ID ${id} on ...`) *)
| SpinnerFail_Failed
    (* spinner.fail(`Failed to retrieve plugin information: ...`) *)
| TimerEnd.
    (* timer.end() *)
Arguments Error_NameOrIdRequired {R}.
Arguments Error_InvalidSource {R} given.
Arguments Error_IdNeedsSource {R}.
Arguments ByName {R} e.
Arguments SpinnerSucceed_Retrieved {R}.
Arguments PluginDetails {R} resource label.
Arguments SpinnerFail_NoSuchId {R} given label.
Arguments SpinnerFail_Failed {R}.
Arguments TimerEnd {R}.

(** [const validSources = ["all", "spigot", "modrinth"]]. *)
Definition validSources : list string := ["all"; "spigot"; "modrinth"]%string.

(** [validSources.includes(source)]. *)
Definition isValidSource (source : string) : bool :=
  existsb (String.eqb source) validSources.

(** [validateInputParameters(query, options)]: the error printed, if any,
    and the value returned. *)
Definition validateInputParameters {R : Type} {lowerCase : LowerCase}
    (query : option string) (options : Options) : list (Output R) * bool :=
  if (negb (truthy query) && negb (truthy (option_id options)))%bool then
    ([Error_NameOrIdRequired], false)
  else
    let source := toLowerCase (option_source options) in
    if negb (isValidSource source) then
      ([Error_InvalidSource (option_source options)], false)
    else if (truthy (option_id options) && String.eqb source "all")%bool then
      ([Error_IdNeedsSource], false)
    else ([], true).

Section WithAdapters.
Context {E R : Type}.
Context {lowerCase : LowerCase}.
(** [Spigot_IDtoResource(Number(id))] and [modrinth_IDtoResource(id)], as
    settled promises. *)
Variable Spigot_IDtoResource : string -> Exc E (option R).
Variable modrinth_IDtoResource : string -> Exc E (option R).
Variable SpigotAPI : string -> Z -> Exc E (option (list Resource)).
Variable ModrinthAPI : string -> Z -> bool -> Exc E (option (list Resource)).
Variable fuse_search : list Plugin -> string -> list FuseResult.

(** One branch of [getPluginById], inside its [try]. *)
Definition lookupById (call : Exc E (option R)) (given : string) (label : Source)
    : Exc E (list (Output R)) :=
  bindE call (fun resource =>
    match resource with
    | Some r => Ok [SpinnerSucceed_Retrieved; PluginDetails r label]
    | None => Ok [SpinnerFail_NoSuchId given label]
    end).

(** [getPluginById(id, source, spinner)]. *)
Definition getPluginById (given source : string) : Exc E (list (Output R)) :=
  try_catch
    (if String.eqb source "spigot" then
       lookupById (Spigot_IDtoResource given) given Spigot
     else if String.eqb source "modrinth" then
       lookupById (modrinth_IDtoResource given) given Modrinth
     else Ok [])
    (fun _ => Ok [SpinnerFail_Failed]).

(** [getPluginInfo(query, id, source)]. *)
Definition getPluginInfo (query : string) (given : option string) (source : string)
    : Exc E (list (Output R)) :=
  match given with
  | Some (String c s) => getPluginById (String c s) source
  | _ =>
      bindE (getPluginByName SpigotAPI ModrinthAPI fuse_search query source)
        (fun trace => Ok (List.map ByName trace))
  end.

(** The action of the command: validate, look up, stop the timer.  The
    lookup receives [options.source] as it was typed; the name lookup is
    reached only with a query that is present. *)
Definition infoAction (query : option string) (options : Options)
    : Exc E (list (Output R)) :=
  let '(errors, valid) := validateInputParameters query options in
  if negb valid then Ok errors
  else
    bindE (getPluginInfo (orElse query EmptyString) (option_id options)
             (option_source options))
      (fun printed => Ok (printed ++ [TimerEnd])).
End WithAdapters.

End InfoCommand.

(* ===================================================================== *)
(** ** commands/search: validation *)
(* ===================================================================== *)

Module SearchAction.
Import JS SearchCommand.

Record Options : Type := mkOptions {
  option_limit : string;
  option_source : string
}.

Inductive Output : Type :=
| Error_QueryRequired
    (* "Error: Search query is required. Run shulkers search --help ..." *)
| Error_LimitNotPositive
    (* "Error: Limit must be a positive number." *)
| Error_InvalidSource (given : string)
| Ran (e : SearchCommand.Event)
| TimerEnd.

Section WithAdapters.
Context {E : Type}.
Context {lowerCase : LowerCase}.
(** [Number(text)] for a text that denotes an integer; [None] is [NaN]. *)
Variable Number : string -> option Z.
Variable SpigotAPI : string -> Z -> Exc E (option (list Resource)).
Variable ModrinthAPI : string -> Z -> bool -> Exc E (option (list Resource)).

(** The action of the command.  Unlike [info], it hands the lower-cased
    source on to the search.  The version banner that [searchPlugins]
    prints first is left out of the output. *)
Definition searchAction (query : option string) (options : Options) : list Output :=
  match query with
  | Some (String c s) =>
      let query := String c s in
      match Number (option_limit options) with
      | None => [Error_LimitNotPositive]
      | Some limit =>
          if limit <=? 0 then [Error_LimitNotPositive]
          else
            let source := toLowerCase (option_source options) in
            if negb (InfoCommand.isValidSource source) then
              [Error_InvalidSource (option_source options)]
            else
              List.map Ran (searchPlugins SpigotAPI ModrinthAPI query limit source)
              ++ [TimerEnd]
      end
  | _ => [Error_QueryRequired]
  end.
End WithAdapters.

End SearchAction.

(* ===================================================================== *)
(** ** handlers/Sources: the two search adapters *)
(* ===================================================================== *)

Module Adapters.
Import JS JSText Sources Table.

(** A Spiget version: its [name]. *)
Record SpigetVersion : Type := mkSpigetVersion {
  version_name : option string
}.

(** What the Spigot module keeps in its cache ([data: any]). *)
Inductive SpigotData : Type :=
| SearchData (results : option (list Result))
| VersionData (latest : option SpigetVersion)
| ResourceData (resource : option Result).

(** What the Modrinth module keeps in its cache. *)
Inductive ModrinthData : Type :=
| SearchResults (hits : list Result)
| VersionInfo (version_number : option string)
| ProjectData (project : option Result).

(** [`search:${query}:${limit}`]. *)
Definition searchKey (query : string) (limit : Z) : string :=
  String.append "search:" (String.append query (String.append ":" (toString limit))).

Definition set_version_raw (v : option string) (r : Result) : Result :=
  mkResult (source r) (name r) (title r) (author r) (id r) (project_id r)
    v (latest_version r) (version r) (downloads r).

Definition set_author (a : option AuthorValue) (r : Result) : Result :=
  mkResult (source r) (name r) (title r) a (id r) (project_id r)
    (version_raw r) (latest_version r) (version r) (downloads r).

(** What the version callback of [SpigotAPI] / [Spigot_IDtoResource]
    leaves in [resource], given how [withCache(versionCacheKey, ...)]
    settled: a name of digits only gets ".0" appended; a rejection gives
    "Unknown". *)
Definition applyVersion {E : Type} (resource : Result)
    (settled : Exc E (option SpigetVersion)) : Result :=
  match settled with
  | Ok (Some latest) =>
      match version_name latest with
      | Some (String c s) =>
          let versionName := String c s in
          if digitsOnly versionName
          then set_version_raw (Some (String.append versionName ".0")) resource
          else set_version_raw (Some versionName) resource
      | other => set_version_raw other resource
      end
  | Ok None => resource
  | Throw _ => set_version_raw (Some "Unknown"%string) resource
  end.

(** [if (!hit.version_raw && hit.latest_version) hit.version_raw = hit.latest_version]. *)
Definition defaultVersionRaw (hit : Result) : Result :=
  if (negb (truthy (version_raw hit)) && truthy (latest_version hit))%bool
  then set_version_raw (latest_version hit) hit
  else hit.

Section Spigot.
Context {E W : Type}.
(** [spiget.search("resource", { query, field: "name", size, sort })]. *)
Variable spiget_search : string -> Z -> Task SpigotData E W (option (list Result)).
(** The [Promise.all] over the results that fills in [version_raw]
    (through [withCache] and [applyVersion], one task per resource). *)
Variable fetchVersions : list Result -> Task SpigotData E W (list Result).

(** The function handed to [withCache] by [SpigotAPI]: every error inside
    it is caught and turned into [null]. *)
Definition spigotFetch (query : string) (maxResults : Z)
    : Task SpigotData E W SpigotData :=
  fun st =>
    match spiget_search query maxResults st with
    | (Ok (Some results), st1) =>
        let results :=
          List.map (fun resource => set_author (normalizeAuthor (author resource)) resource)
            results in
        match fetchVersions results st1 with
        | (Ok enriched, st2) => (Ok (SearchData (Some enriched)), st2)
        | (Throw _, st2) => (Ok (SearchData None), st2)
        end
    | (Ok None, st1) => (Ok (SearchData None), st1)
    | (Throw _, st1) => (Ok (SearchData None), st1)
    end.

(** [SpigotAPI(query, limit)]; the value is returned as the cache holds
    it (the cast [as T] checks nothing). *)
Definition SpigotAPI (query : string) (limit : option Z) (now : Z)
    : Task SpigotData E W SpigotData :=
  fun st =>
    let maxResults := maxResults limit in
    let cacheKey := searchKey query maxResults in
    match withCache cacheKey (spigotFetch query maxResults) now st with
    | (Ok cached, st1) => (Ok cached, st1)
    | (Throw _, st1) => (Ok (SearchData None), st1)
    end.
End Spigot.

Section Modrinth.
Context {E W : Type}.
(** [modrinth.search(query, { limit, index, facets })], giving the [hits]
    of the result object. *)
Variable modrinth_search : string -> Z -> Task ModrinthData E W (list Result).
(** The part of [fetchVersionsInBackground(hits, modrinth)] that runs
    before [ModrinthAPI] returns. *)
Variable startVersionFetch : list Result -> State ModrinthData W -> State ModrinthData W.

(** The function handed to [withCache] by [ModrinthAPI]. *)
Definition modrinthFetch (query : string) (validLimit : Z)
    : Task ModrinthData E W ModrinthData :=
  fun st =>
    match modrinth_search query validLimit st with
    | (Ok hits, st1) => (Ok (SearchResults hits), st1)
    | (Throw e, st1) => (Throw e, st1)
    end.

(** [ModrinthAPI(query, limit, fetchVersions)].  The hits are the cached
    objects themselves, so the default written into [version_raw] shows in
    the cache entry too. *)
Definition ModrinthAPI (query : string) (limit : option Z) (fetchVersions : bool) (now : Z)
    : Task ModrinthData E W (list Result) :=
  fun st =>
    let validLimit := validLimit limit in
    let cacheKey := searchKey query validLimit in
    match withCache cacheKey (modrinthFetch query validLimit) now st with
    | (Ok (SearchResults hits), st1) =>
        let hits := List.map defaultVersionRaw hits in
        let st2 :=
          mkState
            (alter (fun entry => mkCacheEntry (timestamp entry) (SearchResults hits))
               cacheKey (cache st1))
            (world st1) in
        (Ok hits, if fetchVersions then startVersionFetch hits st2 else st2)
    | (Ok _, st1) => (Ok [], st1)
    | (Throw _, st1) => (Ok [], st1)
    end.
End Modrinth.

End Adapters.

(* ===================================================================== *)
(** ** helpers/detect: [detectPluginServer] *)
(* ===================================================================== *)

Module Detect.
Import JS JSText.

Inductive PluginServer : Type := paper | spigot | bukkit | purpur | unknown.

Section WithSystem.
Context {E : Type}.
Context {lowerCase : LowerCase}.
(** [fs.readdirSync(process.cwd())]. *)
Variable readdirSync : Exc E (list string).
(** The [select] prompt over the jar files. *)
Variable select : list string -> Exc E string.
(** [execSync] of the java command that prints the version of the jar. *)
Variable execVersion : string -> Exc E string.

(** [findJarFiles()]. *)
Definition findJarFiles : list string :=
  match readdirSync with
  | Ok files => List.filter (fun file => endsWith (toLowerCase file) ".jar") files
  | Throw _ => []
  end.

(** The chain of [result.includes(...)] tests. *)
Definition classify (result : string) : PluginServer :=
  if includes result "Paper" then paper
  else if includes result "Spigot" then spigot
  else if includes result "Bukkit" then bukkit
  else if includes result "Purpur" then purpur
  else unknown.

(** [detectPluginServer()]: the value returned. *)
Definition detectPluginServer : PluginServer :=
  match findJarFiles with
  | [] => unknown
  | jarFiles =>
      let chosen :=
        match jarFiles with
        | [only] => Ok only
        | _ => select jarFiles
        end in
      match bindE chosen execVersion with
      | Ok result => classify result
      | Throw _ => unknown
      end
  end.
End WithSystem.

End Detect.

(* ===================================================================== *)
(** ** More sample data *)
(* ===================================================================== *)

Module MoreSamples.
Import JS JSText Sources Table Adapters Samples.

(** A stand-in for [Number(text)]: the integer a decimal text denotes. *)
Definition numberOf (text : string) : option Z :=
  option_map Z.of_int (NilZero.int_of_string text).

(** Lookups by id: one that finds a resource, one that finds nothing. *)
Definition essentialsById (given : string) : Exc unit (option Resource) :=
  Ok (Some (spigotResource "9089" "EssentialsX")).

Definition nothingById (given : string) : Exc unit (option Resource) :=
  Ok None.

(** A Spigot resource as the table reads it. *)
Definition tableResource : Result :=
  mkResult (Some "Spigot"%string) (Some "EssentialsX"%string) None
    (Some (AuthorObject (mkAuthor None (Some 42)))) (Some (IdNumber 9089)) None
    None None (Some (mkVersionRef (Some 7))) (Some 1234).

(** Two Modrinth hits: one with a [latest_version] only, one with a
    [version_raw] already. *)
Definition hitWithLatest : Result :=
  mkResult None None (Some "Vault"%string) (Some (AuthorText "someone")) None
    (Some "vault-m"%string) None (Some "abc123"%string) None (Some 10).

Definition hitWithRaw : Result :=
  mkResult None None (Some "Bar"%string) None None (Some "bar"%string)
    (Some "1.2.3"%string) (Some "def456"%string) None None.

(** A result with no field at all, and a Modrinth hit that has a
    [project_id] and a [latest_version] but neither [id] nor
    [version_raw]. *)
Definition bareResult : Result :=
  mkResult None None None None None None None None None None.

Definition hitWithoutId : Result :=
  mkResult (Some "Modrinth"%string) None (Some "Vault"%string)
    (Some (AuthorText "someone")) None (Some "vault-m"%string)
    None (Some "abc123"%string) None (Some 10).

(** A stand-in for [(a / b).toFixed(1)]: the quotient to one decimal, a
    half going up. *)
Definition oneDecimal (a b : Z) : string :=
  let tenths := (20 * a + b) / (2 * b) in
  String.append (toString (tenths / 10))
    (String.append "." (toString (tenths mod 10))).

(** A catalog client that is down, and one that answers; both count
    their calls in the world. *)
Definition spigetDown (query : string) (size : Z)
    : Task SpigotData unit nat (option (list Result)) :=
  fun st => (Throw tt, mkState (cache st) (S (world st))).

Definition spigetUp (query : string) (size : Z)
    : Task SpigotData unit nat (option (list Result)) :=
  fun st => (Ok (Some [tableResource]), mkState (cache st) (S (world st))).

Definition noVersions (results : list Result) : Task SpigotData unit nat (list Result) :=
  fun st => (Ok results, st).

Definition modrinthDown (query : string) (limit : Z)
    : Task ModrinthData unit nat (list Result) :=
  fun st => (Throw tt, mkState (cache st) (S (world st))).

Definition modrinthUp (query : string) (limit : Z)
    : Task ModrinthData unit nat (list Result) :=
  fun st => (Ok [hitWithLatest; hitWithRaw], mkState (cache st) (S (world st))).

Definition noBackground (hits : list Result) (st : State ModrinthData nat)
    : State ModrinthData nat := st.

Definition emptySpigot : State SpigotData nat := mkState ∅ 0%nat.
Definition emptyModrinth : State ModrinthData nat := mkState ∅ 0%nat.

(** A directory with one jar file, and a java that prints a Paper
    version. *)
Definition oneJar : Exc unit (list string) :=
  Ok ["notes.txt"; "Server.JAR"; "plugins"]%string.

Definition neverAsked (jars : list string) : Exc unit string := Throw tt.

Definition paperVersion (jar : string) : Exc unit string :=
  Ok "git-Paper-196 (MC: 1.20.1) on Purpur"%string.

End MoreSamples.

(** Split a list known to hold two records or more. *)
Ltac two_or_more records Hlen :=
  destruct records as [| ? [| ? ?]]; simpl in Hlen; try lia.

(* ===================================================================== *)
(** ** Facts about the built-ins *)
(* ===================================================================== *)

Section StringFacts.
Import JS.

Lemma startsWith_spec (s t : string) :
  startsWith s t = true <-> exists post, s = String.append t post.
Proof.
  revert s. induction t as [| b t IH]; intros s; simpl.
  - split; [intros _; now exists s | reflexivity].
  - destruct s as [| a s]; simpl.
    + split; [discriminate | intros [post H]; discriminate].
    + rewrite andb_true_iff, IH. split.
      * intros [Hab [post ->]]. apply Ascii.eqb_eq in Hab. subst b.
        now exists post.
      * intros [post H]. injection H as -> ->. split.
        -- apply Ascii.eqb_refl.
        -- now exists post.
Qed.

(** [includes] is the substring test. *)
Lemma includes_spec (s t : string) :
  includes s t = true <->
  exists pre post, s = String.append pre (String.append t post).
Proof.
  induction s as [| a s IH].
  - cbn [includes]. rewrite orb_false_r, startsWith_spec. split.
    + intros [post H]. now exists EmptyString, post.
    + intros [pre [post H]]. destruct pre; simpl in H.
      * now exists post.
      * discriminate.
  - cbn [includes]. rewrite orb_true_iff, startsWith_spec, IH. split.
    + intros [[post H] | [pre [post H]]].
      * now exists EmptyString, post.
      * exists (String a pre), post. simpl. now rewrite H.
    + intros [pre [post H]]. destruct pre as [| c pre]; simpl in H.
      * left. now exists post.
      * right. injection H as _ H. now exists pre, post.
Qed.

(** [name && test(name)] holds exactly for a present, non-empty name
    that passes the test. *)
Lemma name_and_spec (p : Plugin) (test : string -> bool) :
  name_and p test = true <->
  exists n, pluginName p = Some n /\ n <> EmptyString /\ test n = true.
Proof.
  unfold name_and. destruct (pluginName p) as [[| c n] |].
  - split; [discriminate | intros [n [[= <-] [H _]]]; congruence].
  - split.
    + intros H. exists (String c n). repeat split; [discriminate | exact H].
    + intros [m [[= <-] [_ H]]]. exact H.
  - split; [discriminate | intros [n [H _]]; discriminate].
Qed.
End StringFacts.

(* ===================================================================== *)
(** ** The merged list (C5) *)
(* ===================================================================== *)

Section MergeFacts.

Lemma combinedResults_length (listA listB : list Resource) :
  List.length (combinedResults listA listB) = (List.length listA + List.length listB)%nat.
Proof.
  unfold combinedResults. now rewrite length_app, !length_map.
Qed.

Lemma combinedResults_firstn (listA listB : list Resource) :
  firstn (List.length listA) (combinedResults listA listB)
  = List.map (fun r => mkPlugin r Spigot) listA.
Proof.
  unfold combinedResults.
  rewrite <- (length_map (fun r => mkPlugin r Spigot) listA) at 1.
  rewrite firstn_app, firstn_all, Nat.sub_diag. simpl. apply app_nil_r.
Qed.

Lemma combinedResults_skipn (listA listB : list Resource) :
  skipn (List.length listA) (combinedResults listA listB)
  = List.map (fun r => mkPlugin r Modrinth) listB.
Proof.
  unfold combinedResults.
  rewrite <- (length_map (fun r => mkPlugin r Spigot) listA) at 1.
  rewrite skipn_app, skipn_all, Nat.sub_diag. reflexivity.
Qed.

(** C5.  For [listA] of length m and [listB] of length n the merged list
    has length m+n; entry i < m is [listA]'s record i tagged Spigot, entry
    m+j is [listB]'s record j tagged Modrinth, so both lists keep their
    order and nothing is re-sorted; dropping the tags gives back
    [listA ++ listB], so each record is tagged once and otherwise
    unchanged. *)
Theorem merge_order_and_tags (listA listB : list Resource) :
  let merged := combinedResults listA listB in
  List.length merged = (List.length listA + List.length listB)%nat
  /\ firstn (List.length listA) merged = List.map (fun r => mkPlugin r Spigot) listA
  /\ skipn (List.length listA) merged = List.map (fun r => mkPlugin r Modrinth) listB
  /\ (forall i r, nth_error listA i = Some r ->
        nth_error merged i = Some (mkPlugin r Spigot))
  /\ (forall j r, nth_error listB j = Some r ->
        nth_error merged (List.length listA + j) = Some (mkPlugin r Modrinth))
  /\ List.map result merged = listA ++ listB
  /\ List.map source merged
     = repeat Spigot (List.length listA) ++ repeat Modrinth (List.length listB).
Proof.
  cbv zeta.
  split; [apply combinedResults_length |].
  split; [apply combinedResults_firstn |].
  split; [apply combinedResults_skipn |].
  unfold combinedResults. repeat split.
  - intros i r Hi.
    rewrite nth_error_app1.
    + now rewrite nth_error_map, Hi.
    + rewrite length_map. apply nth_error_Some. congruence.
  - intros j r Hj.
    rewrite nth_error_app2; rewrite length_map; [| lia].
    replace (List.length listA + j - List.length listA)%nat with j by lia.
    now rewrite nth_error_map, Hj.
  - rewrite map_app, !map_map. simpl. now rewrite !map_id.
  - rewrite map_app, !map_map. simpl. f_equal.
    + induction listA; simpl; congruence.
    + induction listB; simpl; congruence.
Qed.

End MergeFacts.

(* ===================================================================== *)
(** ** The fuzzy pass (C9) *)
(* ===================================================================== *)

Section FuzzyFacts.
Import JS Search.

(** The lower-casing of the runtime: any mapping. *)
Context (lowerCase : LowerCase).

Variable fuse_search : list Plugin -> string -> list FuseResult.

Remark bySource_from_spigot (x y : Plugin) :
  source x = Spigot -> (0 <? bySource x y) = false.
Proof.
  intros Hx. unfold bySource. rewrite Hx. simpl.
  now destruct (Source_eqb (source y) Modrinth).
Qed.

Remark bySource_modrinth_spigot (x y : Plugin) :
  source x = Modrinth -> source y = Spigot -> (0 <? bySource x y) = true.
Proof. intros Hx Hy. unfold bySource. now rewrite Hx, Hy. Qed.

Remark bySource_modrinth_modrinth (x y : Plugin) :
  source x = Modrinth -> source y = Modrinth -> (0 <? bySource x y) = false.
Proof. intros Hx Hy. unfold bySource. now rewrite Hx, Hy. Qed.

(** A Spigot record is inserted in front. *)
Lemma insert_spigot (x : Plugin) (l : list Plugin) :
  source x = Spigot -> insert_sorted bySource x l = x :: l.
Proof.
  intros Hx. destruct l as [| y l]; simpl; [reflexivity |].
  now rewrite bySource_from_spigot.
Qed.

(** A Modrinth record passes every Spigot record and stops in front of the
    first Modrinth record. *)
Lemma insert_modrinth (x : Plugin) (front back : list Plugin) :
  source x = Modrinth ->
  Forall (fun p => source p = Spigot) front ->
  Forall (fun p => source p = Modrinth) back ->
  insert_sorted bySource x (front ++ back) = front ++ x :: back.
Proof.
  intros Hx Hfront Hback. induction Hfront as [| y front Hy _ IH]; simpl.
  - destruct Hback as [| y back Hy _]; simpl; [reflexivity |].
    now rewrite bySource_modrinth_modrinth.
  - rewrite bySource_modrinth_spigot by assumption. now rewrite IH.
Qed.

Lemma filter_source_Forall (s : Source) (l : list Plugin) :
  Forall (fun p => source p = s) (List.filter (fun p => Source_eqb (source p) s) l).
Proof.
  apply Forall_forall. intros p Hp. apply filter_In in Hp as [_ Hp].
  destruct (source p), s; simpl in Hp; congruence.
Qed.

(** The stable sort by source is the Spigot records followed by the
    Modrinth records, each group in its original order. *)
Lemma sort_bySource (l : list Plugin) :
  sort bySource l
  = List.filter (fun p => Source_eqb (source p) Spigot) l
    ++ List.filter (fun p => Source_eqb (source p) Modrinth) l.
Proof.
  induction l as [| x l IH]; [reflexivity |].
  unfold sort in *. simpl fold_right. rewrite IH. simpl.
  destruct (source x) eqn:Hx; simpl.
  - now apply insert_spigot.
  - apply insert_modrinth; auto using filter_source_Forall.
Qed.

Lemma sort_bySource_Permutation (l : list Plugin) :
  Permutation l (sort bySource l).
Proof.
  rewrite sort_bySource. induction l as [| x l IH]; simpl; [constructor |].
  destruct (source x); simpl.
  - now constructor.
  - now apply Permutation_cons_app.
Qed.

Lemma In_filteredResults (thr : float) (query : string) (items : list Plugin) (p : Plugin) :
  In p (filteredResults fuse_search thr query items) <->
  exists x, In (mkFuseResult p (Some x)) (fuse_search items query)
            /\ PrimFloat.ltb x thr = true.
Proof.
  unfold filteredResults. rewrite in_map_iff. split.
  - intros [[q [x |]] [Hq Hin]]; apply filter_In in Hin as [Hin Hb];
      simpl in Hq; subst q; unfold below in Hb; simpl in Hb.
    + now exists x.
    + discriminate.
  - intros [x [Hin Hlt]]. exists (mkFuseResult p (Some x)). split; [reflexivity |].
    apply filter_In. split; [assumption | exact Hlt].
Qed.

Lemma In_sortedResults (thr : float) (query : string) (items : list Plugin) (p : Plugin) :
  In p (sortedResults fuse_search thr query items) <->
  exists x, In (mkFuseResult p (Some x)) (fuse_search items query)
            /\ PrimFloat.ltb x thr = true.
Proof.
  rewrite <- In_filteredResults. unfold sortedResults. split; intros Hp.
  - eapply Permutation_in; [symmetry; apply sort_bySource_Permutation | exact Hp].
  - eapply Permutation_in; [apply sort_bySource_Permutation | exact Hp].
Qed.

(** What [fuzzySearch] returns once the exact-match and one-item exits are
    passed: the kept set, or every item when nothing is kept. *)
Lemma fuzzySearch_results (query : string) (items : list Plugin) :
  List.find (isExactMatch query) items = None ->
  List.length items <> 1%nat ->
  results (fuzzySearch fuse_search query items
             (mkFuzzySearchOptions (Some zero_point_two) None))
  = match sortedResults fuse_search zero_point_two query items with
    | [] => items
    | kept => kept
    end.
Proof.
  intros Hfind Hlen. unfold fuzzySearch. rewrite Hfind.
  destruct (Nat.eqb_spec (List.length items) 1) as [E | _]; [contradiction |].
  cbn [threshold includeAllOnNoMatch threshold_or_default includeAll_or_default results].
  replace (PrimFloat.is_zero zero_point_two || PrimFloat.is_nan zero_point_two)%bool
    with false by reflexivity.
  now destruct (sortedResults fuse_search zero_point_two query items).
Qed.

(** C9.  In the fuzzy branch the kept set holds exactly the records Fuse
    scored strictly below 0.2, arranged as all Spigot records followed by
    all Modrinth records, each group in the order Fuse returned it (a
    stable sort by source, not by score); when it is not empty it is what
    [fuzzySearch] returns as [results]. *)
Theorem kept_set_below_threshold_grouped_by_source (query : string) (items : list Plugin) :
  let kept := sortedResults fuse_search zero_point_two query items in
  let passing :=
    List.map item (List.filter (below zero_point_two) (fuse_search items query)) in
  (forall p, In p kept <->
      exists x, In (mkFuseResult p (Some x)) (fuse_search items query)
                /\ PrimFloat.ltb x zero_point_two = true)
  /\ Permutation passing kept
  /\ kept = List.filter (fun p => Source_eqb (source p) Spigot) passing
            ++ List.filter (fun p => Source_eqb (source p) Modrinth) passing
  /\ (List.find (isExactMatch query) items = None ->
      List.length items <> 1%nat ->
      kept <> [] ->
      results (fuzzySearch fuse_search query items
                 (mkFuzzySearchOptions (Some zero_point_two) None)) = kept).
Proof.
  cbv zeta. split; [intros p; apply In_sortedResults |].
  unfold sortedResults. repeat split.
  - apply sort_bySource_Permutation.
  - apply sort_bySource.
  - intros Hfind Hlen Hkept. rewrite fuzzySearch_results by assumption.
    unfold sortedResults.
    destruct (sort bySource (filteredResults fuse_search zero_point_two query items));
      [contradiction | reflexivity].
Qed.

End FuzzyFacts.

(* ===================================================================== *)
(** ** The name-frequency map *)
(* ===================================================================== *)

Section NameMapFacts.
Import JS Search Info.

(** The lower-casing of the runtime: any mapping. *)
Context (lowerCase : LowerCase).

(** How many records of the list have a (non-empty) display name whose
    lower-case form is [k]. *)
Lemma nameMap_step_lookup (m : gmap string nat) (p : Plugin) (k : string) :
  nameMap_step m p !! k
  = if name_and p (fun n => String.eqb (toLowerCase n) k)
    then Some (default 0%nat (m !! k) + 1)%nat
    else m !! k.
Proof.
  unfold nameMap_step, name_and.
  destruct (pluginName p) as [[| c s] |]; try reflexivity.
  destruct (String.eqb_spec (toLowerCase (String c s)) k) as [-> | Hne].
  - now rewrite lookup_insert_eq.
  - now rewrite lookup_insert_ne.
Qed.

Lemma fold_nameMap_lookup (records : list Plugin) (m : gmap string nat) (k : string) :
  let occurrences :=
    List.length
      (List.filter (fun p => name_and p (fun n => String.eqb (toLowerCase n) k)) records) in
  fold_left nameMap_step records m !! k
  = match occurrences with
    | O => m !! k
    | S _ => Some (default 0%nat (m !! k) + occurrences)%nat
    end.
Proof.
  cbv zeta. revert m. induction records as [| p records IH]; intros m; [reflexivity |].
  simpl fold_left. rewrite IH, nameMap_step_lookup. simpl List.filter.
  destruct (name_and p _); simpl.
  - destruct (List.length _); simpl; f_equal; lia.
  - reflexivity.
Qed.

(** The map holds, for every lower-cased name, its number of occurrences
    in the whole list (and no entry for a name that does not occur). *)
Lemma buildNameMap_lookup (records : list Plugin) (k : string) :
  buildNameMap records !! k
  = match List.length
            (List.filter (fun p => name_and p (fun n => String.eqb (toLowerCase n) k))
               records) with
    | O => None
    | S c => Some (S c)
    end.
Proof.
  unfold buildNameMap. rewrite fold_nameMap_lookup, lookup_empty.
  now destruct (List.length _).
Qed.

(** A record of the list that has a display name is counted at least once. *)
Lemma buildNameMap_member (records : list Plugin) (p : Plugin) (n : string) :
  In p records -> pluginName p = Some n -> n <> EmptyString ->
  exists c, buildNameMap records !! toLowerCase n = Some (S c).
Proof.
  intros Hin Hn Hne. rewrite buildNameMap_lookup.
  destruct (List.length _) as [| c] eqn:Hlen; [| now exists c].
  apply length_zero_iff_nil in Hlen.
  assert (In p (List.filter
                  (fun q => name_and q (fun m => String.eqb (toLowerCase m) (toLowerCase n)))
                  records)) as Habs.
  { apply filter_In. split; [assumption |]. apply name_and_spec.
    exists n. repeat split; try assumption. apply String.eqb_refl. }
  rewrite Hlen in Habs. destruct Habs.
Qed.

End NameMapFacts.

(* ===================================================================== *)
(** ** [processSearchResults], branch by branch *)
(* ===================================================================== *)

Section ResolveFacts.
Import JS Search Info.

(** The lower-casing of the runtime: any mapping. *)
Context (lowerCase : LowerCase).

Variable fuse_search : list Plugin -> string -> list FuseResult.

Lemma append_empty_r (s : string) : String.append s EmptyString = s.
Proof.
  induction s as [| c s IH]; [reflexivity |].
  change (String c (String.append s EmptyString) = String c s). congruence.
Qed.

Lemma append_eq_empty (s t : string) :
  String.append s t = EmptyString -> s = EmptyString /\ t = EmptyString.
Proof.
  destruct s as [| c s]; intros H; [now split |].
  change (String c (String.append s t) = EmptyString) in H. discriminate.
Qed.

Lemma isExactMatch_spec (query : string) (p : Plugin) :
  isExactMatch query p = true <->
  exists n, pluginName p = Some n /\ n <> EmptyString
            /\ toLowerCase n = toLowerCase query.
Proof.
  unfold isExactMatch. rewrite name_and_spec.
  split; intros [n [Hn [Hne H]]]; exists n; repeat split; try assumption.
  - now apply String.eqb_eq.
  - now apply String.eqb_eq.
Qed.

Lemma containsQuery_spec (query : string) (p : Plugin) :
  containsQuery query p = true <->
  exists n pre post, pluginName p = Some n /\ n <> EmptyString
    /\ toLowerCase n = String.append pre (String.append (toLowerCase query) post).
Proof.
  unfold containsQuery. rewrite name_and_spec. split.
  - intros [n [Hn [Hne H]]]. apply includes_spec in H as [pre [post H]].
    now exists n, pre, post.
  - intros [n [pre [post [Hn [Hne H]]]]]. exists n. repeat split; try assumption.
    apply includes_spec. now exists pre, post.
Qed.

Lemma exact_is_containing (query : string) (p : Plugin) :
  isExactMatch query p = true -> containsQuery query p = true.
Proof.
  rewrite isExactMatch_spec, containsQuery_spec. intros [n [Hn [Hne H]]].
  exists n, EmptyString, EmptyString. repeat split; try assumption.
  change (toLowerCase n = String.append (toLowerCase query) EmptyString).
  now rewrite append_empty_r.
Qed.

Lemma find_none_iff_filter_nil {A : Type} (f : A -> bool) (l : list A) :
  List.find f l = None <-> List.filter f l = [].
Proof.
  induction l as [| a l IH]; simpl; [tauto |].
  destruct (f a); [split; discriminate | exact IH].
Qed.

Lemma filter_nil_iff_all_false {A : Type} (f : A -> bool) (l : list A) :
  List.filter f l = [] <-> forall a, In a l -> f a = false.
Proof.
  induction l as [| a l IH]; simpl.
  - split; [intros _ a [] | reflexivity].
  - destruct (f a) eqn:Hfa.
    + split; [discriminate |]. intros H. specialize (H a (or_introl eq_refl)). congruence.
    + rewrite IH. split.
      * intros H b [<- | Hb]; auto.
      * intros H b Hb. apply H. now right.
Qed.

(** No record has a display name equal to the query: the [exactMatches]
    filter is empty. *)
Lemma no_exact_match_filter_nil (query : string) (records : list Plugin) :
  (forall p, In p records ->
     ~ exists n, pluginName p = Some n /\ n <> EmptyString
                 /\ toLowerCase n = toLowerCase query) ->
  List.filter (isExactMatch query) records = [].
Proof.
  intros Hno. apply filter_nil_iff_all_false. intros p Hp.
  destruct (isExactMatch query p) eqn:E; [| reflexivity].
  apply isExactMatch_spec in E. now elim (Hno p Hp).
Qed.

(** The exact-match branch: taken whenever some record matches, whatever
    the length of the list and whatever Fuse would say. *)
Lemma process_exact (query : string) (records : list Plugin) :
  List.filter (isExactMatch query) records <> [] ->
  processSearchResults fuse_search query records
  = [ SpinnerSucceed_Found (List.length records);
      Log_ExactAndPartial
        (Z.of_nat (List.length (List.filter (isExactMatch query) records)))
        (Z.of_nat (List.length (List.filter (containsQuery query) records))
         - Z.of_nat (List.length (List.filter (isExactMatch query) records)));
      Log_ChooseOrUseId;
      DisplaySearchResults (List.filter (containsQuery query) records) ].
Proof.
  intros Hex. unfold processSearchResults.
  destruct records as [| r records]; [now elim Hex |].
  cbv zeta. cbn [List.length Nat.eqb].
  destruct (List.filter (isExactMatch query) (r :: records)) as [| e es] eqn:Hf;
    [now elim Hex |].
  reflexivity.
Qed.

(** The single-element fast path: one record that is not an exact match. *)
Lemma process_single (query : string) (r : Plugin) :
  isExactMatch query r = false ->
  processSearchResults fuse_search query [r]
  = [ SpinnerSucceed_Found 1; DisplayPluginDetails r (source r) ].
Proof.
  intros Hr. unfold processSearchResults. cbn. now rewrite Hr.
Qed.

(** The fuzzy branch: no exact match and at least two records. *)
Lemma process_fuzzy (query : string) (records : list Plugin) :
  List.filter (isExactMatch query) records = [] ->
  (2 <= List.length records)%nat ->
  let shown :=
    match sortedResults fuse_search zero_point_two query records with
    | [] => records
    | kept => kept
    end in
  processSearchResults fuse_search query records
  = SpinnerSucceed_Found (List.length records)
    :: Log_FoundExcluded (Z.of_nat (List.length shown))
         (Z.of_nat (List.length records) - Z.of_nat (List.length shown))
    :: match shown with
       | [] => [ Log_NoCloseMatches (List.length records); Log_BeMoreSpecific;
                 DisplaySearchResults records ]
       | bestMatch :: _ =>
           if ((List.length shown =? 1)%nat
               && negb (hasDuplicates (buildNameMap records) (pluginName bestMatch)))%bool
           then [ Log_BestMatch (pluginName bestMatch);
                  DisplayPluginDetails bestMatch (source bestMatch) ]
           else [ Log_MultipleMatches; DisplaySearchResults shown ]
       end.
Proof.
  intros Hex Hlen. cbv zeta. unfold processSearchResults. cbv zeta.
  rewrite Hex.
  rewrite fuzzySearch_results;
    [| now apply find_none_iff_filter_nil
     | intros E; rewrite E in Hlen; lia ].
  two_or_more records Hlen. reflexivity.
Qed.

(** The outcome in the fuzzy branch, by the size of the kept set. *)
Lemma resolve_fuzzy (query : string) (records : list Plugin) :
  List.filter (isExactMatch query) records = [] ->
  (2 <= List.length records)%nat ->
  resolve fuse_search query records
  = Some match sortedResults fuse_search zero_point_two query records with
         | [] => CandidateSet records FuzzyMultipleGood
         | [r] => if hasDuplicates (buildNameMap records) (pluginName r)
                  then CandidateSet [r] FuzzyMultipleGood
                  else SingleMatch r
         | kept => CandidateSet kept FuzzyMultipleGood
         end.
Proof.
  intros Hex Hlen. unfold resolve. rewrite process_fuzzy by assumption. cbv zeta.
  destruct (sortedResults fuse_search zero_point_two query records) as [| k1 [| k2 kept]].
  - two_or_more records Hlen. reflexivity.
  - cbn [List.length Nat.eqb andb].
    now destruct (hasDuplicates (buildNameMap records) (pluginName k1)).
  - reflexivity.
Qed.

(** Every run of [processSearchResults] has one of five shapes. *)
Lemma process_cases (query : string) (records : list Plugin) :
  let trace := processSearchResults fuse_search query records in
  (records = [] /\ trace = [SpinnerFail_NoPlugins])
  \/ (exists e c rows,
        trace = [ SpinnerSucceed_Found (List.length records); Log_ExactAndPartial e c;
                  Log_ChooseOrUseId; DisplaySearchResults rows ])
  \/ (exists r,
        trace = [ SpinnerSucceed_Found (List.length records);
                  DisplayPluginDetails r (source r) ])
  \/ (exists a b r,
        trace = [ SpinnerSucceed_Found (List.length records); Log_FoundExcluded a b;
                  Log_BestMatch (pluginName r); DisplayPluginDetails r (source r) ])
  \/ (exists a b rows,
        trace = [ SpinnerSucceed_Found (List.length records); Log_FoundExcluded a b;
                  Log_MultipleMatches; DisplaySearchResults rows ]).
Proof.
  cbv zeta.
  destruct (List.filter (isExactMatch query) records) as [| e es] eqn:Hex.
  - destruct records as [| r1 [| r2 records]].
    + left. now split.
    + do 2 right. left. exists r1.
      apply process_single.
      apply filter_nil_iff_all_false with (a := r1) in Hex; [assumption | now left].
    + do 3 right.
      rewrite process_fuzzy; [| assumption | simpl; lia]. cbv zeta.
      set (shown := match sortedResults _ _ _ _ with [] => _ | _ => _ end).
      assert (shown <> []) as Hshown.
      { subst shown. destruct (sortedResults _ _ _ _); discriminate. }
      destruct shown as [| b bs]; [contradiction |].
      destruct ((List.length (b :: bs) =? 1)%nat && _)%bool.
      * left. now eexists _, _, b.
      * right. now eexists _, _, _.
  - right. left. rewrite process_exact; [| rewrite Hex; discriminate].
    now eexists _, _, _.
Qed.

(** The outcome read off the trace is defined for every run, and says
    what was rendered: [Empty] for the failed spinner, [SingleMatch r] for
    the details of r, [CandidateSet rows reason] for the table [rows]
    under the message of [reason]. *)
Lemma resolve_reads_trace (query : string) (records : list Plugin) :
  let trace := processSearchResults fuse_search query records in
  match resolve fuse_search query records with
  | Some Empty => records = [] /\ trace = [SpinnerFail_NoPlugins]
  | Some (SingleMatch r) =>
      In (DisplayPluginDetails r (source r)) trace
      /\ forall rows, ~ In (DisplaySearchResults rows) trace
  | Some (CandidateSet rows reason) =>
      In (DisplaySearchResults rows) trace
      /\ (forall r src, ~ In (DisplayPluginDetails r src) trace)
      /\ match reason with
         | ExactNameCollision => exists e c, In (Log_ExactAndPartial e c) trace
         | FuzzyMultipleGood => In Log_MultipleMatches trace
         | NoGoodMatch => exists n, In (Log_NoCloseMatches n) trace
         end
  | None => False
  end.
Proof.
  cbv zeta. unfold resolve.
  destruct (process_cases query records)
    as [[-> ->] | [(e & c & rows & ->) | [(r & ->) | [(a & b & r & ->) | (a & b & rows & ->)]]]];
    cbn [outcome rendered explained option_map].
  - now split.
  - split; [simpl; tauto |]. split.
    + intros r src H. simpl in H. intuition discriminate.
    + exists e, c. simpl. tauto.
  - split; [simpl; tauto |]. intros rows H. simpl in H. intuition discriminate.
  - split; [simpl; tauto |]. intros rows H. simpl in H. intuition discriminate.
  - split; [simpl; tauto |]. split.
    + intros r src H. simpl in H. intuition discriminate.
    + simpl. tauto.
Qed.

End ResolveFacts.

(* ===================================================================== *)
(** ** The disambiguation decision (C1 - C4) *)
(* ===================================================================== *)

Section Disambiguation.
Import JS Search Info.

(** The lower-casing of the runtime: any mapping. *)
Context (lowerCase : LowerCase).

Variable fuse_search : list Plugin -> string -> list FuseResult.

(** C1.  When some record of the merged list has a display name equal to
    the query ignoring case, that is, with the same lower-case form under
    the runtime's [toLowerCase], [resolve] returns
    [CandidateSet S ExactNameCollision], where S holds, in list order,
    exactly the records whose display name contains the query as a
    substring ignoring case (the lower-cased name contains the lower-cased
    query).  This holds for every list length (so also for a one-record
    list, ahead of the single-element fast path, and with a one-element
    S), for every behaviour of Fuse (so ahead of fuzzy scoring), and for
    every lower-casing the runtime may apply.  A display name is the
    [name] / [title] field when it is present and not empty. *)
Theorem exact_match_returns_containing_candidates
    (query : string) (records : list Plugin) (r : Plugin) (n : string) :
  In r records ->
  pluginName r = Some n ->
  n <> EmptyString ->
  toLowerCase n = toLowerCase query ->
  let S := List.filter (containsQuery query) records in
  resolve fuse_search query records = Some (CandidateSet S ExactNameCollision)
  /\ processSearchResults fuse_search query records
     = [ SpinnerSucceed_Found (List.length records);
         Log_ExactAndPartial
           (Z.of_nat (List.length (List.filter (isExactMatch query) records)))
           (Z.of_nat (List.length S)
            - Z.of_nat (List.length (List.filter (isExactMatch query) records)));
         Log_ChooseOrUseId;
         DisplaySearchResults S ]
  /\ (forall p, In p S <->
        In p records /\
        exists m pre post,
          pluginName p = Some m /\ m <> EmptyString /\
          toLowerCase m = String.append pre (String.append (toLowerCase query) post))
  /\ In r S.
Proof.
  intros Hin Hn Hne Heq. cbv zeta.
  assert (isExactMatch query r = true) as Hr.
  { apply isExactMatch_spec. now exists n. }
  assert (List.filter (isExactMatch query) records <> []) as Hex.
  { intros Hnil. apply filter_nil_iff_all_false with (a := r) in Hnil; congruence. }
  split; [| split; [| split]].
  - unfold resolve. now rewrite process_exact.
  - now apply process_exact.
  - intros p. rewrite filter_In, containsQuery_spec. split.
    + intros [Hp [m [pre [post [Hm [Hm' Hsub]]]]]]. split; [assumption |].
      now exists m, pre, post.
    + intros [Hp [m [pre [post [Hm [Hm' Hsub]]]]]]. split; [assumption |].
      now exists m, pre, post.
  - apply filter_In. split; [assumption |]. now apply exact_is_containing.
Qed.

(** C2, as the code has it.  For a merged list of exactly one record: if
    the record's display name equals the query ignoring case (the two have
    the same lower-case form under the runtime's [toLowerCase], whatever
    that mapping is), [resolve] returns the one-element [CandidateSet]
    with [ExactNameCollision]; the single-element fast path to
    [SingleMatch] is taken only when it does not (or the record has no
    display name). *)
Theorem single_record_exact_or_fast_path (query : string) (r : Plugin) :
  ((exists n, pluginName r = Some n /\ n <> EmptyString
              /\ toLowerCase n = toLowerCase query) ->
   resolve fuse_search query [r] = Some (CandidateSet [r] ExactNameCollision))
  /\
  (~ (exists n, pluginName r = Some n /\ n <> EmptyString
                /\ toLowerCase n = toLowerCase query) ->
   resolve fuse_search query [r] = Some (SingleMatch r)).
Proof.
  split.
  - intros Hex. apply isExactMatch_spec in Hex.
    unfold resolve. rewrite process_exact.
    + simpl. now rewrite (exact_is_containing _ _ _ Hex).
    + simpl. now rewrite Hex.
  - intros Hno. unfold resolve. rewrite process_single; [reflexivity |].
    destruct (isExactMatch query r) eqn:Hr; [| reflexivity].
    apply isExactMatch_spec in Hr. contradiction.
Qed.

(** The "No close matches found" report is never produced: for a list of
    two or more records [fuzzySearch] hands back the whole list when it
    keeps nothing, so [filteredResults.length > 0] always holds. *)
Lemma no_close_matches_unreachable (query : string) (records rows : list Plugin) :
  resolve fuse_search query records <> Some (CandidateSet rows NoGoodMatch).
Proof.
  destruct (List.filter (isExactMatch query) records) as [| e es] eqn:Hex.
  - destruct records as [| r1 [| r2 records]].
    + discriminate.
    + apply filter_nil_iff_all_false with (a := r1) in Hex; [| now left].
      unfold resolve. rewrite process_single by assumption. discriminate.
    + rewrite resolve_fuzzy; [| assumption | simpl; lia].
      destruct (sortedResults _ _ _ _) as [| k1 [| k2 kept]]; try discriminate.
      destruct (hasDuplicates _ _); discriminate.
  - unfold resolve. rewrite process_exact; [discriminate |].
    rewrite Hex. discriminate.
Qed.

(** C3, what the code does.  With at least two records, no exact match
    and no record scored below 0.2, the whole unfiltered list is shown, but
    through the "Multiple matches found" report ([FuzzyMultipleGood]), not
    through "No close matches found" ([NoGoodMatch]). *)
Theorem nothing_kept_shows_all_as_multiple (query : string) (records : list Plugin) :
  (2 <= List.length records)%nat ->
  (forall p, In p records ->
     ~ exists n, pluginName p = Some n /\ n <> EmptyString
                 /\ toLowerCase n = toLowerCase query) ->
  (forall res, In res (fuse_search records query) -> below zero_point_two res = false) ->
  processSearchResults fuse_search query records
  = [ SpinnerSucceed_Found (List.length records);
      Log_FoundExcluded (Z.of_nat (List.length records)) 0;
      Log_MultipleMatches;
      DisplaySearchResults records ]
  /\ resolve fuse_search query records = Some (CandidateSet records FuzzyMultipleGood)
  /\ resolve fuse_search query records <> Some (CandidateSet records NoGoodMatch).
Proof.
  intros Hlen Hno Hscores.
  pose proof (no_exact_match_filter_nil _ query records Hno) as Hex.
  assert (sortedResults fuse_search zero_point_two query records = []) as Hkept.
  { unfold sortedResults, filteredResults.
    replace (List.filter (below zero_point_two) (fuse_search records query))
      with (@nil FuseResult); [reflexivity |].
    symmetry. now apply filter_nil_iff_all_false. }
  split; [| split].
  - rewrite process_fuzzy by assumption. cbv zeta. rewrite Hkept.
    two_or_more records Hlen. rewrite Z.sub_diag. reflexivity.
  - rewrite resolve_fuzzy by assumption. now rewrite Hkept.
  - apply no_close_matches_unreachable.
Qed.

Lemma hasDuplicates_false_iff (m : gmap string nat) (v : option string) :
  hasDuplicates m v = false <->
  forall n, v = Some n -> n <> EmptyString ->
            (default 0%nat (m !! toLowerCase n) <= 1)%nat.
Proof.
  unfold hasDuplicates. destruct v as [[| c s] |].
  - split; [intros _ n [= <-] H; congruence | reflexivity].
  - rewrite Nat.ltb_ge. split.
    + now intros H n [= <-] _.
    + intros H. apply H; [reflexivity | discriminate].
  - split; [intros _ n H; discriminate | reflexivity].
Qed.

(** C4, as the code has it.  In the fuzzy branch (no exact match, at least
    two records, Fuse returning records of the list it was given):
    [resolve] returns [SingleMatch r] if and only if the fuzzy-kept set is
    exactly [[r]] and r is not duplicated, that is, r's lower-cased display
    name, when r has one, occurs exactly once in the frequency map of the
    whole merged list (a kept record without display name counts as not
    duplicated).  For an r that has a display name this is the condition
    "occurs exactly once".  Otherwise, with a non-empty kept set, the
    result is [CandidateSet kept FuzzyMultipleGood].  Lower-casing is the
    runtime's [toLowerCase], whatever that mapping is. *)
Theorem fuzzy_single_match_iff_not_duplicated (query : string) (records : list Plugin) :
  (2 <= List.length records)%nat ->
  (forall p, In p records ->
     ~ exists n, pluginName p = Some n /\ n <> EmptyString
                 /\ toLowerCase n = toLowerCase query) ->
  (forall res, In res (fuse_search records query) -> In (item res) records) ->
  let kept := sortedResults fuse_search zero_point_two query records in
  let frequency := buildNameMap records in
  (forall r,
     resolve fuse_search query records = Some (SingleMatch r) <->
     kept = [r] /\
     (forall n, pluginName r = Some n -> n <> EmptyString ->
                frequency !! toLowerCase n = Some 1%nat))
  /\ (forall r n, pluginName r = Some n -> n <> EmptyString ->
        (resolve fuse_search query records = Some (SingleMatch r) <->
         kept = [r] /\ frequency !! toLowerCase n = Some 1%nat))
  /\ (kept <> [] ->
      (forall r, resolve fuse_search query records <> Some (SingleMatch r)) ->
      resolve fuse_search query records = Some (CandidateSet kept FuzzyMultipleGood)).
Proof.
  intros Hlen Hno Hfuse. cbv zeta.
  pose proof (no_exact_match_filter_nil _ query records Hno) as Hex.
  assert (forall r, In r (sortedResults fuse_search zero_point_two query records) ->
                    In r records) as Hsub.
  { intros r Hr.
    apply In_sortedResults in Hr as [x [Hx _]]. apply (Hfuse _ Hx). }
  assert (forall r,
            sortedResults fuse_search zero_point_two query records = [r] ->
            (hasDuplicates (buildNameMap records) (pluginName r) = false <->
             forall n, pluginName r = Some n -> n <> EmptyString ->
                       buildNameMap records !! toLowerCase n = Some 1%nat)) as Hdup.
  { intros r Hk. rewrite hasDuplicates_false_iff.
    assert (In r records) as Hr by (apply Hsub; rewrite Hk; now left).
    split; intros H n Hn Hne; specialize (H n Hn Hne).
    - destruct (buildNameMap_member _ records r n Hr Hn Hne) as [c Hc].
      rewrite Hc in *. simpl in H. f_equal. lia.
    - rewrite H. simpl. lia. }
  assert (forall r,
            resolve fuse_search query records = Some (SingleMatch r) <->
            sortedResults fuse_search zero_point_two query records = [r] /\
            (forall n, pluginName r = Some n -> n <> EmptyString ->
                       buildNameMap records !! toLowerCase n = Some 1%nat)) as Hmain.
  { intros r. rewrite resolve_fuzzy by assumption.
    destruct (sortedResults fuse_search zero_point_two query records)
      as [| k1 [| k2 kept]] eqn:Hk.
    - split; [discriminate | intros [? _]; discriminate].
    - specialize (Hdup k1 eq_refl).
      destruct (hasDuplicates (buildNameMap records) (pluginName k1)) eqn:Hd.
      + split; [discriminate |]. intros [[= ->] H].
        apply Hdup in H. discriminate.
      + split.
        * intros [= ->]. split; [reflexivity |]. now apply Hdup.
        * now intros [[= ->] _].
    - split; [discriminate | intros [? _]; discriminate]. }
  split; [exact Hmain | split].
  - intros r n Hn Hne. rewrite Hmain. split.
    + intros [Hk H]. split; [assumption |]. now apply H.
    + intros [Hk H]. split; [assumption |].
      intros n' Hn' _. congruence.
  - intros Hkept Hnot. rewrite resolve_fuzzy by assumption.
    destruct (sortedResults fuse_search zero_point_two query records)
      as [| k1 [| k2 kept]] eqn:Hk; [contradiction | | reflexivity].
    destruct (hasDuplicates (buildNameMap records) (pluginName k1)) eqn:Hd;
      [reflexivity |].
    exfalso. apply (Hnot k1). rewrite resolve_fuzzy by assumption.
    now rewrite Hk, Hd.
Qed.

End Disambiguation.

(* ===================================================================== *)
(** ** Adapter failures (C8) *)
(* ===================================================================== *)

Section AdapterFacts.
Import JS Search Info.

(** The lower-casing of the runtime: any mapping. *)
Context (lowerCase : LowerCase).

Context {E : Type}.
Variable SpigotAPI : string -> Z -> Exc E (option (list Resource)).
Variable ModrinthAPI : string -> Z -> bool -> Exc E (option (list Resource)).
Variable fuse_search : list Plugin -> string -> list FuseResult.

(** A search task never rejects: it yields the results, or the initial
    value when the call threw or returned [null]. *)
Lemma searchTask_total (current : list Resource) (call : Exc E (option (list Resource))) :
  searchTask current call
  = Ok match call with
       | Ok (Some rs) => rs
       | Ok None | Throw _ => current
       end.
Proof. unfold searchTask. now destruct call as [[rs |] | e]. Qed.

Lemma collectResults_all (query : string) :
  collectResults SpigotAPI ModrinthAPI query "all"
  = Ok (combinedResults
          match SpigotAPI query 5 with Ok (Some rs) => rs | _ => [] end
          match ModrinthAPI query 5 false with Ok (Some rs) => rs | _ => [] end).
Proof.
  unfold collectResults. cbn [String.eqb Ascii.eqb Bool.eqb orb].
  rewrite !searchTask_total. cbn [bindE].
  destruct (SpigotAPI query 5) as [[rs |] | e];
    destruct (ModrinthAPI query 5 false) as [[rs' |] | e']; reflexivity.
Qed.

(** C8.  With both sources selected: if one adapter's search throws or
    returns [null] while the other returns the records [rs], the merged
    list is exactly [rs], each tagged with the source that answered, and
    [getPluginByName] goes on with that list; and whatever the adapters do,
    for whatever source selection, [getPluginByName] returns normally. *)
Theorem failed_adapter_contributes_nothing (query : string) :
  (forall rs,
     SpigotAPI query 5 = Ok (Some rs) ->
     (ModrinthAPI query 5 false = Ok None \/ exists e, ModrinthAPI query 5 false = Throw e) ->
     let merged := List.map (fun r => mkPlugin r Spigot) rs in
     collectResults SpigotAPI ModrinthAPI query "all" = Ok merged
     /\ List.length merged = List.length rs
     /\ Forall (fun p => source p = Spigot) merged
     /\ getPluginByName SpigotAPI ModrinthAPI fuse_search query "all"
        = Ok (processSearchResults fuse_search query merged))
  /\
  (forall rs,
     ModrinthAPI query 5 false = Ok (Some rs) ->
     (SpigotAPI query 5 = Ok None \/ exists e, SpigotAPI query 5 = Throw e) ->
     let merged := List.map (fun r => mkPlugin r Modrinth) rs in
     collectResults SpigotAPI ModrinthAPI query "all" = Ok merged
     /\ List.length merged = List.length rs
     /\ Forall (fun p => source p = Modrinth) merged
     /\ getPluginByName SpigotAPI ModrinthAPI fuse_search query "all"
        = Ok (processSearchResults fuse_search query merged))
  /\
  (forall src, exists merged,
     collectResults SpigotAPI ModrinthAPI query src = Ok merged
     /\ getPluginByName SpigotAPI ModrinthAPI fuse_search query src
        = Ok (processSearchResults fuse_search query merged)).
Proof.
  split; [| split].
  - intros rs HS HM. cbv zeta.
    assert (collectResults SpigotAPI ModrinthAPI query "all"
            = Ok (List.map (fun r => mkPlugin r Spigot) rs)) as Hc.
    { rewrite collectResults_all, HS. unfold combinedResults.
      destruct HM as [-> | [e ->]]; simpl; apply f_equal, app_nil_r. }
    repeat split.
    + exact Hc.
    + apply length_map.
    + apply Forall_forall. intros p Hp. apply in_map_iff in Hp as [r [<- _]]. reflexivity.
    + unfold getPluginByName. now rewrite Hc.
  - intros rs HM HS. cbv zeta.
    assert (collectResults SpigotAPI ModrinthAPI query "all"
            = Ok (List.map (fun r => mkPlugin r Modrinth) rs)) as Hc.
    { rewrite collectResults_all, HM. unfold combinedResults.
      destruct HS as [-> | [e ->]]; reflexivity. }
    repeat split.
    + exact Hc.
    + apply length_map.
    + apply Forall_forall. intros p Hp. apply in_map_iff in Hp as [r [<- _]]. reflexivity.
    + unfold getPluginByName. now rewrite Hc.
  - intros src. unfold getPluginByName, collectResults.
    rewrite !searchTask_total.
    destruct (String.eqb src "all" || String.eqb src "spigot")%bool;
      destruct (String.eqb src "all" || String.eqb src "modrinth")%bool;
      cbn [bindE]; eexists; split; reflexivity.
Qed.

End AdapterFacts.

Section SearchCommandFacts.
Import JS SearchCommand.

Context {E : Type}.
Variable SpigotAPI : string -> Z -> Exc E (option (list Resource)).
Variable ModrinthAPI : string -> Z -> bool -> Exc E (option (list Resource)).

(** [searchPlugins] renders the same merged list: Spigot's results, then
    Modrinth's. *)
Lemma searchPlugins_shows_merged (query : string) (limit : Z) (listA listB : list Resource) :
  SpigotAPI query limit = Ok (Some listA) ->
  ModrinthAPI query limit false = Ok (Some listB) ->
  combinedResults listA listB <> [] ->
  searchPlugins SpigotAPI ModrinthAPI query limit "all"
  = [ SpinnerSucceed_Found (List.length listA + List.length listB);
      Log_UseInfo;
      DisplaySearchResults (combinedResults listA listB) ].
Proof.
  intros HA HB Hne. unfold searchPlugins.
  cbn [String.eqb Ascii.eqb Bool.eqb orb]. rewrite HA, HB. cbn [thenCatch app].
  rewrite combinedResults_length.
  destruct (combinedResults listA listB) as [| p ps] eqn:Hm; [contradiction |].
  apply (f_equal (@List.length Plugin)) in Hm.
  rewrite combinedResults_length in Hm. rewrite Hm. reflexivity.
Qed.

(** A rejected search is logged and contributes nothing. *)
Lemma searchPlugins_modrinth_rejects (query : string) (limit : Z)
    (listA : list Resource) (r : Resource) (e : E) :
  SpigotAPI query limit = Ok (Some (r :: listA)) ->
  ModrinthAPI query limit false = Throw e ->
  searchPlugins SpigotAPI ModrinthAPI query limit "all"
  = [ ConsoleError_Modrinth;
      SpinnerSucceed_Found (S (List.length listA));
      Log_UseInfo;
      DisplaySearchResults (List.map (fun x => mkPlugin x Spigot) (r :: listA)) ].
Proof.
  intros HA HB. unfold searchPlugins.
  cbn [String.eqb Ascii.eqb Bool.eqb orb]. rewrite HA, HB. cbn [thenCatch app].
  unfold combinedResults. rewrite app_nil_r. cbn [List.map List.length Nat.eqb].
  now rewrite length_map.
Qed.

End SearchCommandFacts.

(* ===================================================================== *)
(** ** The read-through cache (C6, C7) and the Modrinth limit (C10) *)
(* ===================================================================== *)

Section CacheFacts.
Import JS Sources.

Context {V E W : Type}.
Implicit Types (st : State V W) (f g : Task V E W V) (key k : string).

Lemma cachedData_fresh (c : gmap string (CacheEntry V)) key (now : Z) (entry : CacheEntry V) :
  c !! key = Some entry -> now - timestamp entry < CACHE_TTL ->
  cachedData c key now = Some (data entry).
Proof.
  intros Hk Hfresh. unfold cachedData. rewrite Hk.
  destruct (Z.ltb_spec (now - timestamp entry) CACHE_TTL); [reflexivity | lia].
Qed.

Lemma cachedData_absent_or_stale (c : gmap string (CacheEntry V)) key (now : Z) :
  (forall entry, c !! key = Some entry -> CACHE_TTL <= now - timestamp entry) ->
  cachedData c key now = None.
Proof.
  intros Hstale. unfold cachedData. destruct (c !! key) as [entry |]; [| reflexivity].
  specialize (Hstale entry eq_refl).
  destruct (Z.ltb_spec (now - timestamp entry) CACHE_TTL); [lia | reflexivity].
Qed.

(** A valid entry is returned as it is: the fetch plays no part and the
    state does not change. *)
Lemma withCache_hit key f (now : Z) st (entry : CacheEntry V) :
  cache st !! key = Some entry -> now - timestamp entry < CACHE_TTL ->
  withCache key f now st = (Ok (data entry), st).
Proof.
  intros Hk Hfresh. unfold withCache. now rewrite (cachedData_fresh _ _ _ _ Hk Hfresh).
Qed.

(** Without a valid entry the fetch runs; its state is kept, and the
    entry is written only when it returned. *)
Lemma withCache_miss key f (now : Z) st :
  (forall entry, cache st !! key = Some entry -> CACHE_TTL <= now - timestamp entry) ->
  withCache key f now st
  = match f st with
    | (Ok d, st') =>
        (Ok d, mkState (<[key := mkCacheEntry now d]> (cache st')) (world st'))
    | (Throw e, st') => (Throw e, st')
    end.
Proof.
  intros Hstale. unfold withCache. now rewrite cachedData_absent_or_stale.
Qed.

(** [withCache] itself never removes an entry: if the fetch evicts
    nothing, neither does the call. *)
Lemma withCache_never_evicts key f (now : Z) st :
  (forall s k, is_Some (cache s !! k) -> is_Some (cache (snd (f s)) !! k)) ->
  forall k, is_Some (cache st !! k) ->
            is_Some (cache (snd (withCache key f now st)) !! k).
Proof.
  intros Hf k Hk. unfold withCache.
  destruct (cachedData (cache st) key now); [exact Hk |].
  specialize (Hf st k Hk). destruct (f st) as [[d | e] st']; simpl in *; [| exact Hf].
  destruct (decide (key = k)) as [-> | Hne].
  - rewrite lookup_insert_eq. eauto.
  - now rewrite lookup_insert_ne.
Qed.

(** C6.  Take a call [withCache key f] at time [t0] (its reading of
    [Date.now()]) that finds no entry for [key], or one that is 5 minutes
    old or older, and whose fetch [f] returns [v].  Then: the call runs
    [f], returns [v] and stores it under [key] with timestamp [t0]; in any
    later state that still holds this entry, a call for [key] less than 5
    minutes after [t0] returns [v] without running its fetch [g] (whatever
    [g] is, the result is [v] and the state is untouched), and a call 5
    minutes or more after [t0] runs [g] again and stores the fresh result
    in place of the old one; the store touches no other key, and no entry
    present after the fetch is removed (expired entries stay until they are
    overwritten). *)
Theorem cache_valid_within_ttl_refreshed_after key f (t0 : Z) st st' (v : V) :
  (forall entry, cache st !! key = Some entry -> CACHE_TTL <= t0 - timestamp entry) ->
  f st = (Ok v, st') ->
  let st1 := mkState (<[key := mkCacheEntry t0 v]> (cache st')) (world st') in
  CACHE_TTL = 300000
  /\ withCache key f t0 st = (Ok v, st1)
  /\ cache st1 !! key = Some (mkCacheEntry t0 v)
  /\ (forall g (t1 : Z) st2,
        cache st2 !! key = Some (mkCacheEntry t0 v) ->
        t1 - t0 < CACHE_TTL ->
        withCache key g t1 st2 = (Ok v, st2))
  /\ (forall g (t1 : Z) st2 (v' : V) st3,
        cache st2 !! key = Some (mkCacheEntry t0 v) ->
        CACHE_TTL <= t1 - t0 ->
        g st2 = (Ok v', st3) ->
        withCache key g t1 st2
        = (Ok v', mkState (<[key := mkCacheEntry t1 v']> (cache st3)) (world st3)))
  /\ (forall k, k <> key -> cache st1 !! k = cache st' !! k)
  /\ (forall k, is_Some (cache st' !! k) -> is_Some (cache st1 !! k)).
Proof.
  intros Hstale Hf. cbv zeta. split; [reflexivity |].
  split; [| split; [| split; [| split; [| split]]]].
  - rewrite withCache_miss by assumption. now rewrite Hf.
  - cbn [cache]. apply lookup_insert_eq.
  - intros g t1 st2 Hentry Hlt.
    apply (withCache_hit key g t1 st2 (mkCacheEntry t0 v)); assumption.
  - intros g t1 st2 v' st3 Hentry Hge Hg. rewrite withCache_miss.
    + now rewrite Hg.
    + intros entry. rewrite Hentry. intros [= <-]. exact Hge.
  - intros k Hne. cbn [cache]. now rewrite lookup_insert_ne.
  - intros k Hk. cbn [cache]. destruct (decide (key = k)) as [-> | Hne].
    + rewrite lookup_insert_eq. eauto.
    + now rewrite lookup_insert_ne.
Qed.

(** C7.  When the fetch runs (no valid entry for [key]) and throws, the
    call throws the same error and leaves the state exactly as the fetch
    left it: nothing is written, so if the fetch did not touch the entry
    for [key], that entry is what it was before the call. *)
Theorem cache_fetch_failure_writes_nothing key f (now : Z) st st' (e : E) :
  (forall entry, cache st !! key = Some entry -> CACHE_TTL <= now - timestamp entry) ->
  f st = (Throw e, st') ->
  withCache key f now st = (Throw e, st')
  /\ cache (snd (withCache key f now st)) = cache st'
  /\ (cache st' = cache st -> cache (snd (withCache key f now st)) = cache st)
  /\ (cache st' !! key = cache st !! key ->
      cache (snd (withCache key f now st)) !! key = cache st !! key).
Proof.
  intros Hstale Hf.
  assert (withCache key f now st = (Throw e, st')) as Hw.
  { rewrite withCache_miss by assumption. now rewrite Hf. }
  rewrite Hw. cbn [snd]. repeat split; auto.
Qed.

End CacheFacts.

Section LimitFacts.
Import Sources.

(** C10, as the code has it.  A limit other than 0 is clamped to
    [max 1 (min 100 n)] before it is sent; a missing limit, and the limit
    0 (which [limit ? limit : 10] treats as missing), become 10; the limit
    sent is always between 1 and 100. *)
Theorem modrinth_limit_clamped_or_defaulted :
  (forall n, n <> 0 -> validLimit (Some n) = Z.max 1 (Z.min 100 n))
  /\ validLimit None = 10
  /\ validLimit (Some 0) = 10
  /\ (forall limit, 1 <= validLimit limit <= 100).
Proof.
  repeat split.
  - intros n Hn. unfold validLimit, maxResults, ensureValidLimit.
    destruct (Z.eqb_spec n 0); [contradiction | reflexivity].
  - unfold validLimit, ensureValidLimit. lia.
  - unfold validLimit, ensureValidLimit. lia.
Qed.

End LimitFacts.

(* ===================================================================== *)
(** ** The properties on the sample data *)
(* ===================================================================== *)

Section Scenarios.
Import JS Search Info Sources Samples.

(** Four records, two of them named "Vault" and one whose name begins
    with it, and the query "VAULT": the three are returned as an
    exact-name collision, in list order.  The records "Élan" and
    "SUPER ÉLAN" with the query "élan": the first is an exact match once
    lower-cased, and both contain the query. *)
Lemma vault_collision_scenario :
  resolve toyFuse "VAULT" [worldEdit; vaultA; vaultChat; vaultB]
  = Some (CandidateSet [vaultA; vaultChat; vaultB] ExactNameCollision)
  /\ resolve toyFuse "élan" [elan; superElan]
     = Some (CandidateSet [elan; superElan] ExactNameCollision).
Proof.
  split.
  - destruct (exact_match_returns_containing_candidates unicode
                toyFuse "VAULT" [worldEdit; vaultA; vaultChat; vaultB] vaultA "Vault")
      as [Hresolve _].
    + right. now left.
    + reflexivity.
    + discriminate.
    + vm_compute. reflexivity.
    + rewrite Hresolve. vm_compute. reflexivity.
  - destruct (exact_match_returns_containing_candidates unicode
                toyFuse "élan" [elan; superElan] elan "Élan")
      as [Hresolve _].
    + now left.
    + reflexivity.
    + discriminate.
    + vm_compute. reflexivity.
    + rewrite Hresolve. vm_compute. reflexivity.
Defined.

(** The one-record list [WorldEdit] with the query "worldedit" gives a
    one-element candidate set, not a single match. *)
Lemma worldedit_exact_is_candidate_set :
  resolve toyFuse "worldedit" [worldEdit]
  = Some (CandidateSet [worldEdit] ExactNameCollision)
  /\ resolve toyFuse "worldedit" [worldEdit] <> Some (SingleMatch worldEdit).
Proof.
  split; [vm_compute; reflexivity | vm_compute; discriminate].
Qed.

(** One record each time: "WorldEdit" asked for as "worldedit" and "Élan"
    asked for as "élan" are exact matches and come back as a one-element
    candidate set; "WorldEdit" asked for as "zzz" takes the fast path. *)
Lemma single_record_scenarios :
  resolve toyFuse "worldedit" [worldEdit]
  = Some (CandidateSet [worldEdit] ExactNameCollision)
  /\ resolve toyFuse "élan" [elan] = Some (CandidateSet [elan] ExactNameCollision)
  /\ resolve toyFuse "zzz" [worldEdit] = Some (SingleMatch worldEdit).
Proof.
  split; [| split].
  - apply (proj1 (single_record_exact_or_fast_path unicode toyFuse "worldedit" worldEdit)).
    exists "WorldEdit"%string.
    split; [reflexivity |]. split; [discriminate | vm_compute; reflexivity].
  - apply (proj1 (single_record_exact_or_fast_path unicode toyFuse "élan" elan)).
    exists "Élan"%string.
    split; [reflexivity |]. split; [discriminate | vm_compute; reflexivity].
  - apply (proj2 (single_record_exact_or_fast_path unicode toyFuse "zzz" worldEdit)).
    intros [n [Hn [_ Heq]]]. injection Hn as <-. vm_compute in Heq. discriminate Heq.
Defined.

(** "Foo" and "Bar" with the query "zzz-unmatched": nothing is kept, and
    the whole list is reported under "Multiple matches found". *)
Lemma unmatched_query_scenario :
  processSearchResults toyFuse "zzz-unmatched" [foo; bar]
  = [ SpinnerSucceed_Found 2; Log_FoundExcluded 2 0; Log_MultipleMatches;
      DisplaySearchResults [foo; bar] ]
  /\ resolve toyFuse "zzz-unmatched" [foo; bar]
     = Some (CandidateSet [foo; bar] FuzzyMultipleGood).
Proof.
  destruct (nothing_kept_shows_all_as_multiple unicode toyFuse "zzz-unmatched" [foo; bar])
    as [Htrace [Hres _]].
  - simpl. lia.
  - intros p [<- | [<- | []]] [n [Hn [_ Heq]]]; injection Hn as <-;
      vm_compute in Heq; discriminate Heq.
  - intros res Hres. vm_compute in Hres. destruct Hres.
  - split; [exact Htrace | exact Hres].
Defined.

(** "EssentialsX" and "WorldGuard" with the query "essential": one record
    is kept, its name occurs once, and it is the single match.  With
    "ÉLANX", "élanx" and "WorldGuard" and a Fuse that keeps the first
    only, the name of the kept record occurs twice once lower-cased, and
    the kept record is shown as a table. *)
Lemma essentials_scenario :
  sortedResults toyFuse zero_point_two "essential" [essentialsX; worldGuard] = [essentialsX]
  /\ resolve toyFuse "essential" [essentialsX; worldGuard] = Some (SingleMatch essentialsX)
  /\ sortedResults (scoredFuse [0x1p-4%float]) zero_point_two "lanx"
       [elanX; elanx; worldGuard] = [elanX]
  /\ buildNameMap [elanX; elanx; worldGuard] !! "élanx"%string = Some 2%nat
  /\ resolve (scoredFuse [0x1p-4%float]) "lanx" [elanX; elanx; worldGuard]
     <> Some (SingleMatch elanX).
Proof.
  split; [vm_compute; reflexivity |].
  split; [| split; [vm_compute; reflexivity | split; [vm_compute; reflexivity |]]].
  - apply (proj1 (fuzzy_single_match_iff_not_duplicated unicode
                    toyFuse "essential" [essentialsX; worldGuard]
                    ltac:(simpl; lia)
                    ltac:(intros p [<- | [<- | []]] [n [Hn [_ Heq]]];
                          injection Hn as <-; vm_compute in Heq; discriminate Heq)
                    ltac:(intros res Hres; vm_compute in Hres;
                          destruct Hres as [<- | []]; left; reflexivity))).
    split; [vm_compute; reflexivity |].
    intros n Hn _. injection Hn as <-. vm_compute. reflexivity.
  - intros Hsingle.
    apply (proj1 (fuzzy_single_match_iff_not_duplicated unicode
                    (scoredFuse [0x1p-4%float]) "lanx" [elanX; elanx; worldGuard]
                    ltac:(simpl; lia)
                    ltac:(intros p [<- | [<- | [<- | []]]] [n [Hn [_ Heq]]];
                          injection Hn as <-; vm_compute in Heq; discriminate Heq)
                    ltac:(intros res Hres; vm_compute in Hres;
                          destruct Hres as [<- | []]; left; reflexivity))) in Hsingle.
    destruct Hsingle as [_ Hcount].
    specialize (Hcount "ÉLANX"%string eq_refl ltac:(discriminate)).
    vm_compute in Hcount. discriminate Hcount.
Defined.

(** A kept record without display name is shown as the single match,
    although no display name of it occurs once in the frequency map. *)
Lemma nameless_kept_record_is_single_match :
  sortedResults toyFuse zero_point_two "essential" [untitled; worldGuard] = [untitled]
  /\ resolve toyFuse "essential" [untitled; worldGuard] = Some (SingleMatch untitled)
  /\ ~ (exists n, pluginName untitled = Some n
                  /\ buildNameMap [untitled; worldGuard] !! toLowerCase n = Some 1%nat)
  /\ resolve toyFuse "essential" [untitled; worldGuard]
     <> Some (CandidateSet [untitled] FuzzyMultipleGood).
Proof.
  split; [vm_compute; reflexivity |].
  split; [vm_compute; reflexivity |].
  split.
  - intros [n [Hn _]]. discriminate Hn.
  - vm_compute. discriminate.
Qed.

End Scenarios.

Section MoreScenarios.
Import JS Search Info Sources Samples.

(** Two Spigot resources and one Modrinth hit, merged. *)
Lemma merge_scenario :
  combinedResults [spigotResource "1" "Foo"; spigotResource "2" "Baz"]
                  [modrinthHit "bar" "Bar"]
  = [ mkPlugin (spigotResource "1" "Foo") Spigot;
      mkPlugin (spigotResource "2" "Baz") Spigot;
      mkPlugin (modrinthHit "bar" "Bar") Modrinth ]
  /\ nth_error (combinedResults [spigotResource "1" "Foo"; spigotResource "2" "Baz"]
                                [modrinthHit "bar" "Bar"]) 2
     = Some (mkPlugin (modrinthHit "bar" "Bar") Modrinth).
Proof.
  split; [reflexivity |].
  pose proof (merge_order_and_tags
                [spigotResource "1" "Foo"; spigotResource "2" "Baz"]
                [modrinthHit "bar" "Bar"]) as (_ & _ & _ & _ & HB & _).
  apply (HB 0%nat (modrinthHit "bar" "Bar")). reflexivity.
Defined.

(** Fuse scored ChestShop (Modrinth), ChestSort and ChestCleaner (Spigot)
    below 0.2 and AngelChest above: the Spigot records come first, each
    group in Fuse's order. *)
Lemma chest_scenario :
  sortedResults (scoredFuse chestScores) zero_point_two "chest" chests
  = [chestSort; chestCleaner; chestShop]
  /\ results (fuzzySearch (scoredFuse chestScores) "chest" chests
                (mkFuzzySearchOptions (Some zero_point_two) None))
     = [chestSort; chestCleaner; chestShop].
Proof.
  pose proof (kept_set_below_threshold_grouped_by_source unicode
                (scoredFuse chestScores) "chest" chests) as (_ & _ & Hgroups & Hres).
  split.
  - rewrite Hgroups. vm_compute. reflexivity.
  - rewrite Hres.
    + rewrite Hgroups. vm_compute. reflexivity.
    + reflexivity.
    + simpl. lia.
    + rewrite Hgroups. vm_compute. discriminate.
Defined.

(** Spigot answers with three records and Modrinth throws; Spigot answers
    [null] and Modrinth with two records. *)
Lemma one_source_down_scenario :
  collectResults threeFromSpigot modrinthThrows "x" "all"
  = Ok [ mkPlugin (spigotResource "1" "Alpha") Spigot;
         mkPlugin (spigotResource "2" "Beta") Spigot;
         mkPlugin (spigotResource "3" "Gamma") Spigot ]
  /\ collectResults spigotNull twoFromModrinth "x" "all"
     = Ok [ mkPlugin (modrinthHit "a" "Alpha") Modrinth;
            mkPlugin (modrinthHit "b" "Beta") Modrinth ].
Proof.
  split.
  - pose proof (failed_adapter_contributes_nothing unicode
                  threeFromSpigot modrinthThrows toyFuse "x") as [H _].
    apply (H _ eq_refl). right. now exists tt.
  - pose proof (failed_adapter_contributes_nothing unicode
                  spigotNull twoFromModrinth toyFuse "x") as (_ & H & _).
    apply (H _ eq_refl). now left.
Defined.

(** One key, an empty cache, a fetch at time 1000: a second call 299999 ms
    later is served from the cache (one fetch so far), a call 300000 ms
    later fetches again (two fetches). *)
Lemma cache_ttl_scenario :
  let st1 := snd (withCache "search:vault:5" (countingFetch "v1") 1000 emptyState) in
  withCache "search:vault:5" (countingFetch "v1") 1000 emptyState = (Ok "v1"%string, st1)
  /\ world st1 = 1%nat
  /\ withCache "search:vault:5" (countingFetch "v2") 300999 st1 = (Ok "v1"%string, st1)
  /\ fst (withCache "search:vault:5" (countingFetch "v2") 301000 st1) = Ok "v2"%string
  /\ world (snd (withCache "search:vault:5" (countingFetch "v2") 301000 st1)) = 2%nat.
Proof.
  cbv zeta.
  pose proof (cache_valid_within_ttl_refreshed_after
                "search:vault:5" (countingFetch "v1") 1000 emptyState
                (mkState ∅ 1%nat) "v1"%string) as H.
  destruct H as (_ & Hfirst & Hstored & Hhit & Hexpired & _).
  - intros entry Hentry. unfold emptyState in Hentry. cbn [cache] in Hentry.
    rewrite lookup_empty in Hentry. discriminate Hentry.
  - reflexivity.
  - cbv zeta in Hfirst, Hstored. cbn [cache world] in Hfirst, Hstored.
    rewrite Hfirst. cbn [snd].
    split; [reflexivity |]. split; [reflexivity |].
    split; [apply Hhit; [exact Hstored | unfold CACHE_TTL; lia] |].
    rewrite (Hexpired (countingFetch "v2") 301000
               (mkState (<["search:vault:5"%string := mkCacheEntry 1000 "v1"%string]> ∅) 1%nat)
               "v2"%string
               (mkState (<["search:vault:5"%string := mkCacheEntry 1000 "v1"%string]> ∅) 2%nat)
               Hstored);
      [split; reflexivity | unfold CACHE_TTL; lia | reflexivity].
Defined.

(** An entry written at time 0, a failing fetch at time 300000: the error
    comes out, the fetch ran once, and the cache still holds the old
    entry. *)
Lemma cache_failure_scenario :
  withCache "search:vault:5" failingFetch 300000 oldState
  = (Throw tt, mkState (cache oldState) 1%nat)
  /\ cache (snd (withCache "search:vault:5" failingFetch 300000 oldState))
     = cache oldState.
Proof.
  pose proof (cache_fetch_failure_writes_nothing
                "search:vault:5" failingFetch 300000 oldState
                (mkState (cache oldState) 1%nat) tt) as H.
  destruct H as (Hthrow & _ & Hsame & _).
  - intros entry Hentry. unfold oldState in Hentry. cbn [cache] in Hentry.
    rewrite lookup_singleton_eq in Hentry. injection Hentry as <-.
    unfold CACHE_TTL. simpl. lia.
  - reflexivity.
  - split; [exact Hthrow | apply Hsame; reflexivity].
Defined.

(** The limit 0 is not clamped to 1: it is replaced by the default 10. *)
Lemma limit_zero_becomes_ten :
  validLimit (Some 0) = 10
  /\ Z.max 1 (Z.min 100 0) = 1
  /\ validLimit (Some 0) <> Z.max 1 (Z.min 100 0).
Proof. repeat split. discriminate. Qed.

Lemma limit_scenarios :
  validLimit (Some 500) = 100 /\ validLimit (Some (-3)) = 1 /\ validLimit (Some 5) = 5.
Proof.
  pose proof modrinth_limit_clamped_or_defaulted as [H _].
  repeat split; rewrite H; (reflexivity || discriminate).
Defined.

End MoreScenarios.

(* ===================================================================== *)
(** ** Text helpers *)
(* ===================================================================== *)

Section TextFacts.
Import JS JSText.

Lemma append_cons (c : ascii) (s t : string) :
  String.append (String c s) t = String c (String.append s t).
Proof. reflexivity. Qed.

Lemma length_append (s t : string) :
  String.length (String.append s t) = (String.length s + String.length t)%nat.
Proof.
  induction s as [| c s IH]; [reflexivity |].
  rewrite append_cons. simpl. now rewrite IH.
Qed.

Lemma append_nonempty_r (s t : string) :
  t <> EmptyString -> String.append s t <> EmptyString.
Proof.
  intros Ht H. apply (f_equal String.length) in H.
  rewrite length_append in H. destruct t; [congruence | simpl in H; lia].
Qed.

Lemma append_nonempty_l (s t : string) :
  s <> EmptyString -> String.append s t <> EmptyString.
Proof.
  destruct s as [| c s]; [congruence |]. intros _. rewrite append_cons. discriminate.
Qed.

Lemma toString_nonempty (z : Z) : toString z <> EmptyString.
Proof.
  unfold toString, NilZero.string_of_int, NilZero.string_of_uint.
  destruct (Z.to_int z) as [d | d]; [destruct d; discriminate | discriminate].
Qed.

Lemma substring0_length (m : nat) (s : string) :
  (m <= String.length s)%nat -> String.length (substring0 m s) = m.
Proof.
  unfold substring0. revert s. induction m as [| m IH]; intros s Hm.
  - now destruct s.
  - destruct s as [| c s]; simpl in *; [lia |]. rewrite IH; [reflexivity | lia].
Qed.

(** [s.substring(0, m)] is the beginning of [s]. *)
Lemma substring0_prefix (m : nat) (s : string) :
  exists rest, s = String.append (substring0 m s) rest.
Proof.
  unfold substring0. revert s. induction m as [| m IH]; intros s.
  - exists s. now destruct s.
  - destruct s as [| c s]; simpl.
    + now exists EmptyString.
    + destruct (IH s) as [rest Hrest]. exists rest.
      rewrite append_cons. now rewrite <- Hrest.
Qed.

Lemma allDigits_append (s t : string) :
  allDigits (String.append s t) = (allDigits s && allDigits t)%bool.
Proof.
  induction s as [| c s IH]; [reflexivity |].
  rewrite append_cons. simpl. rewrite IH. now rewrite andb_assoc.
Qed.

(** A number below 1000, padded to three places, is three digits. *)
Lemma padded_milliseconds (m : Z) :
  0 <= m < 1000 ->
  String.length (padStart 3 "0" (toString m)) = 3%nat
  /\ allDigits (padStart 3 "0" (toString m)) = true.
Proof.
  intros Hm.
  assert (forallb
            (fun n => let s := padStart 3 "0" (toString (Z.of_nat n)) in
                      ((String.length s =? 3)%nat && allDigits s)%bool)
            (seq 0 1000) = true) as Hall by (vm_compute; reflexivity).
  rewrite forallb_forall in Hall.
  specialize (Hall (Z.to_nat m)). rewrite Z2Nat.id in Hall by lia.
  cbv zeta in Hall. apply andb_true_iff in Hall as [Hlen Hdig].
  - split; [now apply Nat.eqb_eq | exact Hdig].
  - apply in_seq. lia.
Qed.

End TextFacts.

(* ===================================================================== *)
(** ** The timer *)
(* ===================================================================== *)

Section TimerFacts.
Import JS JSText Timer.

(** X4.  From one second up to and including sixty, the elapsed time reads
    [<seconds>.<mmm>s]: the seconds, a dot, and exactly three digits, the
    whole milliseconds of the nanosecond part padded with zeros.
    [formatHrTime] and [displayProcessTime] give the same text. *)
Theorem seconds_form_has_three_millisecond_digits (seconds nanoseconds : Z) :
  0 < seconds <= 60 ->
  0 <= nanoseconds < 1000000000 ->
  exists fraction,
    formatHrTime (seconds, nanoseconds)
    = String.append (toString seconds)
        (String.append "." (String.append fraction "s"))
    /\ String.length fraction = 3%nat
    /\ allDigits fraction = true
    /\ fraction = padStart 3 "0" (toString (nanoseconds / 1000000))
    /\ displayProcessTime (seconds, nanoseconds)
       = ([formatHrTime (seconds, nanoseconds)], formatHrTime (seconds, nanoseconds)).
Proof.
  intros Hs Hn.
  exists (padStart 3 "0" (toString (floorMilliseconds nanoseconds))).
  assert (0 <= floorMilliseconds nanoseconds < 1000) as Hm.
  { unfold floorMilliseconds. split.
    - apply Z.div_pos; lia.
    - apply Z.div_lt_upper_bound; lia. }
  destruct (padded_milliseconds _ Hm) as [Hlen Hdig].
  unfold formatHrTime, displayProcessTime. cbn [fst snd].
  destruct (Z.ltb_spec 60 seconds); [lia |].
  destruct (Z.ltb_spec 0 seconds); [| lia].
  repeat split; assumption.
Qed.

(** X5.  Sixty seconds are still shown in the seconds form; from sixty-one
    seconds on the text is [<minutes>m <seconds>.00s] with at least one
    minute and fewer than sixty seconds, and the nanosecond part plays no
    role: the fraction shown is always [.00]. *)
Theorem minutes_form_starts_after_sixty_seconds (seconds : Z) :
  60 < seconds ->
  (forall nanoseconds,
     formatHrTime (seconds, nanoseconds)
     = String.append (toString (seconds / 60))
         (String.append "m "
            (String.append (String.append (toString (seconds mod 60)) ".00") "s")))
  /\ 1 <= seconds / 60
  /\ 0 <= seconds mod 60 < 60
  /\ (forall n n', formatHrTime (seconds, n) = formatHrTime (seconds, n'))
  /\ (forall nanoseconds,
        formatHrTime (60, nanoseconds)
        = String.append "60"
            (String.append "."
               (String.append (padStart 3 "0" (toString (nanoseconds / 1000000))) "s"))).
Proof.
  intros Hs.
  assert (forall nanoseconds,
            formatHrTime (seconds, nanoseconds)
            = String.append (toString (seconds / 60))
                (String.append "m "
                   (String.append (String.append (toString (seconds mod 60)) ".00") "s")))
    as Hform.
  { intros nanoseconds. unfold formatHrTime. cbn [fst snd].
    destruct (Z.ltb_spec 60 seconds); [| lia].
    unfold toFixed2. rewrite Z.rem_mod_nonneg by lia. reflexivity. }
  split; [exact Hform |].
  split; [apply Z.div_le_lower_bound; lia |].
  split; [apply Z.mod_pos_bound; lia |].
  split; [intros n n'; now rewrite !Hform | reflexivity].
Qed.

(** X6.  A duration below one second is shown in whole milliseconds,
    rounded to the nearest (a half goes up): the number shown lies between
    0 and 1000, is within half a millisecond of the duration, and reads
    1000 exactly from 999.5 ms on. *)
Theorem subsecond_form_rounds_to_milliseconds (nanoseconds : Z) :
  0 <= nanoseconds < 1000000000 ->
  exists shown,
    formatHrTime (0, nanoseconds) = String.append (toString shown) "ms"
    /\ 0 <= shown <= 1000
    /\ -500000 < 1000000 * shown - nanoseconds <= 500000
    /\ (shown = 1000 <-> 999500000 <= nanoseconds)
    /\ displayProcessTime (0, nanoseconds)
       = ([formatHrTime (0, nanoseconds)], formatHrTime (0, nanoseconds)).
Proof.
  intros Hn. exists (roundMilliseconds nanoseconds).
  unfold roundMilliseconds.
  pose proof (Z.div_mod (nanoseconds + 500000) 1000000 ltac:(lia)) as Hdiv.
  pose proof (Z.mod_pos_bound (nanoseconds + 500000) 1000000 ltac:(lia)) as Hmod.
  repeat split; try reflexivity; try lia.
Qed.

End TimerFacts.

(* ===================================================================== *)
(** ** The result table *)
(* ===================================================================== *)

Section TableFacts.
Import JS JSText Table.

Variable toFixed1 : Z -> Z -> string.

(** X1.  [truncateName] shows a name that fits as it is; a longer one is
    cut to its first [maxLength] characters followed by three dots, so the
    text is [maxLength + 3] characters long; a missing or empty name reads
    "Unknown". *)
Theorem truncateName_fits_or_cuts (name : string) (maxLength : nat) :
  name <> EmptyString ->
  ((String.length name <= maxLength)%nat ->
   truncateName (Some name) maxLength = name)
  /\ ((maxLength < String.length name)%nat ->
      exists kept rest,
        truncateName (Some name) maxLength = String.append kept "..."
        /\ name = String.append kept rest
        /\ String.length kept = maxLength
        /\ String.length (truncateName (Some name) maxLength) = (maxLength + 3)%nat)
  /\ truncateName None maxLength = "Unknown"%string
  /\ truncateName (Some EmptyString) maxLength = "Unknown"%string.
Proof.
  intros Hne. destruct name as [| c s]; [congruence |].
  repeat split.
  - intros Hfit. unfold truncateName.
    destruct (Nat.ltb_spec maxLength (String.length (String c s))); [lia | reflexivity].
  - intros Hlong. unfold truncateName.
    destruct (Nat.ltb_spec maxLength (String.length (String c s))); [| lia].
    destruct (substring0_prefix maxLength (String c s)) as [rest Hrest].
    exists (substring0 maxLength (String c s)), rest.
    repeat split; try assumption.
    + apply substring0_length. lia.
    + rewrite length_append, substring0_length by lia. reflexivity.
Qed.

Lemma truncateName_nonempty (name : option string) (maxLength : nat) :
  truncateName name maxLength <> EmptyString.
Proof.
  unfold truncateName. destruct name as [[| c s] |]; try discriminate.
  destruct (_ <? _)%nat; [| discriminate].
  apply append_nonempty_r. discriminate.
Qed.

Lemma formatAuthor_nonempty (author : option AuthorValue) :
  formatAuthor author <> EmptyString.
Proof.
  unfold formatAuthor. destruct author as [[s | a] |]; try discriminate.
  destruct (author_name a) as [[| c s] |]; try discriminate;
    destruct (author_id a) as [n |]; try discriminate;
    destruct (n =? 0); discriminate.
Qed.

Lemma formatVersion_nonempty (result : Result) (versionRaw : option string) :
  formatVersion result versionRaw <> EmptyString.
Proof.
  unfold formatVersion. destruct versionRaw as [[| c s] |]; try discriminate;
    (destruct (version result) as [v |]; [| discriminate]);
    (destruct (version_id v) as [n |]; [| discriminate]);
    (destruct (n =? 0); [discriminate | apply toString_nonempty]).
Qed.

Lemma formatDownloads_nonempty (downloads : option Z) :
  formatDownloads toFixed1 downloads <> EmptyString.
Proof.
  unfold formatDownloads. destruct downloads as [d |]; [| discriminate].
  destruct (1000000 <=? d); [apply append_nonempty_r; discriminate |].
  destruct (1000 <=? d); [apply append_nonempty_r; discriminate |].
  apply toString_nonempty.
Qed.

Lemma orElse_nonempty (v : option string) (fallback : string) :
  fallback <> EmptyString -> orElse v fallback <> EmptyString.
Proof. intros H. unfold orElse. destruct v as [[| c s] |]; try assumption. discriminate. Qed.

(** X2.  What a table row reads when fields are missing.  The Source cell
    is the result's source, or "Unknown"; the row is laid out for Modrinth
    exactly when that text is "Modrinth", and for Spigot otherwise.  The
    Name cell is the title (Modrinth) or the name (Spigot) cut to the
    length limit, so "Unknown" when that field is missing or empty, and at
    most limit + 3 characters otherwise; the limit is 35 when none, or 0,
    is given.  The Downloads cell reads "Unknown" without a download
    count, and the count itself below 1000.  In a Spigot row the Author
    cell reads "Unknown" without an author, for an author that is a text,
    and for an author object with neither name nor id; the ID cell reads
    "Unknown" without a truthy id; the Version cell reads "Unknown" when
    neither [version_raw] nor [version.id] is truthy.  In a Modrinth row
    the Author cell reads "Unknown" without a truthy author; the ID cell
    falls back to [project_id] and reads "Unknown" only when that is
    missing too; the Version cell falls back from [version_raw] to
    [latest_version] and reads "Unknown" when both are missing.  No cell
    is ever an empty text.  All of this holds for every rendering of
    [(a / b).toFixed(1)]. *)
Theorem table_row_has_no_empty_cell (result : Result) (maxNameLength : option nat) :
  let row := formatResultRow toFixed1 result maxNameLength in
  let shownSource := orElse (source result) "Unknown" in
  let limit := match maxNameLength with Some (S n) => S n | _ => 35%nat end in
  let shownName :=
    if String.eqb shownSource "Modrinth" then title result else name result in
  (forall s, In (Text s) [Name row; AuthorCell row; ID row; Version row;
                          Downloads row; Source row] ->
             s <> EmptyString)
  /\ Source row = Text shownSource
  /\ (truthy (source result) = false -> Source row = Text "Unknown")
  /\ Name row = Text (truncateName shownName limit)
  /\ (truthy shownName = false -> Name row = Text "Unknown")
  /\ (forall n, shownName = Some n -> n <> EmptyString ->
        exists shown, Name row = Text shown /\ (String.length shown <= limit + 3)%nat)
  /\ (downloads result = None -> Downloads row = Text "Unknown")
  /\ (forall d, downloads result = Some d -> d < 1000 ->
        Downloads row = Text (toString d))
  /\ (String.eqb shownSource "Modrinth" = false ->
        AuthorCell row = Text (formatAuthor (author result))
        /\ (author result = None -> AuthorCell row = Text "Unknown")
        /\ (forall text, author result = Some (AuthorText text) ->
              AuthorCell row = Text "Unknown")
        /\ (forall a, author result = Some (AuthorObject a) ->
              truthy (author_name a) = false -> truthyNumber (author_id a) = false ->
              AuthorCell row = Text "Unknown")
        /\ (truthyId (id result) = false -> ID row = Text "Unknown")
        /\ (truthy (version_raw result) = false ->
            truthyVersionId (version result) = false ->
            Version row = Text "Unknown"))
  /\ (String.eqb shownSource "Modrinth" = true ->
        (truthyAuthor (author result) = false -> AuthorCell row = Text "Unknown")
        /\ (truthyId (id result) = false ->
            ID row = Text (orElse (project_id result) "Unknown"))
        /\ (truthyId (id result) = false -> truthy (project_id result) = false ->
            ID row = Text "Unknown")
        /\ (truthy (version_raw result) = false ->
            Version row = Text (orElse (latest_version result) "Unknown"))
        /\ (truthy (version_raw result) = false -> truthy (latest_version result) = false ->
            Version row = Text "Unknown")).
Proof.
  cbv zeta. unfold formatResultRow.
  set (limit := match maxNameLength with Some (S n) => S n | _ => 35%nat end).
  assert (forall v, (String.length (truncateName v limit) <= limit + 3)%nat
                    \/ truncateName v limit = "Unknown"%string) as Hname.
  { intros [[| c n] |]; [now right | | now right].
    left. unfold truncateName.
    destruct (Nat.ltb_spec limit (String.length (String c n))).
    - rewrite length_append, substring0_length by lia. simpl. lia.
    - lia. }
  assert (forall v n, v = Some n -> n <> EmptyString ->
                      (String.length (truncateName v limit) <= limit + 3)%nat) as Hlen.
  { intros v n -> Hn. destruct n as [| c n]; [congruence |].
    unfold truncateName.
    destruct (Nat.ltb_spec limit (String.length (String c n))).
    - rewrite length_append, substring0_length by lia. simpl. lia.
    - lia. }
  assert (forall v, truthy v = false -> truncateName v limit = "Unknown"%string) as Hmissing.
  { intros [[| c n] |]; [reflexivity | discriminate | reflexivity]. }
  assert (forall v, truthy v = false -> orElse v "Unknown" = "Unknown"%string) as Hor.
  { intros [[| c n] |]; [reflexivity | discriminate | reflexivity]. }
  assert (downloads result = None ->
          formatDownloads toFixed1 (downloads result) = "Unknown"%string) as Hnone.
  { now intros ->. }
  assert (forall d, downloads result = Some d -> d < 1000 ->
                    formatDownloads toFixed1 (downloads result) = toString d) as Hsmall.
  { intros d -> Hd. unfold formatDownloads.
    destruct (Z.leb_spec 1000000 d); [lia |]. destruct (Z.leb_spec 1000 d); [lia |].
    reflexivity. }
  destruct (String.eqb (orElse (source result) "Unknown") "Modrinth") eqn:Hsrc;
    cbn [Name AuthorCell ID Version Downloads Source].
  - split.
    { intros s Hin. cbn [In] in Hin.
      destruct Hin as [H | [H | [H | [H | [H | [H | []]]]]]].
      + injection H as <-. apply truncateName_nonempty.
      + destruct (author result) as [[[| c a] | a] |]; try discriminate H;
          injection H as <-; discriminate.
      + destruct (id result) as [[[| c i] | n] |];
          try (injection H as <-; apply orElse_nonempty; discriminate).
        * injection H as <-. discriminate.
        * destruct (n =? 0); [| discriminate H].
          injection H as <-. apply orElse_nonempty. discriminate.
      + injection H as <-. apply orElse_nonempty. discriminate.
      + injection H as <-. apply formatDownloads_nonempty.
      + injection H as <-. apply orElse_nonempty. discriminate. }
    split; [reflexivity |].
    split; [intros Hs; now rewrite (Hor _ Hs) |].
    split; [reflexivity |].
    split; [intros Hn; now rewrite (Hmissing _ Hn) |].
    split; [intros n Hn Hne; eexists; split; [reflexivity | now apply (Hlen _ n)] |].
    split; [intros Hd; now rewrite (Hnone Hd) |].
    split; [intros d Hd Hlt; now rewrite (Hsmall d Hd Hlt) |].
    split; [discriminate |]. intros _.
    split; [| split; [| split; [| split]]].
    + destruct (author result) as [[[| c a] | a] |]; cbn; try discriminate; reflexivity.
    + destruct (id result) as [[[| c i] | n] |]; cbn; try discriminate; try reflexivity.
      destruct (n =? 0); [reflexivity | discriminate].
    + intros Hid Hp.
      destruct (id result) as [[[| c i] | n] |]; cbn in Hid; try discriminate Hid;
        try (rewrite (Hor _ Hp); reflexivity).
      destruct (n =? 0); [now rewrite (Hor _ Hp) | discriminate Hid].
    + intros Hraw. unfold orValue. now rewrite Hraw.
    + intros Hraw Hlatest. unfold orValue. rewrite Hraw. now rewrite (Hor _ Hlatest).
  - split.
    { intros s Hin. cbn [In] in Hin.
      destruct Hin as [H | [H | [H | [H | [H | [H | []]]]]]].
      + injection H as <-. apply truncateName_nonempty.
      + injection H as <-. apply formatAuthor_nonempty.
      + destruct (id result) as [[[| c i] | n] |];
          try (injection H as <-; discriminate).
        destruct (n =? 0); [injection H as <-; discriminate | discriminate H].
      + injection H as <-. apply formatVersion_nonempty.
      + injection H as <-. apply formatDownloads_nonempty.
      + injection H as <-. apply orElse_nonempty. discriminate. }
    split; [reflexivity |].
    split; [intros Hs; now rewrite (Hor _ Hs) |].
    split; [reflexivity |].
    split; [intros Hn; now rewrite (Hmissing _ Hn) |].
    split; [intros n Hn Hne; eexists; split; [reflexivity | now apply (Hlen _ n)] |].
    split; [intros Hd; now rewrite (Hnone Hd) |].
    split; [intros d Hd Hlt; now rewrite (Hsmall d Hd Hlt) |].
    split; [| discriminate]. intros _.
    split; [reflexivity |].
    split; [now intros -> |].
    split; [now intros text -> |].
    split.
    + intros a -> Hn Hi. unfold formatAuthor.
      destruct (author_name a) as [[| c n] |]; try discriminate Hn;
        destruct (author_id a) as [i |]; try reflexivity;
        cbn in Hi; destruct (i =? 0); try reflexivity; discriminate Hi.
    + split.
      * destruct (id result) as [[[| c i] | n] |]; cbn; try discriminate; try reflexivity.
        destruct (n =? 0); [reflexivity | discriminate].
      * intros Hraw Hv. unfold formatVersion.
        destruct (version_raw result) as [[| c v] |]; try discriminate Hraw;
          destruct (version result) as [ref |]; try reflexivity;
          cbn in Hv; destruct (version_id ref) as [i |]; try reflexivity;
          cbn in Hv; destruct (i =? 0); try reflexivity; discriminate Hv.
Qed.

(** X3.  The table and the details view name a Spigot author alike,
    except for an author object that has neither a name nor an id: the
    table reads "Unknown", the details read "Unknown Author".  After the
    check that [SpigotAPI] applies to every author object the two always
    agree, and show the author's name, or "Unknown" when it had none. *)
Theorem author_shown_alike_once_normalized (a : Author) :
  (formatAuthor (Some (AuthorObject a)) <> detailsAuthor (Some (AuthorObject a))
   <-> truthy (author_name a) = false /\ truthyNumber (author_id a) = false)
  /\ formatAuthor (normalizeAuthor (Some (AuthorObject a)))
     = detailsAuthor (normalizeAuthor (Some (AuthorObject a)))
  /\ formatAuthor (normalizeAuthor (Some (AuthorObject a)))
     = orElse (author_name a) "Unknown"
  /\ formatAuthor (normalizeAuthor None) = detailsAuthor (normalizeAuthor None).
Proof.
  destruct a as [[[| c n] |] [i |]]; cbn;
    try (destruct (Z.eqb_spec i 0); cbn);
    repeat split; try reflexivity; try discriminate; try congruence;
    try (intros H; now elim H); try (intros [? ?]; discriminate).
Qed.

End TableFacts.

(* ===================================================================== *)
(** ** More about [processSearchResults] and [fuzzySearch] *)
(* ===================================================================== *)

Section MoreResolveFacts.
Import JS Search Info.

(** The lower-casing of the runtime: any mapping. *)
Context (lowerCase : LowerCase).

Variable fuse_search : list Plugin -> string -> list FuseResult.

(** X7.  Every run of [processSearchResults] renders exactly one thing, or
    nothing at all.  For the empty list the trace is the failed spinner
    alone.  For any other list the trace begins with the number of records
    found and ends with the one event of the run that renders something:
    the details of one record, or one table; never both, never two of a
    kind, never neither.  The outcome read off the trace names that
    event, and is "no plugins found" exactly for the empty list. *)
Theorem outcome_defined_and_empty_only_for_empty_list
    (query : string) (records : list Plugin) :
  let trace := processSearchResults fuse_search query records in
  (records = [] -> trace = [SpinnerFail_NoPlugins])
  /\ (In SpinnerFail_NoPlugins trace <-> records = [])
  /\ (resolve fuse_search query records = Some Empty <-> records = [])
  /\ (records <> [] ->
      exists logged shown,
        trace = SpinnerSucceed_Found (List.length records) :: logged ++ [shown]
        /\ List.filter isRendering trace = [shown]
        /\ match shown with
           | DisplayPluginDetails r src =>
               src = source r
               /\ resolve fuse_search query records = Some (SingleMatch r)
           | DisplaySearchResults rows =>
               exists reason,
                 resolve fuse_search query records = Some (CandidateSet rows reason)
           | _ => False
           end).
Proof.
  cbv zeta. unfold resolve.
  destruct (process_cases _ fuse_search query records)
    as [[-> Ht] | [(e & c & rows & Ht) | [(r & Ht) | [(a & b & r & Ht) | (a & b & rows & Ht)]]]];
    cbv zeta in Ht; rewrite Ht.
  - split; [reflexivity |]. split; [split; [reflexivity | intros _; now left] |].
    split; [now split |]. intros Hne. now elim Hne.
  - assert (records <> []) as Hne by (intros ->; discriminate Ht).
    split; [intros ->; now elim Hne |].
    split; [split; [intros Hin; simpl in Hin; intuition discriminate
                   | intros ->; now elim Hne] |].
    split; [split; [discriminate | intros ->; now elim Hne] |].
    intros _. exists [Log_ExactAndPartial e c; Log_ChooseOrUseId], (DisplaySearchResults rows).
    split; [reflexivity |]. split; [reflexivity |].
    now exists ExactNameCollision.
  - assert (records <> []) as Hne by (intros ->; discriminate Ht).
    split; [intros ->; now elim Hne |].
    split; [split; [intros Hin; simpl in Hin; intuition discriminate
                   | intros ->; now elim Hne] |].
    split; [split; [discriminate | intros ->; now elim Hne] |].
    intros _. exists [], (DisplayPluginDetails r (source r)).
    split; [reflexivity |]. split; [reflexivity |]. now split.
  - assert (records <> []) as Hne by (intros ->; discriminate Ht).
    split; [intros ->; now elim Hne |].
    split; [split; [intros Hin; simpl in Hin; intuition discriminate
                   | intros ->; now elim Hne] |].
    split; [split; [discriminate | intros ->; now elim Hne] |].
    intros _.
    exists [Log_FoundExcluded a b; Log_BestMatch (pluginName r)],
           (DisplayPluginDetails r (source r)).
    split; [reflexivity |]. split; [reflexivity |]. now split.
  - assert (records <> []) as Hne by (intros ->; discriminate Ht).
    split; [intros ->; now elim Hne |].
    split; [split; [intros Hin; simpl in Hin; intuition discriminate
                   | intros ->; now elim Hne] |].
    split; [split; [discriminate | intros ->; now elim Hne] |].
    intros _. exists [Log_FoundExcluded a b; Log_MultipleMatches], (DisplaySearchResults rows).
    split; [reflexivity |]. split; [reflexivity |].
    now exists FuzzyMultipleGood.
Qed.

Lemma shown_records_cases (query : string) (records : list Plugin) :
  List.filter (isExactMatch query) records = [] ->
  (2 <= List.length records)%nat ->
  let shown :=
    match sortedResults fuse_search zero_point_two query records with
    | [] => records
    | kept => kept
    end in
  shown <> []
  /\ forall ev, In ev (processSearchResults fuse_search query records) ->
       match ev with
       | DisplaySearchResults rows => rows = shown
       | DisplayPluginDetails p src => In p shown /\ src = source p
       | _ => True
       end.
Proof.
  intros Hex Hlen. cbv zeta.
  rewrite process_fuzzy by assumption. cbv zeta.
  destruct (sortedResults fuse_search zero_point_two query records) as [| k ks].
  - two_or_more records Hlen. split; [discriminate |].
    intros ev Hin. cbn in Hin.
    destruct Hin as [<- | [<- | [<- | [<- | []]]]]; try exact I. reflexivity.
  - split; [discriminate |]. intros ev Hin.
    destruct ((List.length (k :: ks) =? 1)%nat && _)%bool;
      cbn [In] in Hin;
      destruct Hin as [<- | [<- | [<- | [<- | []]]]]; try exact I.
    + split; [now left | reflexivity].
    + reflexivity.
Qed.

(** X8.  Provided Fuse returns records of the list it was given, every
    record [processSearchResults] renders, in a table or as details, is a
    record of the merged list, and details are rendered under the record's
    own source. *)
Theorem rendered_records_come_from_the_list (query : string) (records : list Plugin) :
  (forall res, In res (fuse_search records query) -> In (item res) records) ->
  (forall rows, In (DisplaySearchResults rows)
                   (processSearchResults fuse_search query records) ->
                incl rows records)
  /\ (forall p src, In (DisplayPluginDetails p src)
                       (processSearchResults fuse_search query records) ->
                    In p records /\ src = source p).
Proof.
  intros Hfuse.
  assert (forall p, In p (sortedResults fuse_search zero_point_two query records) ->
                    In p records) as Hkept.
  { intros p Hp. apply In_sortedResults in Hp as [x [Hx _]]. apply (Hfuse _ Hx). }
  destruct (List.filter (isExactMatch query) records) as [| e es] eqn:Hex.
  - destruct records as [| r1 [| r2 records]].
    + split; [intros rows H | intros p src H]; simpl in H; intuition discriminate.
    + apply filter_nil_iff_all_false with (a := r1) in Hex; [| now left].
      rewrite process_single by assumption.
      split; [intros rows H | intros p src H]; simpl in H.
      * intuition discriminate.
      * destruct H as [H | [H | []]]; [discriminate H |].
        injection H as <- <-. split; [now left | reflexivity].
    + destruct (shown_records_cases query (r1 :: r2 :: records) Hex ltac:(simpl; lia))
        as [_ Hev]. cbv zeta in Hev.
      assert (incl (match sortedResults fuse_search zero_point_two query
                            (r1 :: r2 :: records) with
                    | [] => r1 :: r2 :: records
                    | kept => kept
                    end) (r1 :: r2 :: records)) as Hincl.
      { destruct (sortedResults _ _ _ _) as [| k ks]; [apply incl_refl |].
        intros q Hq. now apply Hkept. }
      split.
      * intros rows H. specialize (Hev _ H). cbn in Hev. now rewrite Hev.
      * intros p src H. specialize (Hev _ H). cbn in Hev.
        destruct Hev as [Hp ->]. split; [now apply Hincl | reflexivity].
  - rewrite process_exact by (rewrite Hex; discriminate).
    split; [intros rows H | intros p src H]; simpl in H.
    + destruct H as [H | [H | [H | [H | []]]]]; try discriminate H.
      injection H as <-. intros p Hp. now apply filter_In in Hp as [Hp _].
    + intuition discriminate.
Qed.

End MoreResolveFacts.

Section NeverAnEmptyTable.
Import JS Search.

(** The lower-casing of the runtime: any mapping. *)
Context (lowerCase : LowerCase).

Context {E : Type}.
Variable SpigotAPI : string -> Z -> Exc E (option (list Resource)).
Variable ModrinthAPI : string -> Z -> bool -> Exc E (option (list Resource)).
Variable fuse_search : list Plugin -> string -> list FuseResult.
Variable toFixed1 : Z -> Z -> string.

Lemma thenCatch_logs_errors_only (onError : SearchCommand.Event)
    (call : Exc E (option (list Resource))) (rows : list Plugin) :
  onError <> SearchCommand.DisplaySearchResults rows ->
  ~ In (SearchCommand.DisplaySearchResults rows)
       (fst (SearchCommand.thenCatch onError call)).
Proof.
  intros Hne. destruct call as [[rs |] | e]; simpl; intuition congruence.
Qed.

(** X9.  Neither command ever hands an empty list to
    [displaySearchResults]: every table rendered by [processSearchResults]
    and by [searchPlugins] has at least one row, so the "No results to
    display." message of [displaySearchResults] is not reached from them;
    for a non-empty list it prints one row per result. *)
Theorem tables_are_never_empty (query : string) :
  (forall records rows,
     In (Info.DisplaySearchResults rows)
        (Info.processSearchResults fuse_search query records) ->
     rows <> [])
  /\ (forall limit source rows,
        In (SearchCommand.DisplaySearchResults rows)
           (SearchCommand.searchPlugins SpigotAPI ModrinthAPI query limit source) ->
        rows <> [])
  /\ (forall results maxNameLength,
        results <> [] ->
        exists printed,
          Table.displaySearchResults toFixed1 results maxNameLength = inr printed
          /\ List.length printed = List.length results)
  /\ (forall maxNameLength,
        Table.displaySearchResults toFixed1 [] maxNameLength
        = inl "No results to display."%string).
Proof.
  split; [| split; [| split]].
  - intros records rows Hin.
    destruct (List.filter (isExactMatch query) records) as [| e es] eqn:Hex.
    + destruct records as [| r1 [| r2 records]].
      * simpl in Hin. intuition discriminate.
      * apply filter_nil_iff_all_false with (a := r1) in Hex; [| now left].
        rewrite (process_single _ fuse_search) in Hin by assumption.
        simpl in Hin. intuition discriminate.
      * destruct (shown_records_cases _ fuse_search query (r1 :: r2 :: records) Hex
                    ltac:(simpl; lia)) as [Hshown Hev].
        specialize (Hev _ Hin). cbn in Hev. now rewrite Hev.
    + rewrite (process_exact _ fuse_search) in Hin by (rewrite Hex; discriminate).
      simpl in Hin. destruct Hin as [H | [H | [H | [H | []]]]]; try discriminate H.
      injection H as <-. intros Hnil.
      assert (In e (List.filter (isExactMatch query) records)) as He
          by (rewrite Hex; now left).
      apply filter_In in He as [He1 He2].
      assert (In e (List.filter (Info.containsQuery query) records)) as Hc.
      { apply filter_In. split; [assumption | now apply exact_is_containing]. }
      rewrite Hnil in Hc. destruct Hc.
  - intros limit source rows Hin. unfold SearchCommand.searchPlugins in Hin.
    set (spigotTask :=
           if (String.eqb source "all" || String.eqb source "spigot")%bool
           then SearchCommand.thenCatch SearchCommand.ConsoleError_Spigot
                  (SpigotAPI query limit)
           else ([], [])) in Hin.
    set (modrinthTask :=
           if (String.eqb source "all" || String.eqb source "modrinth")%bool
           then SearchCommand.thenCatch SearchCommand.ConsoleError_Modrinth
                  (ModrinthAPI query limit false)
           else ([], [])) in Hin.
    assert (~ In (SearchCommand.DisplaySearchResults rows) (fst spigotTask)) as Hl.
    { unfold spigotTask.
      destruct (String.eqb source "all" || String.eqb source "spigot")%bool.
      - apply thenCatch_logs_errors_only. discriminate.
      - cbn [fst]. intros []. }
    assert (~ In (SearchCommand.DisplaySearchResults rows) (fst modrinthTask)) as Hr.
    { unfold modrinthTask.
      destruct (String.eqb source "all" || String.eqb source "modrinth")%bool.
      - apply thenCatch_logs_errors_only. discriminate.
      - cbn [fst]. intros []. }
    destruct spigotTask as [logS spigotResults], modrinthTask as [logM modrinthResults].
    cbn [fst] in Hl, Hr.
    apply in_app_or in Hin as [Hin | Hin]; [contradiction |].
    apply in_app_or in Hin as [Hin | Hin]; [contradiction |].
    destruct (combinedResults spigotResults modrinthResults) as [| p ps];
      simpl in Hin.
    + intuition discriminate.
    + destruct Hin as [H | [H | [H | []]]]; try discriminate H.
      injection H as <-. discriminate.
  - intros results maxNameLength Hne. destruct results as [| r rs]; [contradiction |].
    eexists. split; [reflexivity |]. now rewrite length_map.
  - reflexivity.
Qed.

End NeverAnEmptyTable.

Section FrequencyFacts.
Import JS Search Info.

(** The lower-casing of the runtime: any mapping. *)
Context (lowerCase : LowerCase).

(** X10.  The frequency map built by [processSearchResults] gives, for
    every key, the number of records of the whole list whose non-empty
    display name has that key as its lower-case form under the runtime's
    [toLowerCase], whatever that mapping is: names with the same
    lower-case form are counted together, records without a display name
    are not counted, and a key that is the lower-case form of no record's
    name has no entry. *)
Theorem name_frequency_counts_ignoring_case (records : list Plugin) (k : string) :
  let bearers :=
    List.filter (fun p => name_and p (fun n => String.eqb (toLowerCase n) k)) records in
  default 0%nat (buildNameMap records !! k) = List.length bearers
  /\ (buildNameMap records !! k = None <-> bearers = [])
  /\ (forall p, In p bearers <->
        In p records /\
        exists n, pluginName p = Some n /\ n <> EmptyString /\ toLowerCase n = k).
Proof.
  cbv zeta. rewrite buildNameMap_lookup. repeat split.
  - now destruct (List.filter _ records).
  - destruct (List.filter _ records); [reflexivity | discriminate].
  - intros ->. reflexivity.
  - now apply filter_In in H.
  - apply filter_In in H as [_ H]. apply name_and_spec in H as [n [Hn [Hne Hk]]].
    exists n. repeat split; try assumption. now apply String.eqb_eq.
  - intros [Hp [n [Hn [Hne Hk]]]]. apply filter_In. split; [assumption |].
    apply name_and_spec. exists n. repeat split; try assumption.
    now apply String.eqb_eq.
Qed.

End FrequencyFacts.

Section MoreFuzzyFacts.
Import JS Search.

(** The lower-casing of the runtime: any mapping. *)
Context (lowerCase : LowerCase).

Variable fuse_search : list Plugin -> string -> list FuseResult.

Lemma find_first_match {A : Type} (f : A -> bool) (pre post : list A) (x : A) :
  (forall a, In a pre -> f a = false) -> f x = true ->
  List.find f (pre ++ x :: post) = Some x.
Proof.
  intros Hpre Hx. induction pre as [| a pre IH]; simpl.
  - now rewrite Hx.
  - rewrite (Hpre a) by now left. apply IH. intros b Hb. apply Hpre. now right.
Qed.

(** X11.  Whatever the branch and the options: [allResults] is the list
    passed in; a [bestMatch] that [fuzzySearch] reports is one of the
    [results] it returns and comes with [hasGoodMatch] set; and
    [hasGoodMatch] is set only together with at least one result. *)
Theorem bestMatch_is_one_of_the_results
    (query : string) (items : list Plugin) (options : FuzzySearchOptions) :
  let found := fuzzySearch fuse_search query items options in
  allResults found = items
  /\ (forall p, bestMatch found = Some p ->
        In p (results found) /\ hasGoodMatch found = true)
  /\ (hasGoodMatch found = false -> bestMatch found = None)
  /\ (hasGoodMatch found = true -> results found <> []).
Proof.
  cbv zeta.
  assert (forall p,
            bestMatch (fuzzySearch fuse_search query items options) = Some p ->
            In p (results (fuzzySearch fuse_search query items options))
            /\ hasGoodMatch (fuzzySearch fuse_search query items options) = true) as Hbest.
  { intros p. unfold fuzzySearch.
    destruct (List.find (isExactMatch query) items) as [exact |].
    - cbn. intros [= ->]. split; [now left | reflexivity].
    - destruct (List.length items =? 1)%nat.
      + cbn. intros Hhd. split; [| reflexivity].
        destruct items as [| x xs]; [discriminate |]. injection Hhd as ->. now left.
      + cbn [bestMatch results hasGoodMatch].
        set (thr := threshold_or_default (threshold options)).
        destruct (fuse_search items query) as [| r rest] eqn:Hfuse; [discriminate |].
        destruct (below thr r) eqn:Hbelow; [| discriminate].
        intros [= <-].
        assert (In (item r) (sortedResults fuse_search thr query items)) as Hin.
        { unfold sortedResults.
          eapply Permutation_in; [apply sort_bySource_Permutation |].
          unfold filteredResults. rewrite Hfuse. simpl. rewrite Hbelow. now left. }
        destruct (sortedResults fuse_search thr query items) as [| k ks];
          [destruct Hin |].
        split; [exact Hin | reflexivity]. }
  split; [| split; [exact Hbest | split]].
  - unfold fuzzySearch.
    destruct (List.find (isExactMatch query) items); [reflexivity |].
    destruct (List.length items =? 1)%nat; reflexivity.
  - intros Hgood.
    destruct (bestMatch (fuzzySearch fuse_search query items options)) as [p |] eqn:Hp;
      [| reflexivity].
    destruct (Hbest p eq_refl) as [_ Habs]. congruence.
  - unfold fuzzySearch.
    destruct (List.find (isExactMatch query) items) as [exact |]; [discriminate |].
    destruct (Nat.eqb_spec (List.length items) 1) as [Hone | _].
    + cbn. intros _ ->. discriminate Hone.
    + cbn [hasGoodMatch results].
      destruct (sortedResults fuse_search _ query items); [discriminate | discriminate].
Qed.

(** X12.  In the fuzzy branch (no exact match, not exactly one item), when
    Fuse scores nothing below the threshold: [hasGoodMatch] is false and
    [bestMatch] is null, while [results] is the whole list, unless the
    caller passed [includeAllOnNoMatch: false], in which case it is empty.
    A threshold of 0 cannot be asked for: it is replaced by 0.2. *)
Theorem nothing_kept_is_flagged_not_good
    (query : string) (items : list Plugin) (options : FuzzySearchOptions) :
  List.find (isExactMatch query) items = None ->
  List.length items <> 1%nat ->
  (forall res, In res (fuse_search items query) ->
               below (threshold_or_default (threshold options)) res = false) ->
  hasGoodMatch (fuzzySearch fuse_search query items options) = false
  /\ bestMatch (fuzzySearch fuse_search query items options) = None
  /\ (includeAllOnNoMatch options <> Some false ->
      results (fuzzySearch fuse_search query items options) = items)
  /\ (includeAllOnNoMatch options = Some false ->
      results (fuzzySearch fuse_search query items options) = [])
  /\ fuzzySearch fuse_search query items
       (mkFuzzySearchOptions (Some 0%float) (includeAllOnNoMatch options))
     = fuzzySearch fuse_search query items
         (mkFuzzySearchOptions (Some zero_point_two) (includeAllOnNoMatch options)).
Proof.
  intros Hfind Hlen Hscores. unfold fuzzySearch. rewrite Hfind.
  destruct (Nat.eqb_spec (List.length items) 1) as [? | _]; [contradiction |].
  cbn [hasGoodMatch bestMatch results].
  set (thr := threshold_or_default (threshold options)) in *.
  assert (sortedResults fuse_search thr query items = []) as Hkept.
  { unfold sortedResults, filteredResults.
    replace (List.filter (below thr) (fuse_search items query)) with (@nil FuseResult);
      [reflexivity |].
    symmetry. now apply filter_nil_iff_all_false. }
  rewrite Hkept. cbn [List.length Nat.ltb Nat.leb].
  repeat split.
  - destruct (fuse_search items query) as [| r rest]; [reflexivity |].
    now rewrite (Hscores r (or_introl eq_refl)).
  - intros Hinc. destruct (includeAllOnNoMatch options) as [[|] |]; try reflexivity.
    now elim Hinc.
  - intros ->. reflexivity.
Qed.

(** X13.  When some item's display name equals the query ignoring case
    (same lower-case form under the runtime's [toLowerCase], whatever that
    mapping is), [fuzzySearch] returns exactly one result: the first such
    item in list order, also reported as [bestMatch]; later items with the
    same name are left out, and Fuse is not consulted. *)
Theorem fuzzySearch_returns_first_exact_match_only
    (query : string) (pre post : list Plugin) (p : Plugin) (n : string)
    (options : FuzzySearchOptions) :
  (forall q, In q pre ->
     ~ exists m, pluginName q = Some m /\ m <> EmptyString
                 /\ toLowerCase m = toLowerCase query) ->
  pluginName p = Some n -> n <> EmptyString -> toLowerCase n = toLowerCase query ->
  fuzzySearch fuse_search query (pre ++ p :: post) options
  = mkFuzzySearchResult [p] (Some p) true (pre ++ p :: post).
Proof.
  intros Hpre Hn Hne Heq. unfold fuzzySearch.
  rewrite find_first_match; [reflexivity | |].
  - intros q Hq. destruct (isExactMatch query q) eqn:Hex; [| reflexivity].
    apply isExactMatch_spec in Hex. now elim (Hpre q Hq).
  - apply isExactMatch_spec. now exists n.
Qed.

End MoreFuzzyFacts.

(* ===================================================================== *)
(** ** The two commands: validation and the source option *)
(* ===================================================================== *)

Section CommandFacts.
Import JS JSText Search Info.

(** The lower-casing of the runtime: any mapping. *)
Context (lowerCase : LowerCase).

Context {E R : Type}.

Lemma invalid_source_is_none_of_the_three (source : string) :
  InfoCommand.isValidSource source = false ->
  String.eqb source "all" = false
  /\ String.eqb source "spigot" = false
  /\ String.eqb source "modrinth" = false.
Proof.
  unfold InfoCommand.isValidSource, InfoCommand.validSources. cbn [existsb].
  rewrite !orb_false_iff. tauto.
Qed.

Lemma isValidSource_spec (source : string) :
  InfoCommand.isValidSource source = true <->
  source = "all"%string \/ source = "spigot"%string \/ source = "modrinth"%string.
Proof.
  unfold InfoCommand.isValidSource, InfoCommand.validSources. cbn [existsb].
  rewrite !orb_true_iff, !String.eqb_eq. intuition discriminate.
Qed.

Lemma validate_accepts_iff (query : option string) (options : InfoCommand.Options) :
  snd (InfoCommand.validateInputParameters (R := R) query options) = true <->
  ((truthy query || truthy (InfoCommand.option_id options))
   && InfoCommand.isValidSource (toLowerCase (InfoCommand.option_source options))
   && negb (truthy (InfoCommand.option_id options)
            && String.eqb (toLowerCase (InfoCommand.option_source options)) "all"))%bool
  = true.
Proof.
  unfold InfoCommand.validateInputParameters.
  destruct (truthy query), (truthy (InfoCommand.option_id options)),
    (InfoCommand.isValidSource (toLowerCase (InfoCommand.option_source options))),
    (String.eqb (toLowerCase (InfoCommand.option_source options)) "all");
    cbn; split; congruence.
Qed.

Lemma validate_rejects_with_one_error (query : option string)
    (options : InfoCommand.Options) :
  snd (InfoCommand.validateInputParameters (R := R) query options) = false ->
  exists error,
    fst (InfoCommand.validateInputParameters (R := R) query options) = [error]
    /\ (error = InfoCommand.Error_NameOrIdRequired
        \/ error = InfoCommand.Error_InvalidSource (InfoCommand.option_source options)
        \/ error = InfoCommand.Error_IdNeedsSource).
Proof.
  unfold InfoCommand.validateInputParameters.
  destruct (negb (truthy query) && negb (truthy (InfoCommand.option_id options)))%bool;
    [intros _; eexists; split; [reflexivity | auto] |].
  destruct (negb (InfoCommand.isValidSource _));
    [intros _; eexists; split; [reflexivity | auto] |].
  destruct (truthy (InfoCommand.option_id options) && _)%bool;
    [intros _; eexists; split; [reflexivity | auto] | discriminate].
Qed.

(** X14.  [info] accepts its arguments exactly when a name or an id is
    given, the source is all, spigot or modrinth in any letter case, and an
    id does not come with the source all.  When it rejects them it prints
    one error and nothing else, whatever the adapters and Fuse would
    answer: no lookup is made and the timer is not reported. *)
Theorem info_rejects_bad_arguments_before_any_lookup
    (query : option string) (options : InfoCommand.Options) :
  let valid := snd (InfoCommand.validateInputParameters (R := R) query options) in
  let source := toLowerCase (InfoCommand.option_source options) in
  (valid = true <->
     (truthy query = true \/ truthy (InfoCommand.option_id options) = true)
     /\ (source = "all"%string \/ source = "spigot"%string \/ source = "modrinth"%string)
     /\ ~ (truthy (InfoCommand.option_id options) = true /\ source = "all"%string))
  /\ (valid = false ->
      exists error,
        (error = InfoCommand.Error_NameOrIdRequired
         \/ error = InfoCommand.Error_InvalidSource (InfoCommand.option_source options)
         \/ error = InfoCommand.Error_IdNeedsSource)
        /\ forall byIdS byIdM SpigotAPI ModrinthAPI fuse_search,
             InfoCommand.infoAction (E := E) (R := R) byIdS byIdM SpigotAPI ModrinthAPI fuse_search
               query options
             = Ok [error]).
Proof.
  cbv zeta. split.
  - rewrite validate_accepts_iff, !andb_true_iff, orb_true_iff, negb_true_iff,
      andb_false_iff, isValidSource_spec, String.eqb_neq.
    split.
    + intros [[H1 H2] H3]. repeat split; try assumption.
      intros [Hid Hall]. destruct H3; congruence.
    + intros (H1 & H2 & H3). repeat split; try assumption.
      destruct (truthy (InfoCommand.option_id options)); [right | now left].
      intros Hall. apply H3. now split.
  - intros Hrej. destruct (validate_rejects_with_one_error _ _ Hrej) as [error [Hfst Herr]].
    exists error. split; [exact Herr |]. intros.
    unfold InfoCommand.infoAction.
    destruct (InfoCommand.validateInputParameters query options) as [errors valid].
    cbn [fst snd] in *. subst. reflexivity.
Qed.

(** X15.  [info <name> --source Spigot]: the validation lower-cases the
    source before checking it, but the lookup compares the text as typed
    with "all", "spigot" and "modrinth".  So for a source that is valid
    only after lower-casing (its lower-case form is one of the three, the
    text as typed is none of them), no adapter is asked and the command
    reports that no plugins were found, whatever the catalogs hold. *)
Theorem info_by_name_with_capitalised_source_finds_nothing
    (byIdS byIdM : string -> Exc E (option R))
    (SpigotAPI : string -> Z -> Exc E (option (list Resource)))
    (ModrinthAPI : string -> Z -> bool -> Exc E (option (list Resource)))
    (fuse_search : list Plugin -> string -> list FuseResult)
    (query source : string) (given : option string) :
  query <> EmptyString ->
  truthy given = false ->
  InfoCommand.isValidSource (toLowerCase source) = true ->
  InfoCommand.isValidSource source = false ->
  snd (InfoCommand.validateInputParameters (R := R) (Some query)
         (InfoCommand.mkOptions given source)) = true
  /\ InfoCommand.infoAction byIdS byIdM SpigotAPI ModrinthAPI fuse_search
       (Some query) (InfoCommand.mkOptions given source)
     = Ok [InfoCommand.ByName SpinnerFail_NoPlugins; InfoCommand.TimerEnd].
Proof.
  intros Hq Hgiven Hvalid Hcase.
  destruct (invalid_source_is_none_of_the_three source Hcase) as (Hall & Hsp & Hmo).
  destruct query as [| c q]; [congruence |].
  unfold InfoCommand.infoAction, InfoCommand.validateInputParameters.
  cbn [truthy negb andb InfoCommand.option_id InfoCommand.option_source].
  rewrite Hvalid, Hgiven. cbn [negb andb snd orElse].
  split; [reflexivity |].
  unfold InfoCommand.getPluginInfo.
  assert (getPluginByName SpigotAPI ModrinthAPI fuse_search (String c q) source
          = Ok [SpinnerFail_NoPlugins]) as Hrun.
  { unfold getPluginByName, collectResults. rewrite Hall, Hsp, Hmo. reflexivity. }
  destruct given as [[| g gs] |]; try discriminate Hgiven; now rewrite Hrun.
Qed.

(** X16.  [info --id <id> --source Spigot]: for a source that is spigot or
    modrinth only after lower-casing (its lower-case form is one of the
    two, the text as typed is neither), [getPluginById] matches neither
    branch: neither adapter is asked, and nothing is printed between the
    start of the spinner and the timer (no details, no failure). *)
Theorem info_by_id_with_capitalised_source_prints_nothing
    (byIdS byIdM : string -> Exc E (option R))
    (SpigotAPI : string -> Z -> Exc E (option (list Resource)))
    (ModrinthAPI : string -> Z -> bool -> Exc E (option (list Resource)))
    (fuse_search : list Plugin -> string -> list FuseResult)
    (query : option string) (given source : string) :
  given <> EmptyString ->
  (toLowerCase source = "spigot"%string \/ toLowerCase source = "modrinth"%string) ->
  source <> "spigot"%string ->
  source <> "modrinth"%string ->
  snd (InfoCommand.validateInputParameters (R := R) query
         (InfoCommand.mkOptions (Some given) source)) = true
  /\ InfoCommand.infoAction byIdS byIdM SpigotAPI ModrinthAPI fuse_search
       query (InfoCommand.mkOptions (Some given) source)
     = Ok [InfoCommand.TimerEnd].
Proof.
  intros Hgiven Hlower Hsp Hmo.
  apply String.eqb_neq in Hsp, Hmo.
  destruct given as [| g gs]; [congruence |].
  unfold InfoCommand.infoAction, InfoCommand.validateInputParameters.
  cbn [truthy negb andb InfoCommand.option_id InfoCommand.option_source].
  rewrite andb_false_r.
  assert (InfoCommand.isValidSource (toLowerCase source) = true) as Hvalid.
  { apply isValidSource_spec. tauto. }
  assert (String.eqb (toLowerCase source) "all" = false) as Hnotall.
  { apply String.eqb_neq. destruct Hlower as [-> | ->]; discriminate. }
  rewrite Hvalid, Hnotall. cbn [negb snd].
  split; [reflexivity |].
  unfold InfoCommand.getPluginInfo, InfoCommand.getPluginById.
  rewrite Hsp, Hmo. reflexivity.
Qed.

End CommandFacts.

Section SearchActionFacts.
Import JS JSText SearchCommand.

(** The lower-casing of the runtime: any mapping. *)
Context (lowerCase : LowerCase).

Context {E : Type}.
Variable Number : string -> option Z.

(** X17.  [search] prints one error and runs no search when the query is
    missing or empty, when the limit is not a number or not positive, or
    when the source is none of all, spigot, modrinth (in any letter case):
    the output is that error whatever the adapters would answer. *)
Theorem search_rejects_bad_arguments_before_any_search
    (query : option string) (options : SearchAction.Options) :
  truthy query = false
  \/ (forall limit, Number (SearchAction.option_limit options) = Some limit -> limit <= 0)
  \/ InfoCommand.isValidSource (toLowerCase (SearchAction.option_source options)) = false ->
  exists error,
    (error = SearchAction.Error_QueryRequired
     \/ error = SearchAction.Error_LimitNotPositive
     \/ error = SearchAction.Error_InvalidSource (SearchAction.option_source options))
    /\ forall (SpigotAPI : string -> Z -> Exc E (option (list Resource)))
              (ModrinthAPI : string -> Z -> bool -> Exc E (option (list Resource))),
         SearchAction.searchAction Number SpigotAPI ModrinthAPI query options = [error].
Proof.
  intros Hrej. unfold SearchAction.searchAction.
  destruct query as [[| c q] |]; try (eexists; split; [| intros; reflexivity]; auto; fail).
  destruct (Number (SearchAction.option_limit options)) as [limit |] eqn:Hn;
    [| eexists; split; [| intros; reflexivity]; auto].
  destruct (Z.leb_spec limit 0) as [Hle | Hgt];
    [eexists; split; [| intros; reflexivity]; auto |].
  destruct Hrej as [Hq | [Hl | Hs]].
  - discriminate Hq.
  - specialize (Hl limit eq_refl). lia.
  - rewrite Hs. eexists; split; [| intros; reflexivity]; auto.
Qed.

(** X18.  [search <query> --source SPIGOT]: unlike [info], [search] passes
    the lower-cased source on.  For any spelling of "spigot", a positive
    limit and a non-empty answer from Spigot, the table holds exactly
    Spigot's records, tagged Spigot and in their order, and the Modrinth
    adapter plays no part. *)
Theorem search_accepts_source_in_any_case
    (SpigotAPI : string -> Z -> Exc E (option (list Resource)))
    (ModrinthAPI : string -> Z -> bool -> Exc E (option (list Resource)))
    (query : string) (options : SearchAction.Options) (limit : Z)
    (first : Resource) (others : list Resource) :
  query <> EmptyString ->
  Number (SearchAction.option_limit options) = Some limit ->
  0 < limit ->
  toLowerCase (SearchAction.option_source options) = "spigot"%string ->
  SpigotAPI query limit = Ok (Some (first :: others)) ->
  SearchAction.searchAction Number SpigotAPI ModrinthAPI (Some query) options
  = [ SearchAction.Ran (SpinnerSucceed_Found (S (List.length others)));
      SearchAction.Ran Log_UseInfo;
      SearchAction.Ran
        (DisplaySearchResults (List.map (fun r => mkPlugin r Spigot) (first :: others)));
      SearchAction.TimerEnd ].
Proof.
  intros Hq Hn Hpos Hsrc HS. destruct query as [| c q]; [congruence |].
  unfold SearchAction.searchAction. rewrite Hn.
  destruct (Z.leb_spec limit 0); [lia |].
  rewrite Hsrc. cbn [InfoCommand.isValidSource InfoCommand.validSources existsb
                     String.eqb Ascii.eqb Bool.eqb orb andb negb].
  unfold searchPlugins.
  cbn [String.eqb Ascii.eqb Bool.eqb orb andb]. rewrite HS.
  cbn [thenCatch app]. unfold combinedResults. rewrite app_nil_r.
  cbn [List.map List.length Nat.eqb app]. now rewrite length_map.
Qed.

End SearchActionFacts.

(* ===================================================================== *)
(** ** The search adapters and the cache *)
(* ===================================================================== *)

Section AdapterCacheFacts.
Import JS JSText Sources Table Adapters.

Context {E W : Type}.

Lemma stale_stays_stale {V : Type} (c : gmap string (CacheEntry V)) (key : string)
    (now later : Z) :
  now <= later ->
  (forall entry, c !! key = Some entry -> CACHE_TTL <= now - timestamp entry) ->
  forall entry, c !! key = Some entry -> CACHE_TTL <= later - timestamp entry.
Proof. intros Hle Hstale entry Hentry. specialize (Hstale entry Hentry). lia. Qed.

(** X19.  A Spigot search that throws is remembered: [SpigotAPI] catches
    the error inside the function it hands to [withCache], so [null] is
    stored under the search key like any result.  The call returns [null],
    and for the next five minutes every call for the same query and limit
    returns [null] from the cache without searching again, even if the
    catalog would answer by then. *)
Theorem spigot_search_failure_is_cached_as_null
    (spiget_search : string -> Z -> Task SpigotData E W (option (list Result)))
    (fetchVersions : list Result -> Task SpigotData E W (list Result))
    (query : string) (limit : option Z) (now : Z)
    (st st' : State SpigotData W) (e : E) :
  let key := searchKey query (maxResults limit) in
  (forall entry, cache st !! key = Some entry -> CACHE_TTL <= now - timestamp entry) ->
  spiget_search query (maxResults limit) st = (Throw e, st') ->
  SpigotAPI spiget_search fetchVersions query limit now st
  = (Ok (SearchData None),
     mkState (<[key := mkCacheEntry now (SearchData None)]> (cache st')) (world st'))
  /\ forall (search' : string -> Z -> Task SpigotData E W (option (list Result)))
            (versions' : list Result -> Task SpigotData E W (list Result))
            (later : Z) (st2 : State SpigotData W),
       cache st2 !! key = Some (mkCacheEntry now (SearchData None)) ->
       later - now < CACHE_TTL ->
       SpigotAPI search' versions' query limit later st2 = (Ok (SearchData None), st2).
Proof.
  cbv zeta. intros Hstale Hthrow. split.
  - unfold SpigotAPI. rewrite withCache_miss by assumption.
    unfold spigotFetch. now rewrite Hthrow.
  - intros search' versions' later st2 Hentry Hfresh. unfold SpigotAPI.
    now rewrite (withCache_hit _ _ later st2 _ Hentry Hfresh).
Qed.

(** X20.  A Modrinth search that throws is not remembered: [ModrinthAPI]
    returns the empty list and writes nothing, so if the search left the
    cache alone the next call, at any later time, searches again and
    returns what the catalog then answers. *)
Theorem modrinth_search_failure_is_retried
    (modrinth_search : string -> Z -> Task ModrinthData E W (list Result))
    (startVersionFetch : list Result -> State ModrinthData W -> State ModrinthData W)
    (query : string) (limit : option Z) (fetchVersions : bool) (now : Z)
    (st st' : State ModrinthData W) (e : E) :
  let key := searchKey query (validLimit limit) in
  (forall entry, cache st !! key = Some entry -> CACHE_TTL <= now - timestamp entry) ->
  modrinth_search query (validLimit limit) st = (Throw e, st') ->
  ModrinthAPI modrinth_search startVersionFetch query limit fetchVersions now st
  = (Ok [], st')
  /\ forall (search' : string -> Z -> Task ModrinthData E W (list Result))
            (later : Z) (hits : list Result) (st2 : State ModrinthData W),
       cache st' !! key = cache st !! key ->
       now <= later ->
       search' query (validLimit limit) st' = (Ok hits, st2) ->
       fst (ModrinthAPI search' startVersionFetch query limit false later st')
       = Ok (List.map defaultVersionRaw hits).
Proof.
  cbv zeta. intros Hstale Hthrow. split.
  - unfold ModrinthAPI. rewrite withCache_miss by assumption.
    unfold modrinthFetch. now rewrite Hthrow.
  - intros search' later hits st2 Hsame Hlater Hsearch. unfold ModrinthAPI.
    rewrite withCache_miss.
    + unfold modrinthFetch. now rewrite Hsearch.
    + rewrite Hsame. now apply stale_stays_stale with (now := now).
Qed.

End AdapterCacheFacts.

Section MoreAdapterFacts.
Import JS JSText Sources Table Adapters.

Context {E W : Type}.

Lemma defaultVersionRaw_idempotent (hit : Result) :
  defaultVersionRaw (defaultVersionRaw hit) = defaultVersionRaw hit.
Proof.
  unfold defaultVersionRaw.
  destruct (truthy (version_raw hit)) eqn:Hraw; cbn [negb andb].
  - now rewrite Hraw.
  - destruct (truthy (latest_version hit)) eqn:Hlatest.
    + cbn [set_version_raw version_raw latest_version]. now rewrite Hlatest.
    + now rewrite Hraw, Hlatest.
Qed.

Lemma map_defaultVersionRaw_idempotent (hits : list Result) :
  List.map defaultVersionRaw (List.map defaultVersionRaw hits)
  = List.map defaultVersionRaw hits.
Proof.
  rewrite map_map. apply map_ext. apply defaultVersionRaw_idempotent.
Qed.

(** What a successful, uncached [ModrinthAPI] call leaves behind. *)
Lemma ModrinthAPI_miss
    (modrinth_search : string -> Z -> Task ModrinthData E W (list Result))
    (startVersionFetch : list Result -> State ModrinthData W -> State ModrinthData W)
    (query : string) (limit : option Z) (now : Z)
    (st st1 : State ModrinthData W) (hits : list Result) :
  let key := searchKey query (validLimit limit) in
  (forall entry, cache st !! key = Some entry -> CACHE_TTL <= now - timestamp entry) ->
  modrinth_search query (validLimit limit) st = (Ok hits, st1) ->
  ModrinthAPI modrinth_search startVersionFetch query limit false now st
  = (Ok (List.map defaultVersionRaw hits),
     mkState
       (<[key := mkCacheEntry now (SearchResults (List.map defaultVersionRaw hits))]>
          (cache st1))
       (world st1)).
Proof.
  cbv zeta. intros Hstale Hsearch. unfold ModrinthAPI.
  rewrite withCache_miss by assumption. unfold modrinthFetch. rewrite Hsearch.
  cbn [cache world]. now rewrite alter_insert_eq.
Qed.

(** What a cached [ModrinthAPI] call does: nothing but return the hits. *)
Lemma ModrinthAPI_hit
    (modrinth_search : string -> Z -> Task ModrinthData E W (list Result))
    (startVersionFetch : list Result -> State ModrinthData W -> State ModrinthData W)
    (query : string) (limit : option Z) (stamp now : Z)
    (st : State ModrinthData W) (hits : list Result) :
  let key := searchKey query (validLimit limit) in
  cache st !! key = Some (mkCacheEntry stamp (SearchResults (List.map defaultVersionRaw hits))) ->
  now - stamp < CACHE_TTL ->
  ModrinthAPI modrinth_search startVersionFetch query limit false now st
  = (Ok (List.map defaultVersionRaw hits), st).
Proof.
  cbv zeta. intros Hentry Hfresh. unfold ModrinthAPI.
  rewrite (withCache_hit _ _ now st _ Hentry Hfresh). cbn [data].
  rewrite map_defaultVersionRaw_idempotent. f_equal.
  destruct st as [c w]. cbn [cache world] in *. f_equal.
  apply alter_id. intros entry Hlookup. rewrite Hentry in Hlookup.
  now injection Hlookup as <-.
Qed.

(** X21.  [ModrinthAPI] clamps the limit before it builds the cache key,
    so two requests for the same query whose limits clamp to the same
    value share one entry: within five minutes of a successful search, a
    call with the other limit returns the cached hits without searching
    and changes nothing.  Any two limits of 100 or more share an entry, and
    so do a missing limit, 0 and 10. *)
Theorem modrinth_limits_that_clamp_alike_share_the_cache
    (modrinth_search : string -> Z -> Task ModrinthData E W (list Result))
    (startVersionFetch : list Result -> State ModrinthData W -> State ModrinthData W)
    (query : string) (first second : option Z) (now : Z)
    (st st1 : State ModrinthData W) (hits : list Result) :
  validLimit first = validLimit second ->
  (forall entry, cache st !! searchKey query (validLimit first) = Some entry ->
                 CACHE_TTL <= now - timestamp entry) ->
  modrinth_search query (validLimit first) st = (Ok hits, st1) ->
  let after :=
    snd (ModrinthAPI modrinth_search startVersionFetch query first false now st) in
  fst (ModrinthAPI modrinth_search startVersionFetch query first false now st)
  = Ok (List.map defaultVersionRaw hits)
  /\ (forall (search' : string -> Z -> Task ModrinthData E W (list Result))
             (later : Z),
        later - now < CACHE_TTL ->
        ModrinthAPI search' startVersionFetch query second false later after
        = (Ok (List.map defaultVersionRaw hits), after))
  /\ (forall a b, 100 <= a -> 100 <= b -> validLimit (Some a) = validLimit (Some b))
  /\ validLimit None = validLimit (Some 10)
  /\ validLimit (Some 0) = validLimit (Some 10).
Proof.
  intros Hsame Hstale Hsearch. cbv zeta.
  rewrite (ModrinthAPI_miss _ _ _ _ _ _ _ _ Hstale Hsearch). cbn [fst snd].
  split; [reflexivity |]. split; [| split; [| split; reflexivity]].
  - intros search' later Hfresh.
    apply (ModrinthAPI_hit search' startVersionFetch query second now later).
    + cbn [cache]. rewrite <- Hsame. apply lookup_insert_eq.
    + exact Hfresh.
  - intros a b Ha Hb. unfold validLimit, maxResults, ensureValidLimit.
    destruct (Z.eqb_spec a 0), (Z.eqb_spec b 0); lia.
Qed.

Lemma defaultVersionRaw_spec (hit : Result) :
  (truthy (version_raw hit) = true -> defaultVersionRaw hit = hit)
  /\ (truthy (version_raw hit) = false -> truthy (latest_version hit) = true ->
      version_raw (defaultVersionRaw hit) = latest_version hit)
  /\ (truthy (version_raw hit) = false -> truthy (latest_version hit) = false ->
      defaultVersionRaw hit = hit)
  /\ set_version_raw (version_raw hit) (defaultVersionRaw hit) = hit
  /\ (truthy (latest_version hit) = true ->
      truthy (version_raw (defaultVersionRaw hit)) = true).
Proof.
  unfold defaultVersionRaw.
  destruct (truthy (version_raw hit)) eqn:Hraw,
           (truthy (latest_version hit)) eqn:Hlatest;
    cbn [negb andb set_version_raw version_raw];
    repeat split; try congruence; now destruct hit.
Qed.

(** X22.  What [ModrinthAPI] returns is what the catalog or the cache gave,
    hit for hit and in the same order, each hit passed through the
    [version_raw] default and changed in no other way: a fresh search that
    returns [hits] is answered with the defaulted [hits], and so is a valid
    cache entry that holds [hits].  The default fills [version_raw] from
    [latest_version] when the hit has none, and touches no other field;
    so every hit returned that has a [latest_version] has a
    [version_raw]. *)
Theorem modrinth_hits_carry_a_version
    (modrinth_search : string -> Z -> Task ModrinthData E W (list Result))
    (startVersionFetch : list Result -> State ModrinthData W -> State ModrinthData W)
    (query : string) (limit : option Z) (fetchVersions : bool) (now : Z)
    (st : State ModrinthData W) :
  let key := searchKey query (validLimit limit) in
  let answer :=
    fst (ModrinthAPI modrinth_search startVersionFetch query limit fetchVersions now st) in
  (forall hits st1,
     (forall entry, cache st !! key = Some entry -> CACHE_TTL <= now - timestamp entry) ->
     modrinth_search query (validLimit limit) st = (Ok hits, st1) ->
     answer = Ok (List.map defaultVersionRaw hits))
  /\ (forall stamp hits,
        cache st !! key = Some (mkCacheEntry stamp (SearchResults hits)) ->
        now - stamp < CACHE_TTL ->
        answer = Ok (List.map defaultVersionRaw hits))
  /\ (forall hits i hit,
        nth_error hits i = Some hit ->
        nth_error (List.map defaultVersionRaw hits) i = Some (defaultVersionRaw hit)
        /\ (truthy (version_raw hit) = true -> defaultVersionRaw hit = hit)
        /\ (truthy (version_raw hit) = false -> truthy (latest_version hit) = true ->
            version_raw (defaultVersionRaw hit) = latest_version hit)
        /\ (truthy (version_raw hit) = false -> truthy (latest_version hit) = false ->
            defaultVersionRaw hit = hit)
        /\ set_version_raw (version_raw hit) (defaultVersionRaw hit) = hit)
  /\ (forall returned,
        answer = Ok returned ->
        forall hit, In hit returned ->
          truthy (latest_version hit) = true -> truthy (version_raw hit) = true).
Proof.
  cbv zeta. split; [| split; [| split]].
  - intros hits st1 Hstale Hsearch. unfold ModrinthAPI.
    rewrite withCache_miss by assumption. unfold modrinthFetch. rewrite Hsearch.
    now destruct fetchVersions.
  - intros stamp hits Hentry Hfresh. unfold ModrinthAPI.
    rewrite (withCache_hit _ _ now st _ Hentry Hfresh). cbn [data].
    now destruct fetchVersions.
  - intros hits i hit Hi.
    destruct (defaultVersionRaw_spec hit) as (H1 & H2 & H3 & H4 & _).
    split; [now rewrite nth_error_map, Hi |]. repeat split; assumption.
  - intros returned Hanswer hit Hin Hlatest.
    assert (exists raw, returned = List.map defaultVersionRaw raw) as [raw ->].
    { revert Hanswer. unfold ModrinthAPI.
      destruct (withCache _ _ now st) as [[[hits | v | q] | e] st1]; cbn [fst].
      - destruct fetchVersions; intros [= <-]; now exists hits.
      - intros [= <-]. now exists [].
      - intros [= <-]. now exists [].
      - intros [= <-]. now exists []. }
    apply in_map_iff in Hin as [raw_hit [<- _]].
    destruct (defaultVersionRaw_spec raw_hit) as (H1 & H2 & H3 & _ & _).
    destruct (truthy (version_raw raw_hit)) eqn:Hraw.
    + now rewrite H1, Hraw.
    + destruct (truthy (latest_version raw_hit)) eqn:Hl.
      * rewrite H2 by reflexivity. exact Hl.
      * rewrite H3 in Hlatest by reflexivity. congruence.
Qed.

(** X23.  Neither search adapter ever rejects: whatever the catalog
    client, the version lookups and the cache do (answer, answer [null],
    throw), [SpigotAPI] and [ModrinthAPI] return a value. *)
Theorem search_adapters_never_throw
    (spiget_search : string -> Z -> Task SpigotData E W (option (list Result)))
    (fetchVersions : list Result -> Task SpigotData E W (list Result))
    (modrinth_search : string -> Z -> Task ModrinthData E W (list Result))
    (startVersionFetch : list Result -> State ModrinthData W -> State ModrinthData W)
    (query : string) (limit : option Z) (flag : bool) (now : Z) :
  (forall st, exists value,
     fst (SpigotAPI spiget_search fetchVersions query limit now st) = Ok value)
  /\ (forall st, exists value,
        fst (spigotFetch spiget_search fetchVersions query (maxResults limit) st)
        = Ok (SearchData value))
  /\ (forall st, exists hits,
        fst (ModrinthAPI modrinth_search startVersionFetch query limit flag now st)
        = Ok hits).
Proof.
  split; [| split]; intros st.
  - unfold SpigotAPI. destruct (withCache _ _ now st) as [[cached | e] st1]; eauto.
  - unfold spigotFetch.
    destruct (spiget_search query (maxResults limit) st) as [[[results |] | e] st1];
      eauto.
    destruct (fetchVersions _ st1) as [[enriched | e] st2]; eauto.
  - unfold ModrinthAPI.
    destruct (withCache _ _ now st) as [[[hits | v | p] | e] st1]; eauto.
Qed.

(** X24.  The version written into a Spigot resource: a version name made
    of digits only gets ".0" appended, any other name is taken as it is, so
    a name that is present never leaves a bare integer in [version_raw];
    a failed lookup leaves "Unknown"; a lookup that finds no version
    leaves the resource as it was.  Only [version_raw] changes. *)
Theorem spigot_version_is_never_a_bare_integer
    (resource : Result) (versionName : string) (e : E) :
  versionName <> EmptyString ->
  let updated :=
    applyVersion resource
      (@Ok E _ (Some (mkSpigetVersion (Some versionName)))) in
  (exists shown,
     version_raw updated = Some shown
     /\ shown <> EmptyString
     /\ digitsOnly shown = false
     /\ (digitsOnly versionName = true -> shown = String.append versionName ".0")
     /\ (digitsOnly versionName = false -> shown = versionName))
  /\ set_version_raw (version_raw resource) updated = resource
  /\ version_raw (applyVersion resource (@Throw E _ e)) = Some "Unknown"%string
  /\ applyVersion resource (@Ok E _ None) = resource.
Proof.
  intros Hne. cbv zeta. destruct versionName as [| c s]; [congruence |].
  unfold applyVersion. cbn [version_name].
  split; [| split; [destruct (digitsOnly (String c s)); now destruct resource
                   | split; reflexivity]].
  destruct (digitsOnly (String c s)) eqn:Hdigits;
    eexists; cbn [set_version_raw version_raw]; (split; [reflexivity |]).
  - split; [apply append_nonempty_r; discriminate |].
    split; [| split; congruence].
    rewrite append_cons. cbn [digitsOnly]. rewrite <- append_cons.
    rewrite allDigits_append. cbn. apply andb_false_r.
  - split; [discriminate |]. split; [exact Hdigits | split; congruence].
Qed.

End MoreAdapterFacts.

(* ===================================================================== *)
(** ** Detecting the server *)
(* ===================================================================== *)

Section DetectFacts.
Import JS JSText Detect.

(** The lower-casing of the runtime: any mapping. *)
Context (lowerCase : LowerCase).

Context {E : Type}.

Lemma endsWith_spec (s t : string) :
  endsWith s t = true <-> exists pre, s = String.append pre t.
Proof.
  induction s as [| a s IH]; cbn [endsWith].
  - rewrite orb_false_r, String.eqb_eq. split.
    + intros <-. now exists EmptyString.
    + intros [pre H]. destruct pre; [exact H | discriminate H].
  - rewrite orb_true_iff, String.eqb_eq, IH. split.
    + intros [<- | [pre ->]]; [now exists EmptyString |].
      now exists (String a pre).
    + intros [[| c pre] H].
      * left. exact H.
      * right. rewrite append_cons in H. injection H as _ H. now exists pre.
Qed.

(** X25.  The jar files considered are the directory entries whose name
    ends in ".jar" in any letter case, in directory order; an unreadable
    directory counts as having none.  With no jar file the answer is
    "unknown" and neither the prompt nor java is used; with exactly one the
    prompt is not used and java runs on that file; if the prompt or java
    fails the answer is "unknown". *)
Theorem server_detection_needs_a_jar_and_a_version
    (select : list string -> Exc E string) (execVersion : string -> Exc E string) :
  (forall files file,
     In file (findJarFiles (@Ok E _ files)) <->
     In file files /\ exists stem, toLowerCase file = String.append stem ".jar")
  /\ (forall e, findJarFiles (@Throw E _ e) = [])
  /\ (forall readdirSync,
        findJarFiles readdirSync = [] ->
        detectPluginServer readdirSync select execVersion = unknown)
  /\ (forall readdirSync jar,
        findJarFiles readdirSync = [jar] ->
        detectPluginServer readdirSync select execVersion
        = match execVersion jar with
          | Ok result => classify result
          | Throw _ => unknown
          end)
  /\ (forall readdirSync jar1 jar2 jars e,
        findJarFiles readdirSync = jar1 :: jar2 :: jars ->
        select (jar1 :: jar2 :: jars) = Throw e ->
        detectPluginServer readdirSync select execVersion = unknown)
  /\ (forall readdirSync jar1 jar2 jars chosen,
        findJarFiles readdirSync = jar1 :: jar2 :: jars ->
        select (jar1 :: jar2 :: jars) = Ok chosen ->
        detectPluginServer readdirSync select execVersion
        = match execVersion chosen with
          | Ok result => classify result
          | Throw _ => unknown
          end).
Proof.
  repeat split.
  - now apply filter_In in H.
  - apply filter_In in H as [_ H]. now apply endsWith_spec in H.
  - intros [Hin Hjar]. apply filter_In. split; [assumption |]. now apply endsWith_spec.
  - intros readdirSync Hnone. unfold detectPluginServer. now rewrite Hnone.
  - intros readdirSync jar Hone. unfold detectPluginServer. now rewrite Hone.
  - intros readdirSync jar1 jar2 jars e Hmany Hfail. unfold detectPluginServer.
    now rewrite Hmany, Hfail.
  - intros readdirSync jar1 jar2 jars chosen Hmany Hchosen. unfold detectPluginServer.
    now rewrite Hmany, Hchosen.
Qed.

(** X26.  The version text is tested for "Paper", "Spigot", "Bukkit" and
    "Purpur" in this order and with exact letter case, and the first name
    found decides: a text that names Paper is reported as paper whatever
    else it names, and a text is reported as purpur only if it names
    Purpur and none of the other three. *)
Theorem server_kind_is_the_first_name_found (result : string) :
  (classify result = paper <-> includes result "Paper" = true)
  /\ (classify result = spigot <->
        includes result "Paper" = false /\ includes result "Spigot" = true)
  /\ (classify result = bukkit <->
        includes result "Paper" = false /\ includes result "Spigot" = false
        /\ includes result "Bukkit" = true)
  /\ (classify result = purpur <->
        includes result "Paper" = false /\ includes result "Spigot" = false
        /\ includes result "Bukkit" = false /\ includes result "Purpur" = true)
  /\ (classify result = unknown <->
        includes result "Paper" = false /\ includes result "Spigot" = false
        /\ includes result "Bukkit" = false /\ includes result "Purpur" = false)
  /\ (forall pre post,
        classify (String.append pre (String.append "Paper" post)) = paper).
Proof.
  unfold classify.
  assert (forall a b c d : bool,
            let kind := if a then paper else if b then spigot
                        else if c then bukkit else if d then purpur else unknown in
            (kind = paper <-> a = true)
            /\ (kind = spigot <-> a = false /\ b = true)
            /\ (kind = bukkit <-> a = false /\ b = false /\ c = true)
            /\ (kind = purpur <-> a = false /\ b = false /\ c = false /\ d = true)
            /\ (kind = unknown <-> a = false /\ b = false /\ c = false /\ d = false))
    as Hchain.
  { intros [|] [|] [|] [|]; cbv zeta; repeat split; intros; try discriminate;
      try reflexivity; intuition discriminate. }
  destruct (Hchain (includes result "Paper") (includes result "Spigot")
              (includes result "Bukkit") (includes result "Purpur"))
    as (H1 & H2 & H3 & H4 & H5).
  cbv zeta in H1, H2, H3, H4, H5.
  split; [exact H1 |]. split; [exact H2 |]. split; [exact H3 |].
  split; [exact H4 |]. split; [exact H5 |].
  intros pre post.
  replace (includes (String.append pre (String.append "Paper" post)) "Paper") with true;
    [reflexivity |].
  symmetry. apply includes_spec. now exists pre, post.
Qed.

End DetectFacts.

(* ===================================================================== *)
(** ** The further properties on sample data *)
(* ===================================================================== *)

Section ViewScenarios.
Import JS JSText Timer Table Samples MoreSamples.

(** A nine-letter name cut to five letters, and left alone at 35. *)
Lemma truncate_scenario :
  truncateName (Some "WorldEdit"%string) 5 = "World..."%string
  /\ truncateName (Some "WorldEdit"%string) 35 = "WorldEdit"%string.
Proof.
  destruct (truncateName_fits_or_cuts "WorldEdit" 5 ltac:(discriminate))
    as (_ & Hcut & _).
  destruct (truncateName_fits_or_cuts "WorldEdit" 35 ltac:(discriminate))
    as (Hfit & _).
  split.
  - destruct (Hcut ltac:(simpl; lia)) as (kept & rest & Hshown & _).
    reflexivity.
  - apply Hfit. simpl. lia.
Defined.

(** A result with no field at all reads "Unknown" in every cell; a
    Modrinth hit without [id] and [version_raw] shows its [project_id] and
    its [latest_version]. *)
Lemma bare_row_scenario :
  formatResultRow oneDecimal bareResult None
  = mkRow (Text "Unknown") (Text "Unknown") (Text "Unknown") (Text "Unknown")
      (Text "Unknown") (Text "Unknown")
  /\ ID (formatResultRow oneDecimal hitWithoutId None) = Text "vault-m"
  /\ Version (formatResultRow oneDecimal hitWithoutId None) = Text "abc123"
  /\ Downloads (formatResultRow oneDecimal hitWithoutId None) = Text "10".
Proof.
  pose proof (table_row_has_no_empty_cell oneDecimal bareResult None) as Hbare.
  pose proof (table_row_has_no_empty_cell oneDecimal hitWithoutId None) as Hhit.
  cbv zeta in Hbare, Hhit.
  destruct Hbare as (_ & _ & Hsource & _ & Hname & _ & Hdownloads & _ & Hspigot & _).
  destruct Hhit as (_ & _ & _ & _ & _ & _ & _ & Hcount & _ & Hmodrinth).
  destruct (Hspigot eq_refl) as (_ & Hauthor & _ & _ & Hid & Hversion).
  destruct (Hmodrinth eq_refl) as (_ & Hproject & _ & Hlatest & _).
  split; [| split; [| split]].
  - destruct (formatResultRow oneDecimal bareResult None) as [n a i v d s].
    cbn [Name AuthorCell ID Version Downloads Source] in *.
    rewrite (Hname eq_refl), (Hauthor eq_refl), (Hid eq_refl),
      (Hversion eq_refl eq_refl), (Hdownloads eq_refl), (Hsource eq_refl).
    reflexivity.
  - now rewrite (Hproject eq_refl).
  - now rewrite (Hlatest eq_refl).
  - now rewrite (Hcount 10 eq_refl ltac:(lia)).
Defined.

(** 3 s and 42 ms. *)
Lemma seconds_scenario :
  formatHrTime (3, 42000000) = "3.042s"%string.
Proof.
  destruct (seconds_form_has_three_millisecond_digits 3 42000000
              ltac:(lia) ltac:(lia)) as (fraction & Hshown & _ & _ & Hfraction & _).
  rewrite Hshown, Hfraction. reflexivity.
Defined.

(** 61 s and 999999999 ns: the nanoseconds are not shown. *)
Lemma minutes_scenario :
  formatHrTime (61, 999999999) = "1m 1.00s"%string
  /\ formatHrTime (61, 999999999) = formatHrTime (61, 0).
Proof.
  destruct (minutes_form_starts_after_sixty_seconds 61 ltac:(lia))
    as (Hshown & _ & _ & Hsame & _).
  split; [now rewrite Hshown | apply Hsame].
Defined.

(** 999.5 ms reads 1000ms. *)
Lemma milliseconds_scenario :
  formatHrTime (0, 999500000) = "1000ms"%string.
Proof.
  destruct (subsecond_form_rounds_to_milliseconds 999500000 ltac:(lia))
    as (shown & Hshown & _ & _ & Hthousand & _).
  rewrite Hshown. replace shown with 1000; [reflexivity |].
  symmetry. apply Hthousand. lia.
Defined.

End ViewScenarios.

Section ResolveScenarios.
Import JS Search Info Samples MoreSamples.

Lemma rendered_scenario :
  In essentialsX [essentialsX; worldGuard]
  /\ incl [foo; bar] [foo; bar].
Proof.
  destruct (rendered_records_come_from_the_list unicode toyFuse "essential"
              [essentialsX; worldGuard]) as [_ Hdetails].
  - intros res Hres. vm_compute in Hres. destruct Hres as [<- | []]. now left.
  - destruct (rendered_records_come_from_the_list unicode toyFuse "zzz-unmatched" [foo; bar])
      as [Htable _].
    + intros res Hres. vm_compute in Hres. destruct Hres.
    + split.
      * apply (Hdetails essentialsX Spigot). vm_compute. tauto.
      * apply Htable. vm_compute. tauto.
Defined.

(** "essential" among "EssentialsX" and "WorldGuard": the best match is
    EssentialsX, it is among the results, and the whole list is handed
    back as [allResults]. *)
Lemma best_match_scenario :
  In essentialsX
     (results (fuzzySearch toyFuse "essential" [essentialsX; worldGuard]
                 (mkFuzzySearchOptions None None)))
  /\ hasGoodMatch (fuzzySearch toyFuse "essential" [essentialsX; worldGuard]
                     (mkFuzzySearchOptions None None)) = true
  /\ allResults (fuzzySearch toyFuse "zzz-unmatched" [foo; bar]
                   (mkFuzzySearchOptions None (Some false))) = [foo; bar].
Proof.
  destruct (bestMatch_is_one_of_the_results unicode toyFuse "essential"
              [essentialsX; worldGuard] (mkFuzzySearchOptions None None))
    as (_ & Hbest & _).
  destruct (bestMatch_is_one_of_the_results unicode toyFuse "zzz-unmatched"
              [foo; bar] (mkFuzzySearchOptions None (Some false)))
    as (Hall & _).
  cbv zeta in Hbest, Hall.
  destruct (Hbest essentialsX ltac:(vm_compute; reflexivity)) as [Hin Hgood].
  split; [exact Hin | split; [exact Hgood | exact Hall]].
Defined.

Lemma nothing_kept_scenario :
  results (fuzzySearch toyFuse "zzz-unmatched" [foo; bar]
             (mkFuzzySearchOptions None (Some false))) = []
  /\ results (fuzzySearch toyFuse "zzz-unmatched" [foo; bar]
                (mkFuzzySearchOptions None None)) = [foo; bar]
  /\ hasGoodMatch (fuzzySearch toyFuse "zzz-unmatched" [foo; bar]
                     (mkFuzzySearchOptions None None)) = false.
Proof.
  destruct (nothing_kept_is_flagged_not_good unicode toyFuse "zzz-unmatched" [foo; bar]
              (mkFuzzySearchOptions None (Some false)))
    as (_ & _ & _ & Hnone & _).
  - reflexivity.
  - simpl. lia.
  - intros res Hres. vm_compute in Hres. destruct Hres.
  - destruct (nothing_kept_is_flagged_not_good unicode toyFuse "zzz-unmatched" [foo; bar]
                (mkFuzzySearchOptions None None))
      as (Hflag & _ & Hall & _).
    + reflexivity.
    + simpl. lia.
    + intros res Hres. vm_compute in Hres. destruct Hres.
    + split; [now apply Hnone |]. split; [apply Hall; discriminate | exact Hflag].
Defined.

(** "vault" among "WorldGuard", "Vault" and "Vault": the first "Vault" is
    the one result.  "élanx" among "WorldGuard", "ÉLANX" and "élanx": the
    first of the two, which equals the query once lower-cased, is the one
    result. *)
Lemma first_exact_scenario :
  fuzzySearch toyFuse "vault" [worldGuard; vaultA; vaultB]
    (mkFuzzySearchOptions None None)
  = mkFuzzySearchResult [vaultA] (Some vaultA) true [worldGuard; vaultA; vaultB]
  /\ fuzzySearch toyFuse "élanx" [worldGuard; elanX; elanx]
       (mkFuzzySearchOptions None None)
     = mkFuzzySearchResult [elanX] (Some elanX) true [worldGuard; elanX; elanx].
Proof.
  split.
  - apply (fuzzySearch_returns_first_exact_match_only unicode toyFuse "vault"
             [worldGuard] [vaultB] vaultA "Vault").
    + intros q [<- | []] [m [Hm [_ Heq]]]. injection Hm as <-.
      vm_compute in Heq. discriminate Heq.
    + reflexivity.
    + discriminate.
    + vm_compute. reflexivity.
  - apply (fuzzySearch_returns_first_exact_match_only unicode toyFuse "élanx"
             [worldGuard] [elanx] elanX "ÉLANX").
    + intros q [<- | []] [m [Hm [_ Heq]]]. injection Hm as <-.
      vm_compute in Heq. discriminate Heq.
    + reflexivity.
    + discriminate.
    + vm_compute. reflexivity.
Defined.

(** "Vault", "Vault", "ÉLANX", "élanx" and a record without a name: each of
    the two names is counted twice under its lower-case form, and the
    spelling in capitals has no entry of its own. *)
Lemma frequency_scenario :
  buildNameMap [vaultA; elanX; untitled; vaultB; elanx] !! "vault"%string = Some 2%nat
  /\ buildNameMap [vaultA; elanX; untitled; vaultB; elanx] !! "élanx"%string = Some 2%nat
  /\ buildNameMap [vaultA; elanX; untitled; vaultB; elanx] !! "ÉLANX"%string = None.
Proof.
  pose proof (name_frequency_counts_ignoring_case unicode
                [vaultA; elanX; untitled; vaultB; elanx] "vault") as (Hvault & _).
  pose proof (name_frequency_counts_ignoring_case unicode
                [vaultA; elanX; untitled; vaultB; elanx] "élanx") as (Helan & _).
  pose proof (name_frequency_counts_ignoring_case unicode
                [vaultA; elanX; untitled; vaultB; elanx] "ÉLANX") as (_ & Hnone & _).
  cbv zeta in Hvault, Helan, Hnone.
  split; [| split].
  - destruct (buildNameMap _ !! "vault"%string) as [count |] eqn:Hlookup;
      vm_compute in Hvault; [now subst count | vm_compute in Hlookup; discriminate Hlookup].
  - destruct (buildNameMap _ !! "élanx"%string) as [count |] eqn:Hlookup;
      vm_compute in Helan; [now subst count | vm_compute in Hlookup; discriminate Hlookup].
  - apply Hnone. vm_compute. reflexivity.
Defined.

End ResolveScenarios.

Section CommandScenarios.
Import JS Search Samples MoreSamples.

(** [info Alpha --source Spigot]: Spigot would return three records, yet
    none is found. *)
Lemma info_capitalised_source_scenario :
  InfoCommand.infoAction nothingById nothingById threeFromSpigot twoFromModrinth toyFuse
    (Some "Alpha"%string) (InfoCommand.mkOptions None "Spigot")
  = Ok [InfoCommand.ByName Info.SpinnerFail_NoPlugins; InfoCommand.TimerEnd].
Proof.
  apply (info_by_name_with_capitalised_source_finds_nothing unicode
           nothingById nothingById threeFromSpigot twoFromModrinth toyFuse
           "Alpha" "Spigot" None).
  - discriminate.
  - reflexivity.
  - vm_compute. reflexivity.
  - reflexivity.
Defined.

(** [info --id 9089 --source Spigot]: the resource exists, nothing is
    shown. *)
Lemma info_id_capitalised_source_scenario :
  InfoCommand.infoAction essentialsById essentialsById threeFromSpigot twoFromModrinth
    toyFuse None (InfoCommand.mkOptions (Some "9089"%string) "Spigot")
  = Ok [InfoCommand.TimerEnd].
Proof.
  apply (info_by_id_with_capitalised_source_prints_nothing unicode
           essentialsById essentialsById threeFromSpigot twoFromModrinth toyFuse
           None "9089" "Spigot").
  - discriminate.
  - left. vm_compute. reflexivity.
  - discriminate.
  - discriminate.
Defined.

(** [search vault --limit 0]. *)
Lemma search_limit_zero_scenario :
  SearchAction.searchAction numberOf threeFromSpigot twoFromModrinth
    (Some "vault"%string) (SearchAction.mkOptions "0" "all")
  = [SearchAction.Error_LimitNotPositive].
Proof.
  destruct (search_rejects_bad_arguments_before_any_search unicode (E := unit) numberOf
              (Some "vault"%string) (SearchAction.mkOptions "0" "all"))
    as (error & _ & Hsame).
  - right. left. intros limit Hlimit. vm_compute in Hlimit. injection Hlimit as <-. lia.
  - reflexivity.
Defined.

(** [search x --limit 5 --source SPIGOT]. *)
Lemma search_capitalised_source_scenario :
  SearchAction.searchAction numberOf threeFromSpigot modrinthThrows
    (Some "x"%string) (SearchAction.mkOptions "5" "SPIGOT")
  = [ SearchAction.Ran (SearchCommand.SpinnerSucceed_Found 3);
      SearchAction.Ran SearchCommand.Log_UseInfo;
      SearchAction.Ran
        (SearchCommand.DisplaySearchResults
           [ mkPlugin (spigotResource "1" "Alpha") Spigot;
             mkPlugin (spigotResource "2" "Beta") Spigot;
             mkPlugin (spigotResource "3" "Gamma") Spigot ]);
      SearchAction.TimerEnd ].
Proof.
  apply (search_accepts_source_in_any_case unicode numberOf threeFromSpigot modrinthThrows
           "x" (SearchAction.mkOptions "5" "SPIGOT") 5
           (spigotResource "1" "Alpha")
           [spigotResource "2" "Beta"; spigotResource "3" "Gamma"]).
  - discriminate.
  - reflexivity.
  - lia.
  - vm_compute. reflexivity.
  - reflexivity.
Defined.

End CommandScenarios.

Section AdapterScenarios.
Import JS JSText Sources Table Adapters Samples MoreSamples.

(** Spiget is down at time 1000 and up again at time 2000: the second
    call still answers [null], and the catalog was asked once. *)
Lemma spigot_outage_scenario :
  let after := snd (SpigotAPI spigetDown noVersions "vault" (Some 5) 1000 emptySpigot) in
  fst (SpigotAPI spigetDown noVersions "vault" (Some 5) 1000 emptySpigot)
  = Ok (SearchData None)
  /\ SpigotAPI spigetUp noVersions "vault" (Some 5) 2000 after
     = (Ok (SearchData None), after)
  /\ world after = 1%nat.
Proof.
  cbv zeta.
  destruct (spigot_search_failure_is_cached_as_null spigetDown noVersions
              "vault" (Some 5) 1000 emptySpigot (mkState ∅ 1%nat) tt)
    as [Hfirst Hnext].
  - intros entry Hentry. unfold emptySpigot in Hentry. cbn [cache] in Hentry.
    rewrite lookup_empty in Hentry. discriminate Hentry.
  - reflexivity.
  - rewrite Hfirst. cbn [fst snd world]. split; [reflexivity |].
    split; [| reflexivity].
    apply Hnext; [cbn [cache]; apply lookup_insert_eq | unfold CACHE_TTL; lia].
Defined.

(** Modrinth is down at time 1000 and up again at time 2000: the second
    call searches and returns the hits. *)
Lemma modrinth_outage_scenario :
  let after :=
    snd (ModrinthAPI modrinthDown noBackground "vault" (Some 5) false 1000 emptyModrinth) in
  ModrinthAPI modrinthDown noBackground "vault" (Some 5) false 1000 emptyModrinth
  = (Ok [], after)
  /\ fst (ModrinthAPI modrinthUp noBackground "vault" (Some 5) false 2000 after)
     = Ok (List.map defaultVersionRaw [hitWithLatest; hitWithRaw]).
Proof.
  cbv zeta.
  destruct (modrinth_search_failure_is_retried modrinthDown noBackground
              "vault" (Some 5) false 1000 emptyModrinth (mkState ∅ 1%nat) tt)
    as [Hfirst Hnext].
  - intros entry Hentry. unfold emptyModrinth in Hentry. cbn [cache] in Hentry.
    rewrite lookup_empty in Hentry. discriminate Hentry.
  - reflexivity.
  - rewrite Hfirst. cbn [snd]. split; [reflexivity |].
    apply (Hnext modrinthUp 2000 [hitWithLatest; hitWithRaw]
             (mkState ∅ 2%nat)); [reflexivity | lia | reflexivity].
Defined.

(** A search with limit 100, then one with limit 500 a minute later: one
    catalog call in all. *)
Lemma modrinth_shared_entry_scenario :
  let after :=
    snd (ModrinthAPI modrinthUp noBackground "vault" (Some 100) false 0 emptyModrinth) in
  ModrinthAPI modrinthUp noBackground "vault" (Some 500) false 60000 after
  = (Ok (List.map defaultVersionRaw [hitWithLatest; hitWithRaw]), after)
  /\ world after = 1%nat.
Proof.
  cbv zeta.
  destruct (modrinth_limits_that_clamp_alike_share_the_cache modrinthUp noBackground
              "vault" (Some 100) (Some 500) 0 emptyModrinth (mkState ∅ 1%nat)
              [hitWithLatest; hitWithRaw])
    as (_ & Hshared & _).
  - reflexivity.
  - intros entry Hentry. unfold emptyModrinth in Hentry. cbn [cache] in Hentry.
    rewrite lookup_empty in Hentry. discriminate Hentry.
  - reflexivity.
  - cbv zeta in Hshared. split.
    + apply Hshared. unfold CACHE_TTL. lia.
    + rewrite (ModrinthAPI_miss modrinthUp noBackground "vault" (Some 100) 0
                 emptyModrinth (mkState ∅ 1%nat) [hitWithLatest; hitWithRaw]).
      * reflexivity.
      * intros entry Hentry. unfold emptyModrinth in Hentry. cbn [cache] in Hentry.
        rewrite lookup_empty in Hentry. discriminate Hentry.
      * reflexivity.
Defined.

(** A fresh search that returns a hit with a [latest_version] only and a
    hit with a [version_raw]: the first comes back with its
    [latest_version] as [version_raw], the second as it was. *)
Lemma modrinth_version_scenario :
  fst (ModrinthAPI modrinthUp noBackground "vault" (Some 5) true 1000 emptyModrinth)
  = Ok [set_version_raw (Some "abc123"%string) hitWithLatest; hitWithRaw].
Proof.
  destruct (modrinth_hits_carry_a_version modrinthUp noBackground
              "vault" (Some 5) true 1000 emptyModrinth) as (Hfresh & _).
  cbv zeta in Hfresh.
  rewrite (Hfresh [hitWithLatest; hitWithRaw] (mkState ∅ 1%nat)).
  - reflexivity.
  - intros entry Hentry. unfold emptyModrinth in Hentry. cbn [cache] in Hentry.
    rewrite lookup_empty in Hentry. discriminate Hentry.
  - reflexivity.
Defined.

(** The version named "5" is written as "5.0". *)
Lemma version_scenario :
  version_raw (applyVersion tableResource
                 (@Ok unit _ (Some (mkSpigetVersion (Some "5"%string)))))
  = Some "5.0"%string.
Proof.
  destruct (spigot_version_is_never_a_bare_integer (E := unit) tableResource "5" tt
              ltac:(discriminate))
    as ((shown & Hraw & _ & _ & Hdigits & _) & _).
  cbv zeta in Hraw. rewrite Hraw. f_equal. now apply Hdigits.
Defined.

End AdapterScenarios.

Section DetectScenarios.
Import JS JSText Detect Samples MoreSamples.

(** One jar file, named in capitals, and a Paper build that also mentions
    Purpur: the prompt is not used and the answer is paper. *)
Lemma detect_scenario :
  findJarFiles oneJar = ["Server.JAR"%string]
  /\ detectPluginServer oneJar neverAsked paperVersion = paper.
Proof.
  destruct (server_detection_needs_a_jar_and_a_version unicode neverAsked paperVersion)
    as (_ & _ & _ & Hone & _).
  split; [reflexivity |].
  rewrite (Hone oneJar "Server.JAR"%string eq_refl). reflexivity.
Defined.

Lemma paper_wins_scenario :
  classify "git-Paper-196 (MC: 1.20.1) on Purpur" = paper
  /\ classify "git-Purpur-2062 (MC: 1.20.1)" = purpur.
Proof.
  destruct (server_kind_is_the_first_name_found "git-Paper-196 (MC: 1.20.1) on Purpur")
    as (Hpaper & _).
  destruct (server_kind_is_the_first_name_found "git-Purpur-2062 (MC: 1.20.1)")
    as (_ & _ & _ & Hpurpur & _).
  split; [apply Hpaper; reflexivity | apply Hpurpur; repeat split].
Defined.

End DetectScenarios.
